(** * The FAQ search of the support-widget API ([src/index.js])

    A shallow embedding of the [GET /faq/search] handler: the query guard,
    the pagination loop that loads every help-center article, the tokenizer,
    the per-article scoring loop, the filter / sort / slice / projection
    pipeline and the JSON response.

    Conventions of the embedding.
    - A JavaScript string is a Rocq [string] whose characters are the code
      units U+0000 .. U+00FF; [toLowerCase], the white-space class and the
      word class below are the ECMAScript ones restricted to that range.
    - [new RegExp(src)] and [String.prototype.match] are built-ins of the
      host; they are modelled on a fragment of the pattern grammar, and a
      pattern outside the fragment gives the explicit answer [Outside].
    - Exceptions, patterns outside the fragment and an exhausted loop budget
      are the three ways a computation has no normal value ([completion]).
    - [fetch] is a function from the requested URL to what the content source
      answers; the handler records the requests and the console output in a
      trace. *)

From Stdlib Require Import List String Ascii Bool Arith ZArith Lia.
From Stdlib Require Import Sorted.
Import ListNotations.
Open Scope string_scope.

(* ================================================================= *)
(** ** JavaScript strings *)

Module JsString.

Definition code (c : ascii) : nat := nat_of_ascii c.

Definition between (lo hi n : nat) : bool :=
  ((lo <=? n) && (n <=? hi))%nat.

(** [A-Z], and the Latin-1 capitals U+00C0 .. U+00DE without U+00D7. *)
Definition is_upper (c : ascii) : bool :=
  between 65 90 (code c)
  || (between 192 222 (code c) && negb (code c =? 215)%nat).

Definition lower_char (c : ascii) : ascii :=
  if is_upper c then ascii_of_nat (code c + 32) else c.

(** [s.toLowerCase()] *)
Fixpoint toLowerCase (s : string) : string :=
  match s with
  | EmptyString => EmptyString
  | String c s' => String (lower_char c) (toLowerCase s')
  end.

(** [s.startsWith(t)] *)
Fixpoint startsWith (s t : string) : bool :=
  match t, s with
  | EmptyString, _ => true
  | String _ _, EmptyString => false
  | String d t', String c s' => Ascii.eqb c d && startsWith s' t'
  end.

(** [s.includes(t)] *)
Fixpoint includes (s t : string) : bool :=
  startsWith s t
  || match s with
     | EmptyString => false
     | String _ s' => includes s' t
     end.

(** The class [\s]: TAB, LF, VT, FF, CR, SPACE and NBSP. *)
Definition is_space (c : ascii) : bool :=
  between 9 13 (code c) || (code c =? 32)%nat || (code c =? 160)%nat.

(** The class [\w]: [A-Za-z0-9_]. *)
Definition is_word (c : ascii) : bool :=
  between 97 122 (code c) || between 65 90 (code c)
  || between 48 57 (code c) || (code c =? 95)%nat.

(** The class [\d]. *)
Definition is_digit (c : ascii) : bool := between 48 57 (code c).

(** LF and CR, the line terminators [.] does not match. *)
Definition is_line_terminator (c : ascii) : bool :=
  (code c =? 10)%nat || (code c =? 13)%nat.

Fixpoint rev_append (acc s : string) : string :=
  match acc with
  | EmptyString => s
  | String c acc' => rev_append acc' (String c s)
  end.

(** [s.split(/\s+/)]: the pieces between the maximal runs of white space.
    [cur] is the piece being read, last character first; [in_run] tells
    that the previous character was white space. A string that begins or
    ends with white space gets an empty first or last piece; the empty
    string gives one empty piece. *)
Fixpoint split_go (s cur : string) (in_run : bool) : list string :=
  match s with
  | EmptyString => [rev_append cur ""]
  | String c s' =>
      if is_space c then
        if in_run then split_go s' "" true
        else rev_append cur "" :: split_go s' "" true
      else split_go s' (String c cur) false
  end.

Definition split_ws (s : string) : list string := split_go s "" false.

End JsString.

(* ================================================================= *)
(** ** The regular-expression built-ins, on a fragment *)

Module RegExp.
Import JsString.

Inductive charset : Type :=
| CsChar (c : ascii)            (* a pattern character, or an identity escape *)
| CsAny                         (* [.] *)
| CsDigit (positive : bool)     (* [\d], [\D] *)
| CsWord (positive : bool)      (* [\w], [\W] *)
| CsSpace (positive : bool).    (* [\s], [\S] *)

Inductive assertion : Type :=
| AStart                        (* [^] *)
| AEnd                          (* [$] *)
| AWordB                        (* [\b] *)
| ANotWordB.                    (* [\B] *)

Inductive quantifier : Type :=
| QOne                          (* no quantifier *)
| QStar                         (* [*], [*?] *)
| QPlus                         (* [+], [+?] *)
| QOpt.                         (* [?], [??] *)

Inductive term : Type :=
| TAssert (a : assertion)
| TAtom (cs : charset) (q : quantifier).

Definition alternative : Type := list term.

(** A pattern is a disjunction of alternatives. *)
Definition pattern : Type := list alternative.

Inductive parsed : Type :=
| Parsed (p : pattern)
| SyntaxError                   (* the constructor throws *)
| Outside.                      (* the pattern is not in the fragment *)

(** The fourteen syntax characters of the pattern grammar. *)
Definition is_syntax_char (c : ascii) : bool :=
  existsb (Ascii.eqb c)
    ["^"; "$"; "\"; "."; "*"; "+"; "?"; "("; ")"; "["; "]"; "{"; "}"; "|"]%char.

(** What the parser has just read. *)
Inductive mode : Type :=
| Fresh                         (* nothing a quantifier could apply to *)
| Pending (cs : charset)        (* an atom, not yet followed by anything *)
| Quantified                    (* an atom and its quantifier *)
| Escape.                       (* a backslash *)

Definition flush (m : mode) (cur : list term) : list term :=
  match m with
  | Pending cs => TAtom cs QOne :: cur
  | _ => cur
  end.

Inductive step_result : Type :=
| Continue (done : list alternative) (cur : list term) (m : mode)
| Stop (r : parsed).

(** The character after a backslash. *)
Definition escape_step (done : list alternative) (cur : list term)
    (c : ascii) : step_result :=
  if Ascii.eqb c "b" then Continue done (TAssert AWordB :: cur) Fresh
  else if Ascii.eqb c "B" then Continue done (TAssert ANotWordB :: cur) Fresh
  else if Ascii.eqb c "d" then Continue done cur (Pending (CsDigit true))
  else if Ascii.eqb c "D" then Continue done cur (Pending (CsDigit false))
  else if Ascii.eqb c "w" then Continue done cur (Pending (CsWord true))
  else if Ascii.eqb c "W" then Continue done cur (Pending (CsWord false))
  else if Ascii.eqb c "s" then Continue done cur (Pending (CsSpace true))
  else if Ascii.eqb c "S" then Continue done cur (Pending (CsSpace false))
  else if Ascii.eqb c "t" then Continue done cur (Pending (CsChar (ascii_of_nat 9)))
  else if Ascii.eqb c "n" then Continue done cur (Pending (CsChar (ascii_of_nat 10)))
  else if Ascii.eqb c "v" then Continue done cur (Pending (CsChar (ascii_of_nat 11)))
  else if Ascii.eqb c "f" then Continue done cur (Pending (CsChar (ascii_of_nat 12)))
  else if Ascii.eqb c "r" then Continue done cur (Pending (CsChar (ascii_of_nat 13)))
  else if existsb (Ascii.eqb c) ["c"; "x"; "u"; "k"]%char || is_digit c
  then Stop Outside
  else Continue done cur (Pending (CsChar c)).

Definition quantifier_of (c : ascii) : option quantifier :=
  if Ascii.eqb c "*" then Some QStar
  else if Ascii.eqb c "+" then Some QPlus
  else if Ascii.eqb c "?" then Some QOpt
  else None.

(** One character of the pattern source. *)
Definition step (done : list alternative) (cur : list term) (m : mode)
    (c : ascii) : step_result :=
  match m with
  | Escape => escape_step done cur c
  | _ =>
      match quantifier_of c with
      | Some q =>
          match m with
          | Pending cs => Continue done (TAtom cs q :: cur) Quantified
          | Quantified =>
              if Ascii.eqb c "?" then Continue done cur Fresh
              else Stop SyntaxError          (* nothing to repeat *)
          | _ => Stop SyntaxError            (* nothing to repeat *)
          end
      | None =>
          let cur := flush m cur in
          if Ascii.eqb c "\" then Continue done cur Escape
          else if Ascii.eqb c "." then Continue done cur (Pending CsAny)
          else if Ascii.eqb c "^" then Continue done (TAssert AStart :: cur) Fresh
          else if Ascii.eqb c "$" then Continue done (TAssert AEnd :: cur) Fresh
          else if Ascii.eqb c "|" then Continue (rev cur :: done) [] Fresh
          else if is_syntax_char c then Stop Outside   (* groups, classes, braces *)
          else Continue done cur (Pending (CsChar c))
      end
  end.

Fixpoint parse_from (done : list alternative) (cur : list term) (m : mode)
    (src : string) : parsed :=
  match src with
  | EmptyString =>
      match m with
      | Escape => SyntaxError                (* \ at end of pattern *)
      | _ => Parsed (rev (rev (flush m cur) :: done))
      end
  | String c src' =>
      match step done cur m c with
      | Continue done' cur' m' => parse_from done' cur' m' src'
      | Stop r => r
      end
  end.

(** [new RegExp(src)], without flags. *)
Definition parse (src : string) : parsed := parse_from [] [] Fresh src.

Definition accepts (cs : charset) (c : ascii) : bool :=
  match cs with
  | CsChar d => Ascii.eqb c d
  | CsAny => negb (is_line_terminator c)
  | CsDigit p => Bool.eqb (is_digit c) p
  | CsWord p => Bool.eqb (is_word c) p
  | CsSpace p => Bool.eqb (is_space c) p
  end.

Definition word_before (prev : option ascii) : bool :=
  match prev with Some c => is_word c | None => false end.

Definition word_after (s : string) : bool :=
  match s with String c _ => is_word c | EmptyString => false end.

(** A position in the subject is the character before it ([None] at the
    start) and the rest of the subject. *)
Definition holds (a : assertion) (prev : option ascii) (s : string) : bool :=
  match a with
  | AStart => match prev with None => true | Some _ => false end
  | AEnd => match s with EmptyString => true | String _ _ => false end
  | AWordB => xorb (word_before prev) (word_after s)
  | ANotWordB => negb (xorb (word_before prev) (word_after s))
  end.

(** Zero or more characters of [cs], then the continuation [k]. *)
Fixpoint star (cs : charset) (k : option ascii -> string -> bool)
    (prev : option ascii) (s : string) : bool :=
  k prev s
  || match s with
     | EmptyString => false
     | String c s' => accepts cs c && star cs k (Some c) s'
     end.

Definition one (cs : charset) (k : option ascii -> string -> bool)
    (s : string) : bool :=
  match s with
  | EmptyString => false
  | String c s' => accepts cs c && k (Some c) s'
  end.

(** Is there a match of the alternative that begins at this position?
    The handler only asks whether a match exists, which does not depend
    on the greedy or lazy order in which the candidates are tried. *)
Fixpoint match_here (ts : alternative) (prev : option ascii) (s : string)
    : bool :=
  match ts with
  | [] => true
  | TAssert a :: ts' => holds a prev s && match_here ts' prev s
  | TAtom cs q :: ts' =>
      match q with
      | QOne => one cs (match_here ts') s
      | QOpt => match_here ts' prev s || one cs (match_here ts') s
      | QStar => star cs (match_here ts') prev s
      | QPlus => one cs (star cs (match_here ts')) s
      end
  end.

(** The match may begin at any position of the subject. *)
Fixpoint match_from (p : pattern) (prev : option ascii) (s : string) : bool :=
  existsb (fun ts => match_here ts prev s) p
  || match s with
     | EmptyString => false
     | String c s' => match_from p (Some c) s'
     end.

Inductive test_result : Type :=
| Match (found : bool)          (* [subject.match(re)] is an array, or null *)
| Throws                        (* SyntaxError from the constructor *)
| Unmodelled.

(** [subject.match(new RegExp(src))], as a truth value. *)
Definition test (src subject : string) : test_result :=
  match parse src with
  | Parsed p => Match (match_from p None subject)
  | SyntaxError => Throws
  | Outside => Unmodelled
  end.

End RegExp.

(* ================================================================= *)
(** ** Computations without a normal value *)

Inductive why : Type :=
| PatternOutsideFragment        (* a pattern the [RegExp] model does not cover *)
| FuelExhausted.                (* the pagination loop outran its budget *)

Inductive completion (A : Type) : Type :=
| Normal (a : A)
| Throw                         (* an exception propagates *)
| NoAnswer (w : why).

Arguments Normal {A} a.
Arguments Throw {A}.
Arguments NoAnswer {A} w.

Definition bind {A B : Type} (c : completion A) (k : A -> completion B)
    : completion B :=
  match c with
  | Normal a => k a
  | Throw => Throw
  | NoAnswer w => NoAnswer w
  end.

Notation "x <- c ;; k" := (bind c (fun x => k))
  (at level 61, c at next level, right associativity).

(** [xs.map(f)], where [f] may throw: the elements are visited in order and
    the first one without a normal value ends the traversal. *)
Fixpoint map_in_order {A B : Type} (f : A -> completion B) (xs : list A)
    : completion (list B) :=
  match xs with
  | [] => Normal []
  | x :: xs' =>
      y <- f x ;;
      ys <- map_in_order f xs' ;;
      Normal (y :: ys)
  end.

(* ================================================================= *)
(** ** [Array.prototype.sort] with a comparison function *)

Section Sort.
Variable A : Type.
(** [compareFn a b]: negative when [a] goes first, positive when [b] does. *)
Variable compareFn : A -> A -> Z.

(** [x] stood before every element of [l] in the array. *)
Fixpoint insert (x : A) (l : list A) : list A :=
  match l with
  | [] => [x]
  | y :: l' =>
      if (compareFn x y <=? 0)%Z then x :: y :: l' else y :: insert x l'
  end.

(** The sort is stable (ECMAScript 2019): elements that compare equal keep
    their order. *)
Fixpoint sort (l : list A) : list A :=
  match l with
  | [] => []
  | x :: l' => insert x (sort l')
  end.
End Sort.

Arguments insert {A} compareFn x l.
Arguments sort {A} compareFn l.

(* ================================================================= *)
(** ** The handler of [GET /faq/search] *)

Module Faq.
Import JsString.

(** An article of the help center, as the listing returns it. A field
    that is [null] or missing is [None]. *)
Record article : Type := mkArticle {
  id : Z;
  title : option string;
  body : option string;
  html_url : option string
}.

(** [v || ''] *)
Definition or_empty (v : option string) : string :=
  match v with
  | Some s => s
  | None => ""
  end.

(** [v || []] *)
Definition or_nil {A : Type} (v : option (list A)) : list A :=
  match v with
  | Some l => l
  | None => []
  end.

(** A string or [null] as a condition: true for a non-empty string. *)
Definition truthy (v : option string) : bool :=
  match v with
  | Some (String _ _) => true
  | _ => false
  end.

(** *** The content source *)

(** The body of a listing response. *)
Record page : Type := mkPage {
  articles : option (list article);
  next_page : option string
}.

Inductive fetch_result : Type :=
| NetworkError                  (* [fetch] rejects *)
| Response (ok : bool) (status : nat) (data : option page).
    (* [data] is [None] when [response.json()] rejects *)

Definition source : Type := string -> fetch_result.

Inductive event : Type :=
| Requested (url : string)
| ConsoleError (message : string) (status : option nat).

(** [process.env.ZENDESK_B2B_SUBDOMAIN || 'pdi-happibean-b2b'] *)
Definition ZENDESK_B2B_SUBDOMAIN (env : option string) : string :=
  if truthy env then or_empty env else "pdi-happibean-b2b".

Definition ZENDESK_B2B_URL (env : option string) : string :=
  "https://" ++ ZENDESK_B2B_SUBDOMAIN env ++ ".zendesk.com".

(** The first value of [nextPage]. *)
Definition first_page (env : option string) : string :=
  ZENDESK_B2B_URL env ++ "/api/v2/help_center/en-gb/articles.json?per_page=100".

(** The loop [while (nextPage) { ... }]. [fuel] bounds the number of
    requests; the trace lists the requests and the console output. *)
Fixpoint load (fuel : nat) (fetch : source) (nextPage : option string)
    (allArticles : list article) : completion (list article) * list event :=
  match nextPage with
  | Some (String c u) =>
      let url := String c u in
      match fuel with
      | O => (NoAnswer FuelExhausted, [])
      | S fuel' =>
          match fetch url with
          | NetworkError => (Throw, [Requested url])
          | Response ok status data =>
              if negb ok then
                (Normal allArticles,
                 [Requested url;
                  ConsoleError "Zendesk articles fetch error:" (Some status)])
              else
                match data with
                | None => (Throw, [Requested url])
                | Some d =>
                    let (r, tr) :=
                      load fuel' fetch (next_page d)
                        (allArticles ++ or_nil (articles d))%list in
                    (r, Requested url :: tr)
                end
          end
      end
  | _ => (Normal allArticles, [])
  end.

(** *** Tokens *)

(** [query.toLowerCase().split(/\s+/).filter(term => term.length > 0)] *)
Definition searchTerms (query : string) : list string :=
  filter (fun term => (0 <? String.length term)%nat)
         (split_ws (toLowerCase query)).

(** *** Scoring one article *)

Record scored : Type := mkScored {
  item_article : article;
  score : Z;
  allTermsMatch : bool
}.

(** The [for (const term of searchTerms)] loop; [score] is the running
    total. The second component is [allTermsMatch]. *)
Fixpoint score_loop (title body : string) (terms : list string) (score : Z)
    : completion (Z * bool) :=
  match terms with
  | [] => Normal (score, true)
  | term :: rest =>
      let titleMatch := includes title term in
      let bodyMatch := includes body term in
      if negb titleMatch && negb bodyMatch then Normal (score, false)
      else
        let score := if titleMatch then (score + 10)%Z else score in
        let score := if bodyMatch then (score + 1)%Z else score in
        match RegExp.test ("\b" ++ term ++ "\b") title with
        | RegExp.Match found =>
            score_loop title body rest
              (if found then (score + 5)%Z else score)
        | RegExp.Throws => Throw
        | RegExp.Unmodelled => NoAnswer PatternOutsideFragment
        end
  end.

(** The callback of the first [map]. *)
Definition score_article (terms : list string) (a : article)
    : completion scored :=
  let title := toLowerCase (or_empty (title a)) in
  let body := toLowerCase (or_empty (body a)) in
  r <- score_loop title body terms 0%Z ;;
  Normal (mkScored a (fst r) (snd r)).

(** *** Ranking and projection *)

(** [(a, b) => b.score - a.score] *)
Definition by_score_desc (a b : scored) : Z := (score b - score a)%Z.

(** [.filter(item => item.allTermsMatch).sort(...).slice(0, 10)] *)
Definition ranked (items : list scored) : list scored :=
  firstn 10 (sort by_score_desc (filter allTermsMatch items)).

(** An element of [results] in the response. *)
Record result : Type := mkResult {
  r_id : Z;
  r_title : option string;
  r_body : option string;
  r_html_url : option string
}.

(** The callback of the last [map]. *)
Definition project (item : scored) : result :=
  let a := item_article item in
  mkResult (id a) (title a) (Some (or_empty (body a))) (html_url a).

(** The chain that computes [scoredResults]. *)
Definition scoredResults (terms : list string) (allArticles : list article)
    : completion (list result) :=
  items <- map_in_order (score_article terms) allArticles ;;
  Normal (map project (ranked items)).

(** *** Responses *)

Inductive payload : Type :=
| ErrorBody (error : string)
| SearchBody (results : list result) (count : nat).

Record response : Type := mkResponse {
  status : nat;
  json : payload
}.

Definition quote : string := String (ascii_of_nat 34) "".

Definition bad_request : response :=
  mkResponse 400
    (ErrorBody ("Query parameter " ++ quote ++ "q" ++ quote ++ " is required")).

Definition internal_error : response :=
  mkResponse 500 (ErrorBody "Internal server error").

(** [req.query.q] *)
Inductive query_value : Type :=
| QAbsent                       (* [undefined] *)
| QString (s : string)
| QNotString.                   (* an array or an object of the query parser *)

(** The part of the handler after the pagination loop. *)
Definition search_articles (query : string) (allArticles : list article)
    : completion response :=
  results <- scoredResults (searchTerms query) allArticles ;;
  Normal (mkResponse 200 (SearchBody results (List.length results))).

(** [try { ... } catch (error) { ... }]: an exception is written to the
    console and answered with 500. *)
Definition try_catch (r : completion response) (tr : list event)
    : completion response * list event :=
  match r with
  | Throw =>
      (Normal internal_error,
       (tr ++ [ConsoleError "FAQ search error:" None])%list)
  | _ => (r, tr)
  end.

(** The handler: the response, and the trace of requests and console
    output. *)
Definition faq_search (fuel : nat) (env : option string) (fetch : source)
    (q : query_value) : completion response * list event :=
  match q with
  | QString (String c s) =>
      let query := String c s in
      let (loaded, tr) := load fuel fetch (Some (first_page env)) [] in
      try_catch (allArticles <- loaded ;; search_articles query allArticles)
                tr
  | _ => (Normal bad_request, [])
  end.

End Faq.

(* ================================================================= *)
(** ** The words of the specification *)

Module Spec.
Import JsString Faq.

(** The token hits the article: it is a substring of the lowercased title
    or of the lowercased body. *)
Definition hits (title body token : string) : bool :=
  includes title token || includes body token.

Definition lower_title (a : article) : string :=
  toLowerCase (or_empty (title a)).

Definition lower_body (a : article) : string :=
  toLowerCase (or_empty (body a)).

Definition all_hit (terms : list string) (a : article) : Prop :=
  forall t, In t terms -> hits (lower_title a) (lower_body a) t = true.

(** Is the character at index [i] a word character? Outside the string
    there is none. *)
Definition word_at (s : string) (i : nat) : bool :=
  match String.get i s with
  | Some c => is_word c
  | None => false
  end.

(** A word boundary lies before index [i]: exactly one of the characters
    at [i - 1] and at [i] is a word character. *)
Definition word_boundary (s : string) (i : nat) : bool :=
  xorb (match i with O => false | S j => word_at s j end) (word_at s i).

(** The token, read literally, stands at index [i]. *)
Definition occurs_at (s token : string) (i : nat) : bool :=
  String.eqb (String.substring i (String.length token) s) token.

(** The token occurs as a whole word: literally, with a word boundary
    before its first and after its last character. *)
Definition whole_word_in (s token : string) : bool :=
  existsb
    (fun i => occurs_at s token i
              && word_boundary s i
              && word_boundary s (i + String.length token))
    (seq 0 (S (String.length s))).

(** What one token adds to the score. *)
Definition term_points (title body token : string) : Z :=
  ((if includes title token then 10 else 0)
   + (if includes body token then 1 else 0)
   + (if whole_word_in title token then 5 else 0))%Z.

(** The sum over the tokens, in sequence order. *)
Definition claimed_score (title body : string) (terms : list string) : Z :=
  fold_left (fun acc t => (acc + term_points title body t)%Z) terms 0%Z.

(** A token in which no character is a syntax character of patterns. *)
Definition literal_token (token : string) : bool :=
  forallb (fun c => negb (RegExp.is_syntax_char c))
          (list_ascii_of_string token).

(** The pattern of a token read literally: a word boundary, the
    characters of the token, a word boundary. *)
Definition word_pattern (token : string) : RegExp.alternative :=
  (RegExp.TAssert RegExp.AWordB
   :: map (fun c => RegExp.TAtom (RegExp.CsChar c) RegExp.QOne)
          (list_ascii_of_string token)
   ++ [RegExp.TAssert RegExp.AWordB])%list.

(** The last character of [pre], or [prev] when [pre] is empty. *)
Fixpoint last_char (pre : string) (prev : option ascii) : option ascii :=
  match pre with
  | EmptyString => prev
  | String c pre' => last_char pre' (Some c)
  end.

(** Every character of the query is white space. *)
Definition blank (query : string) : bool :=
  forallb is_space (list_ascii_of_string query).

(** Position [i] of the corpus holds the article of [c], and [c] is what
    the scorer returns for it. *)
Definition scored_at (terms : list string) (allArticles : list article)
    (i : nat) (c : scored) : Prop :=
  nth_error allArticles i = Some (item_article c)
  /\ score_article terms (item_article c) = Normal c.

(** The order of the results: higher score first, and for equal scores
    the article met first in the corpus. *)
Definition precedes (x y : nat * scored) : Prop :=
  (score (snd x) > score (snd y))%Z
  \/ (score (snd x) = score (snd y) /\ fst x < fst y).

(** The comparison of the handler, on candidates that carry their
    position in the corpus. *)
Definition by_score_desc_tagged (x y : nat * scored) : Z :=
  by_score_desc (snd x) (snd y).

(** The source answers [url] with the first of [pages], each page names
    the address of the next one, and the last page names none. *)
Fixpoint serves (fetch : source) (url : string) (pages : list page) : Prop :=
  match pages with
  | [] => False
  | p :: rest =>
      (exists st, fetch url = Response true st (Some p))
      /\ match rest with
         | [] => next_page p = None
         | _ :: _ =>
             exists u, next_page p = Some u /\ truthy (Some u) = true
                       /\ serves fetch u rest
         end
  end.

(** The source answers [url] with the first of [pages], each page names
    the address of the next one, and the request after the last page is
    answered with the non-success status [st]. *)
Fixpoint serves_then_fails (fetch : source) (url : string)
    (pages : list page) (st : nat) : Prop :=
  match pages with
  | [] => exists d, fetch url = Response false st d
  | p :: rest =>
      (exists st', fetch url = Response true st' (Some p))
      /\ exists u, next_page p = Some u /\ truthy (Some u) = true
                   /\ serves_then_fails fetch u rest st
  end.

(** The addresses requested along a chain of pages that starts at [url]. *)
Fixpoint locators (url : string) (pages : list page) : list string :=
  match pages with
  | [] => []
  | p :: rest => url :: locators (or_empty (next_page p)) rest
  end.

(** The address requested after the last page of such a chain. *)
Fixpoint last_locator (url : string) (pages : list page) : string :=
  match pages with
  | [] => url
  | p :: rest => last_locator (or_empty (next_page p)) rest
  end.

(** The documents of the pages, in page order. *)
Definition documents (pages : list page) : list article :=
  List.concat (map (fun p => or_nil (articles p)) pages).

End Spec.

(* ================================================================= *)
(** ** Inputs used to exercise the statements *)

Module Examples.
Import JsString Faq.

Definition reset_password : article :=
  mkArticle 1 (Some "Reset your password") (Some "...") (Some "/articles/1").

Definition billing_faq : article :=
  mkArticle 2 (Some "Billing FAQ")
    (Some "password reset instructions here") None.

Definition billing_copy : article :=
  mkArticle 5 (Some "Billing FAQ")
    (Some "password reset instructions here") None.

Definition cpp_tips : article :=
  mkArticle 3 (Some "C++ tips") None (Some "/articles/3").

Definition dot_article : article :=
  mkArticle 4 (Some "a") (Some ".") None.

(** A source with one page. *)
Definition one_page (arts : list article) : source :=
  fun url =>
    if String.eqb url (first_page None)
    then Response true 200 (Some (mkPage (Some arts) None))
    else Response false 404 None.

Definition numbered (from n : nat) : list article :=
  map (fun i => mkArticle (Z.of_nat i) (Some "Article") None None)
      (seq from n).

Definition page1 : page := mkPage (Some (numbered 0 100)) (Some "page-2").
Definition page2 : page := mkPage (Some (numbered 100 100)) (Some "page-3").
Definition page3 : page := mkPage (Some (numbered 200 7)) None.

(** Three pages of 100, 100 and 7 articles. *)
Definition three_pages : source :=
  fun url =>
    if String.eqb url (first_page None) then Response true 200 (Some page1)
    else if String.eqb url "page-2" then Response true 200 (Some page2)
    else if String.eqb url "page-3" then Response true 200 (Some page3)
    else Response false 404 None.

(** Two pages, and a third request that is answered with 503. *)
Definition third_page_fails : source :=
  fun url =>
    if String.eqb url (first_page None) then Response true 200 (Some page1)
    else if String.eqb url "page-2" then Response true 200 (Some page2)
    else Response false 503 None.

Definition password_results : list result :=
  [ mkResult 1 (Some "Reset your password") (Some "...")
      (Some "/articles/1");
    mkResult 2 (Some "Billing FAQ")
      (Some "password reset instructions here") None ].

End Examples.

(* ================================================================= *)
(** ** More words for the behaviour of the search *)

Module Behaviour.
Import JsString Faq.

(** The string without its white-space characters. *)
Fixpoint without_spaces (s : string) : string :=
  match s with
  | EmptyString => EmptyString
  | String c s' =>
      if is_space c then without_spaces s' else String c (without_spaces s')
  end.

(** The source answers [url] with the first of [pages], each page names the
    address of the next one, and the request after the last page either
    rejects or is answered with a success status and a body that is not
    JSON. *)
Fixpoint serves_then_throws (fetch : source) (url : string)
    (pages : list page) : Prop :=
  match pages with
  | [] =>
      fetch url = NetworkError
      \/ exists st, fetch url = Response true st None
  | p :: rest =>
      (exists st, fetch url = Response true st (Some p))
      /\ exists u, next_page p = Some u /\ truthy (Some u) = true
                   /\ serves_then_throws fetch u rest
  end.

(** The title contains every token; the title contains none of them. *)
Definition title_has_all (terms : list string) (a : article) : Prop :=
  forall t, In t terms ->
            includes (toLowerCase (or_empty (title a))) t = true.

Definition title_has_none (terms : list string) (a : article) : Prop :=
  forall t, In t terms ->
            includes (toLowerCase (or_empty (title a))) t = false.

End Behaviour.

Module MoreExamples.
Import JsString Faq.

(** One page, then a request that rejects. *)
Definition second_page_rejects : source :=
  fun url =>
    if String.eqb url (first_page None)
    then Response true 200 (Some Examples.page1)
    else NetworkError.

(** One page with a title that holds [c++]; the request for the next page
    is answered with 503. *)
Definition cpp_page : page :=
  mkPage (Some [Examples.billing_faq; Examples.cpp_tips]) (Some "page-2").

Definition cpp_page_then_fails : source :=
  fun url =>
    if String.eqb url (first_page None)
    then Response true 200 (Some cpp_page)
    else Response false 503 None.

End MoreExamples.

(* ================================================================= *)
(** ** JSON values, as the pass-through handlers see them *)

Module Json.

(** A value read from a JSON document, or [undefined]. Numbers are the
    integral ones. An object lists its properties, each key once. *)
#[warnings="-register-all"] Inductive value : Type :=
| VUndefined
| VNull
| VBool (b : bool)
| VNum (n : Z)
| VStr (s : string)
| VArr (items : list value)
| VObj (fields : list (string * value)).

(** The value as a condition. *)
Definition truthy (v : value) : bool :=
  match v with
  | VUndefined | VNull => false
  | VBool b => b
  | VNum n => negb (n =? 0)%Z
  | VStr s => negb (String.eqb s "")
  | VArr _ | VObj _ => true
  end.

(** [a || b] *)
Definition or_else (a b : value) : value := if truthy a then a else b.

(** [Array.isArray(v)] *)
Definition is_array (v : value) : bool :=
  match v with
  | VArr _ => true
  | _ => false
  end.

Fixpoint lookup (key : string) (fields : list (string * value)) : value :=
  match fields with
  | [] => VUndefined
  | (k, v) :: rest => if String.eqb k key then v else lookup key rest
  end.

(** A computation on values returns, throws a TypeError, or leaves the part
    of the language that is modelled. *)
Inductive outcome (A : Type) : Type :=
| Ok (a : A)
| Raise
| Unmodelled.

Arguments Ok {A} a.
Arguments Raise {A}.
Arguments Unmodelled {A}.

Definition and_then {A B : Type} (o : outcome A) (k : A -> outcome B)
    : outcome B :=
  match o with
  | Ok a => k a
  | Raise => Raise
  | Unmodelled => Unmodelled
  end.

Notation "x <~ o ;; k" := (and_then o (fun x => k))
  (at level 61, o at next level, right associativity).

(** [v.key], for the property names the handlers read; none of them is an
    inherited member of objects, arrays or strings. Reading a property of
    [null] or [undefined] throws. *)
Definition get (v : value) (key : string) : outcome value :=
  match v with
  | VUndefined | VNull => Raise
  | VObj fields => Ok (lookup key fields)
  | _ => Ok VUndefined
  end.

(** [v?.key] *)
Definition get_opt (v : value) (key : string) : outcome value :=
  match v with
  | VUndefined | VNull => Ok VUndefined
  | _ => get v key
  end.

(** The callback is applied to the elements in order; the first exception
    ends the traversal. *)
Fixpoint traverse {A B : Type} (f : A -> outcome B) (xs : list A)
    : outcome (list B) :=
  match xs with
  | [] => Ok []
  | x :: xs' =>
      y <~ f x ;;
      ys <~ traverse f xs' ;;
      Ok (y :: ys)
  end.

Fixpoint select (f : value -> outcome bool) (xs : list value)
    : outcome (list value) :=
  match xs with
  | [] => Ok []
  | x :: xs' =>
      keep <~ f x ;;
      ys <~ select f xs' ;;
      Ok (if keep then x :: ys else ys)
  end.

(** [v?.map(f)]: [undefined] for [null] and [undefined], the mapped array
    for an array; anything else has no [map] to call. *)
Definition opt_map (f : value -> outcome value) (v : value) : outcome value :=
  match v with
  | VUndefined | VNull => Ok VUndefined
  | VArr items => ys <~ traverse f items ;; Ok (VArr ys)
  | _ => Raise
  end.

(** [v?.filter(f)] *)
Definition opt_filter (f : value -> outcome bool) (v : value)
    : outcome value :=
  match v with
  | VUndefined | VNull => Ok VUndefined
  | VArr items => ys <~ select f items ;; Ok (VArr ys)
  | _ => Raise
  end.

(** The comparison of [Array.prototype.includes]. The two sides come from
    two different documents, so an array or an object on one side is never
    the same object as one on the other. *)
Definition same_value_zero (a b : value) : bool :=
  match a, b with
  | VUndefined, VUndefined => true
  | VNull, VNull => true
  | VBool x, VBool y => Bool.eqb x y
  | VNum x, VNum y => (x =? y)%Z
  | VStr x, VStr y => String.eqb x y
  | _, _ => false
  end.

(** [haystack.includes(needle)], for a haystack that is not [null] or
    [undefined]. On a string it is the substring test of the needle's text,
    which is not modelled. *)
Definition includes (haystack needle : value) : outcome bool :=
  match haystack with
  | VArr items => Ok (existsb (same_value_zero needle) items)
  | VStr _ => Unmodelled
  | _ => Raise
  end.

(** [{ k1: v.k1, k2: v.k2, ... }] *)
Definition pick (names : list string) (v : value) : outcome value :=
  fields <~ traverse (fun k => x <~ get v k ;; Ok (k, x)) names ;;
  Ok (VObj fields).

(** [s.split('@')[0]]: the part before the first [@]. *)
Fixpoint before_at (s : string) : string :=
  match s with
  | EmptyString => EmptyString
  | String c s' => if Ascii.eqb c "@" then EmptyString
                   else String c (before_at s')
  end.

End Json.

(* ================================================================= *)
(** ** [Buffer.from(s).toString('base64')] *)

Module Base64.
Import JsString.

(** The UTF-8 bytes of a string of code units below U+0100. *)
Fixpoint utf8 (s : string) : list nat :=
  match s with
  | EmptyString => []
  | String c s' =>
      if (code c <? 128)%nat then code c :: utf8 s'
      else (192 + code c / 64) :: (128 + code c mod 64) :: utf8 s'
  end.

(** The character of a 6-bit digit. *)
Definition digit (n : nat) : ascii :=
  if (n <? 26)%nat then ascii_of_nat (65 + n)
  else if (n <? 52)%nat then ascii_of_nat (97 + (n - 26))
  else if (n <? 62)%nat then ascii_of_nat (48 + (n - 52))
  else if (n =? 62)%nat then "+"%char
  else "/"%char.

Fixpoint encode (bytes : list nat) : string :=
  match bytes with
  | [] => ""
  | [a] =>
      String (digit (a / 4)) (String (digit (a mod 4 * 16)) "==")
  | [a; b] =>
      String (digit (a / 4))
        (String (digit (a mod 4 * 16 + b / 16))
           (String (digit (b mod 16 * 4)) "="))
  | a :: b :: c :: rest =>
      String (digit (a / 4))
        (String (digit (a mod 4 * 16 + b / 16))
           (String (digit (b mod 16 * 4 + c / 64))
              (String (digit (c mod 64)) (encode rest))))
  end.

(** Reading the text back. *)
Definition digit_value (c : ascii) : option nat :=
  let n := code c in
  if between 65 90 n then Some (n - 65)
  else if between 97 122 n then Some (n - 97 + 26)
  else if between 48 57 n then Some (n - 48 + 52)
  else if (n =? 43)%nat then Some 62
  else if (n =? 47)%nat then Some 63
  else None.

Fixpoint decode (s : string) : option (list nat) :=
  match s with
  | EmptyString => Some []
  | String c1 (String c2 (String c3 (String c4 rest))) =>
      match digit_value c1, digit_value c2 with
      | Some d1, Some d2 =>
          let b1 := d1 * 4 + d2 / 16 in
          if Ascii.eqb c3 "=" then
            if Ascii.eqb c4 "=" then
              match rest with EmptyString => Some [b1] | _ => None end
            else None
          else
            match digit_value c3 with
            | Some d3 =>
                let b2 := d2 mod 16 * 16 + d3 / 4 in
                if Ascii.eqb c4 "=" then
                  match rest with
                  | EmptyString => Some [b1; b2]
                  | _ => None
                  end
                else
                  match digit_value c4, decode rest with
                  | Some d4, Some bytes =>
                      Some (b1 :: b2 :: (d3 mod 4 * 64 + d4) :: bytes)
                  | _, _ => None
                  end
            | None => None
            end
      | _, _ => None
      end
  | _ => None
  end.

Fixpoint utf8_decode (bytes : list nat) : option string :=
  match bytes with
  | [] => Some ""
  | b :: rest =>
      if (b <? 128)%nat then
        option_map (String (ascii_of_nat b)) (utf8_decode rest)
      else
        match rest with
        | b' :: rest' =>
            if between 194 195 b && between 128 191 b' then
              option_map (String (ascii_of_nat ((b - 192) * 64 + (b' - 128))))
                         (utf8_decode rest')
            else None
        | [] => None
        end
  end.

End Base64.
(* ================================================================= *)
(** ** The pass-through handlers and the request submission *)

Module Api.
Import Json.

(** [process.env] *)
Record env : Type := mkEnv {
  env_ZENDESK_SUBDOMAIN : option string;
  env_ZENDESK_EMAIL : option string;
  env_ZENDESK_API_TOKEN : option string;
  env_ZENDESK_B2B_SUBDOMAIN : option string
}.

(** A variable in a template literal: the text [undefined] when unset. *)
Definition template (v : option string) : string :=
  match v with
  | Some s => s
  | None => "undefined"
  end.

Definition ZENDESK_BASE_URL (e : env) : string :=
  "https://" ++ template (env_ZENDESK_SUBDOMAIN e) ++ ".zendesk.com".

Definition ZENDESK_B2B_URL (e : env) : string :=
  Faq.ZENDESK_B2B_URL (env_ZENDESK_B2B_SUBDOMAIN e).

(** The text that is encoded in the header. *)
Definition credentials (e : env) : string :=
  template (env_ZENDESK_EMAIL e) ++ "/token:"
  ++ template (env_ZENDESK_API_TOKEN e).

Definition getAuthHeader (e : env) : string :=
  "Basic " ++ Base64.encode (Base64.utf8 (credentials e)).

(** *** Requests to Zendesk *)

(** What [fetch] is called with. [headers] is the value of Authorization;
    Content-Type [application/json] is sent whenever it is. [body] is the
    value that is serialised into the request body. *)
Record request : Type := mkRequest {
  method : string;
  url : string;
  headers : option string;
  body : option value
}.

(** [fetch(url)] *)
Definition get_public (url : string) : request :=
  mkRequest "GET" url None None.

(** [fetch(url, { headers })] *)
Definition get_private (e : env) (url : string) : request :=
  mkRequest "GET" url (Some (getAuthHeader e)) None.

(** What comes back: the promise rejects, or there is a response with a
    status and a body, which is JSON or not. *)
Inductive answer : Type :=
| Rejects
| Responds (status : nat) (data : option value).

Definition upstream : Type := request -> answer.

(** [response.ok] *)
Definition ok (status : nat) : bool :=
  ((200 <=? status) && (status <=? 299))%nat.

Inductive effect : Type :=
| Fetched (r : request)
| Logged (message : string).

(** What the handler sends to its client: the status and the value handed
    to [res.json], before it is serialised. *)
Record reply : Type := mkReply {
  code : nat;
  payload : value
}.

(** [{ error: message }] *)
Definition error (message : string) : value :=
  VObj [("error", VStr message)].

(** *** Handlers as computations with a trace *)

Definition io (A : Type) : Type := list effect -> outcome A * list effect.

Definition ret {A : Type} (a : A) : io A := fun tr => (Ok a, tr).

Definition seq_io {A B : Type} (m : io A) (k : A -> io B) : io B :=
  fun tr =>
    match m tr with
    | (Ok a, tr') => k a tr'
    | (Raise, tr') => (Raise, tr')
    | (Unmodelled, tr') => (Unmodelled, tr')
    end.

Notation "x <- m ;;; k" := (seq_io m (fun x => k))
  (at level 61, m at next level, right associativity).

Definition lift {A : Type} (o : outcome A) : io A := fun tr => (o, tr).

(** [await fetch(...)]: the status and the body of the response. *)
Definition fetch (up : upstream) (r : request) : io (nat * option value) :=
  fun tr =>
    match up r with
    | Rejects => (Raise, (tr ++ [Fetched r])%list)
    | Responds st data => (Ok (st, data), (tr ++ [Fetched r])%list)
    end.

(** [await response.json()] *)
Definition json (data : option value) : io value :=
  lift (match data with
        | Some v => Ok v
        | None => Raise
        end).

(** [console.error(message, ...)] *)
Definition log (message : string) : io unit :=
  fun tr => (Ok tt, (tr ++ [Logged message])%list).

(** [try { ... } catch (error) { console.error(label, error);
    res.status(500).json({ error: 'Internal server error' }) }] *)
Definition try_catch (label : string) (m : io reply) : io reply :=
  fun tr =>
    match m tr with
    | (Raise, tr') =>
        (Ok (mkReply 500 (error "Internal server error")),
         (tr' ++ [Logged label])%list)
    | r => r
    end.

(** The handler is run with an empty trace. *)
Definition run {A : Type} (m : io A) : outcome A * list effect := m [].

(** *** Listings *)

(** The common shape of the four listing handlers: one request; a failure
    status is passed on with a fixed message; otherwise the array under
    [key] of the Zendesk document is mapped with [view], [[]] stands in for
    a missing one, and the result is sent as the property [name]. *)
Definition listing (label : string) (r : request) (key name : string)
    (view : value -> outcome value) (failure : string) (up : upstream)
    : io reply :=
  try_catch label
    (response <- fetch up r ;;;
     if negb (ok (fst response)) then
       ret (mkReply (fst response) (error failure))
     else
       data <- json (snd response) ;;;
       listed <- lift (get data key) ;;;
       mapped <- lift (opt_map view listed) ;;;
       ret (mkReply 200 (VObj [(name, or_else mapped (VArr []))]))).

(** [GET /help-center/categories] *)
Definition categories (e : env) : upstream -> io reply :=
  listing "Categories fetch error:"
    (get_public
       (ZENDESK_B2B_URL e ++ "/api/v2/help_center/en-gb/categories.json"))
    "categories" "categories"
    (pick ["id"; "name"; "description"; "html_url"])
    "Could not fetch categories".

(** [GET /help-center/categories/:categoryId/sections] *)
Definition sections (e : env) (categoryId : string) : upstream -> io reply :=
  listing "Sections fetch error:"
    (get_public
       (ZENDESK_B2B_URL e ++ "/api/v2/help_center/en-gb/categories/"
        ++ categoryId ++ "/sections.json"))
    "sections" "sections"
    (pick ["id"; "name"; "description"; "html_url"; "category_id"])
    "Could not fetch sections".

(** [GET /help-center/sections/:sectionId/articles] *)
Definition articles (e : env) (sectionId : string) : upstream -> io reply :=
  listing "Articles fetch error:"
    (get_public
       (ZENDESK_B2B_URL e ++ "/api/v2/help_center/en-gb/sections/"
        ++ sectionId ++ "/articles.json"))
    "articles" "articles"
    (pick ["id"; "title"; "body"; "html_url"; "section_id"])
    "Could not fetch articles".

(** [GET /ticket-forms]: the array is read from [ticket_forms] and sent as
    [forms]. *)
Definition ticket_forms (e : env) : upstream -> io reply :=
  listing "Ticket forms fetch error:"
    (get_private e
       (ZENDESK_BASE_URL e
        ++ "/api/v2/ticket_forms.json?active=true&end_user_visible=true"))
    "ticket_forms" "forms"
    (pick ["id"; "name"; "display_name"; "active"; "default";
           "ticket_field_ids"])
    "Could not fetch ticket forms".

(** *** Single items *)

(** The common shape of the three single-item handlers: the object under
    [key] is reduced to [names], and [null] stands in for a missing one. *)
Definition single (label : string) (r : request) (key : string)
    (names : list string) (failure : string) (up : upstream) : io reply :=
  try_catch label
    (response <- fetch up r ;;;
     if negb (ok (fst response)) then
       ret (mkReply (fst response) (error failure))
     else
       data <- json (snd response) ;;;
       item <- lift (get data key) ;;;
       if truthy item then
         view <- lift (pick names item) ;;;
         ret (mkReply 200 (VObj [(key, view)]))
       else ret (mkReply 200 (VObj [(key, VNull)]))).

(** [GET /help-center/sections/:sectionId] *)
Definition section (e : env) (sectionId : string) : upstream -> io reply :=
  single "Section fetch error:"
    (get_public
       (ZENDESK_B2B_URL e ++ "/api/v2/help_center/en-gb/sections/"
        ++ sectionId ++ ".json"))
    "section" ["id"; "name"; "description"; "html_url"; "category_id"]
    "Could not fetch section".

(** [GET /help-center/categories/:categoryId] *)
Definition category (e : env) (categoryId : string) : upstream -> io reply :=
  single "Category fetch error:"
    (get_public
       (ZENDESK_B2B_URL e ++ "/api/v2/help_center/en-gb/categories/"
        ++ categoryId ++ ".json"))
    "category" ["id"; "name"; "description"; "html_url"]
    "Could not fetch category".

(** [GET /help-center/articles/:articleId] *)
Definition article (e : env) (articleId : string) : upstream -> io reply :=
  single "Article fetch error:"
    (get_public
       (ZENDESK_B2B_URL e ++ "/api/v2/help_center/en-gb/articles/"
        ++ articleId ++ ".json"))
    "article" ["id"; "title"; "body"; "html_url"; "section_id"]
    "Could not fetch article".

(** *** A ticket form with its fields *)

(** [form.ticket_field_ids?.includes(f.id) && f.visible_in_portal], as the
    condition of the filter. *)
Definition selected (form f : value) : outcome bool :=
  ids <~ get form "ticket_field_ids" ;;
  match ids with
  | VUndefined | VNull => Ok false
  | _ =>
      id <~ get f "id" ;;
      found <~ includes ids id ;;
      if found then
        visible <~ get f "visible_in_portal" ;;
        Ok (truthy visible)
      else Ok false
  end.

(** The callback of the [map] over the fields. *)
Definition field_view (f : value) : outcome value :=
  id <~ get f "id" ;;
  type <~ get f "type" ;;
  title <~ get f "title" ;;
  description <~ get f "description" ;;
  required <~ get f "required_in_portal" ;;
  custom <~ get f "custom_field_options" ;;
  options <~ (if truthy custom then Ok custom
              else system <~ get f "system_field_options" ;;
                   Ok (or_else system (VArr []))) ;;
  Ok (VObj [("id", id); ("type", type); ("title", title);
            ("description", description); ("required", required);
            ("options", options)]).

Definition form_request (e : env) (formId : string) : request :=
  get_private e
    (ZENDESK_BASE_URL e ++ "/api/v2/ticket_forms/" ++ formId ++ ".json").

Definition fields_request (e : env) : request :=
  get_private e (ZENDESK_BASE_URL e ++ "/api/v2/ticket_fields.json").

(** [GET /ticket-forms/:formId] *)
Definition ticket_form (e : env) (formId : string) (up : upstream)
    : io reply :=
  try_catch "Ticket form fetch error:"
    (formResponse <- fetch up (form_request e formId) ;;;
     if negb (ok (fst formResponse)) then
       ret (mkReply (fst formResponse) (error "Could not fetch ticket form"))
     else
       formData <- json (snd formResponse) ;;;
       form <- lift (get formData "ticket_form") ;;;
       fieldsResponse <- fetch up (fields_request e) ;;;
       fields <- (if ok (fst fieldsResponse) then
                    fieldsData <- json (snd fieldsResponse) ;;;
                    listed <- lift (get fieldsData "ticket_fields") ;;;
                    kept <- lift (opt_filter (selected form) listed) ;;;
                    mapped <- lift (opt_map field_view kept) ;;;
                    ret (or_else mapped (VArr []))
                  else ret (VArr [])) ;;;
       conds <- lift (get form "end_user_conditions") ;;;
       id <- lift (get form "id") ;;;
       name <- lift (get form "name") ;;;
       display_name <- lift (get form "display_name") ;;;
       ret (mkReply 200
              (VObj [("form", VObj [("id", id); ("name", name);
                                    ("display_name", display_name)]);
                     ("fields", fields);
                     ("conditions", or_else conds (VArr []))]))).

(** *** Creating a support request *)

(** [email.split('@')[0]] *)
Definition local_part (email : value) : outcome value :=
  match email with
  | VStr s => Ok (VStr (before_at s))
  | _ => Raise
  end.

(** [tags]: the fixed tag, and the category when there is one. *)
Definition tags_of (category : value) : list value :=
  VStr "support-widget" :: (if truthy category then [category] else []).

(** [zendeskPayload], with the two optional properties added last. *)
Definition zendeskPayload (name email subject message category
    ticket_form_id custom_fields : value) : value :=
  VObj [("request",
         VObj ([("requester", VObj [("name", name); ("email", email)]);
                ("subject", subject);
                ("comment", VObj [("body", message)]);
                ("tags", VArr (tags_of category))]
               ++ (if truthy ticket_form_id
                   then [("ticket_form_id", ticket_form_id)] else [])
               ++ (if truthy custom_fields && is_array custom_fields
                   then [("custom_fields", custom_fields)] else []))%list)].

Definition create_call (e : env) (payload : value) : request :=
  mkRequest "POST" (ZENDESK_BASE_URL e ++ "/api/v2/requests.json")
    (Some (getAuthHeader e)) (Some payload).

(** [POST /requests], for the parsed request body [req_body]. *)
Definition create_request (e : env) (req_body : value) (up : upstream)
    : io reply :=
  try_catch "Request creation error:"
    (name <- lift (get req_body "name") ;;;
     email <- lift (get req_body "email") ;;;
     subject <- lift (get req_body "subject") ;;;
     message <- lift (get req_body "message") ;;;
     category <- lift (get req_body "category") ;;;
     ticket_form_id <- lift (get req_body "ticket_form_id") ;;;
     custom_fields <- lift (get req_body "custom_fields") ;;;
     if negb (truthy email) || negb (truthy subject)
        || negb (truthy message) then
       ret (mkReply 400
              (error "Missing required fields: email, subject, message"))
     else if negb (Faq.truthy (env_ZENDESK_SUBDOMAIN e))
             || negb (Faq.truthy (env_ZENDESK_API_TOKEN e)) then
       ret (mkReply 500 (error "Zendesk not configured"))
     else
       requester <- lift (if truthy name then Ok name
                          else local_part email) ;;;
       response <- fetch up
                     (create_call e
                        (zendeskPayload requester email subject message
                           category ticket_form_id custom_fields)) ;;;
       if negb (ok (fst response)) then
         _ <- log "Zendesk request creation error:" ;;;
         if (fst response =? 422)%nat then
           ret (mkReply 422 (error "Invalid request data"))
         else ret (mkReply (fst response) (error "Could not create request"))
       else
         data <- json (snd response) ;;;
         created <- lift (get data "request") ;;;
         request_id <- lift (get_opt created "id") ;;;
         ret (mkReply 201
                (VObj [("success", VBool true);
                       ("request_id", request_id);
                       ("message", VStr "Request created successfully")]))).

End Api.

(* ================================================================= *)
(** ** Words for the behaviour of the pass-through handlers *)

Module ApiSpec.
Import Json Api.

(** The value is [null] or [undefined]. *)
Definition nullish (v : value) : bool :=
  match v with
  | VUndefined | VNull => true
  | _ => false
  end.

(** The property of a value that is not [null] or [undefined]. *)
Definition property (v : value) (key : string) : value :=
  match v with
  | VObj fields => lookup key fields
  | _ => VUndefined
  end.

(** The object that has exactly the properties [names], with the values
    they have in [v]. *)
Definition restrict (names : list string) (v : value) : value :=
  VObj (map (fun k => (k, property v k)) names).

(** The handlers of the public help center, each with the request it makes
    and its failure message. [id] is the identifier in the path. *)
Definition public_handlers (e : env) (id : string)
    : list (request * string * (upstream -> io reply)) :=
  [ (get_public
       (ZENDESK_B2B_URL e ++ "/api/v2/help_center/en-gb/categories.json"),
     "Could not fetch categories", categories e);
    (get_public
       (ZENDESK_B2B_URL e ++ "/api/v2/help_center/en-gb/categories/"
        ++ id ++ "/sections.json"),
     "Could not fetch sections", sections e id);
    (get_public
       (ZENDESK_B2B_URL e ++ "/api/v2/help_center/en-gb/sections/"
        ++ id ++ "/articles.json"),
     "Could not fetch articles", articles e id);
    (get_public
       (ZENDESK_B2B_URL e ++ "/api/v2/help_center/en-gb/sections/"
        ++ id ++ ".json"),
     "Could not fetch section", section e id);
    (get_public
       (ZENDESK_B2B_URL e ++ "/api/v2/help_center/en-gb/categories/"
        ++ id ++ ".json"),
     "Could not fetch category", category e id);
    (get_public
       (ZENDESK_B2B_URL e ++ "/api/v2/help_center/en-gb/articles/"
        ++ id ++ ".json"),
     "Could not fetch article", article e id) ].

(** The two handlers that read ticket forms, with their first request. *)
Definition form_handlers (e : env) (id : string)
    : list (request * string * (upstream -> io reply)) :=
  [ (get_private e
       (ZENDESK_BASE_URL e
        ++ "/api/v2/ticket_forms.json?active=true&end_user_visible=true"),
     "Could not fetch ticket forms", ticket_forms e);
    (form_request e id, "Could not fetch ticket form", ticket_form e id) ].

(** The listing handlers: the request, the key of the array in the Zendesk
    document, the property names that are kept, and the handler. *)
Definition listings (e : env) (id : string)
    : list (request * string * list string * (upstream -> io reply)) :=
  [ (get_public
       (ZENDESK_B2B_URL e ++ "/api/v2/help_center/en-gb/categories.json"),
     "categories", ["id"; "name"; "description"; "html_url"],
     categories e);
    (get_public
       (ZENDESK_B2B_URL e ++ "/api/v2/help_center/en-gb/categories/"
        ++ id ++ "/sections.json"),
     "sections", ["id"; "name"; "description"; "html_url"; "category_id"],
     sections e id);
    (get_public
       (ZENDESK_B2B_URL e ++ "/api/v2/help_center/en-gb/sections/"
        ++ id ++ "/articles.json"),
     "articles", ["id"; "title"; "body"; "html_url"; "section_id"],
     articles e id);
    (get_private e
       (ZENDESK_BASE_URL e
        ++ "/api/v2/ticket_forms.json?active=true&end_user_visible=true"),
     "ticket_forms",
     ["id"; "name"; "display_name"; "active"; "default";
      "ticket_field_ids"],
     ticket_forms e) ].

(** The listing handlers once more, with the property of the reply that
    holds the array after the key it is read from: the two differ for the
    ticket forms. *)
Definition listing_replies (e : env) (id : string)
    : list (request * string * string * list string
            * (upstream -> io reply)) :=
  [ (get_public
       (ZENDESK_B2B_URL e ++ "/api/v2/help_center/en-gb/categories.json"),
     "categories", "categories", ["id"; "name"; "description"; "html_url"],
     categories e);
    (get_public
       (ZENDESK_B2B_URL e ++ "/api/v2/help_center/en-gb/categories/"
        ++ id ++ "/sections.json"),
     "sections", "sections",
     ["id"; "name"; "description"; "html_url"; "category_id"],
     sections e id);
    (get_public
       (ZENDESK_B2B_URL e ++ "/api/v2/help_center/en-gb/sections/"
        ++ id ++ "/articles.json"),
     "articles", "articles",
     ["id"; "title"; "body"; "html_url"; "section_id"],
     articles e id);
    (get_private e
       (ZENDESK_BASE_URL e
        ++ "/api/v2/ticket_forms.json?active=true&end_user_visible=true"),
     "ticket_forms", "forms",
     ["id"; "name"; "display_name"; "active"; "default";
      "ticket_field_ids"],
     ticket_forms e) ].

(** The single-item handlers, in the same way. *)
Definition singles (e : env) (id : string)
    : list (request * string * list string * (upstream -> io reply)) :=
  [ (get_public
       (ZENDESK_B2B_URL e ++ "/api/v2/help_center/en-gb/sections/"
        ++ id ++ ".json"),
     "section", ["id"; "name"; "description"; "html_url"; "category_id"],
     section e id);
    (get_public
       (ZENDESK_B2B_URL e ++ "/api/v2/help_center/en-gb/categories/"
        ++ id ++ ".json"),
     "category", ["id"; "name"; "description"; "html_url"],
     category e id);
    (get_public
       (ZENDESK_B2B_URL e ++ "/api/v2/help_center/en-gb/articles/"
        ++ id ++ ".json"),
     "article", ["id"; "title"; "body"; "html_url"; "section_id"],
     article e id) ].

(** The field is one of the form's and is visible in the portal. *)
Definition shown (ids : list value) (f : value) : bool :=
  existsb (same_value_zero (property f "id")) ids
  && truthy (property f "visible_in_portal").

(** The options of a field: its custom options if that property is truthy,
    else its system options if that one is, else none. *)
Definition options_of (f : value) : value :=
  if truthy (property f "custom_field_options")
  then property f "custom_field_options"
  else if truthy (property f "system_field_options")
       then property f "system_field_options"
       else VArr [].

(** A field as the client gets it. *)
Definition shown_field (f : value) : value :=
  VObj [("id", property f "id"); ("type", property f "type");
        ("title", property f "title");
        ("description", property f "description");
        ("required", property f "required_in_portal");
        ("options", options_of f)].

(** Whatever the trace was before, the computation only adds to it, and
    every request it adds satisfies [P]. *)
Definition only_fetches {A : Type} (P : request -> Prop) (m : io A) : Prop :=
  forall tr,
    exists added,
      snd (m tr) = (tr ++ added)%list
      /\ forall r, In (Fetched r) added -> P r.

(** The request carries the credentials and goes to the account's host. *)
Definition to_account (e : env) (r : request) : Prop :=
  headers r = Some (getAuthHeader e)
  /\ JsString.startsWith (url r) (ZENDESK_BASE_URL e) = true.

(** The string has no [@]. *)
Definition no_at (s : string) : bool :=
  forallb (fun c => negb (Ascii.eqb c "@")) (list_ascii_of_string s).

(** Every byte is below 256. *)
Definition bytes (l : list nat) : Prop := Forall (fun b => b < 256) l.

End ApiSpec.

Module ApiExamples.
Import Json Api.

Definition configured : env :=
  mkEnv (Some "acme") (Some "support@acme.test") (Some "s3cret") None.

Definition unconfigured : env := mkEnv None None None None.

(** Every request is answered with the same status and body. *)
Definition always (status : nat) (data : option value) : upstream :=
  fun _ => Responds status data.

Definition two_categories : value :=
  VObj [("categories",
         VArr [VObj [("id", VNum 1); ("name", VStr "Billing");
                     ("position", VNum 3); ("html_url", VStr "/c/1")];
               VObj [("id", VNum 2); ("name", VStr "Accounts");
                     ("outdated", VBool false)]]);
        ("count", VNum 2)].

Definition two_categories_view : value :=
  VObj [("categories",
         VArr [VObj [("id", VNum 1); ("name", VStr "Billing");
                     ("description", VUndefined);
                     ("html_url", VStr "/c/1")];
               VObj [("id", VNum 2); ("name", VStr "Accounts");
                     ("description", VUndefined);
                     ("html_url", VUndefined)]])].

Definition one_form : value :=
  VObj [("ticket_forms",
         VArr [VObj [("id", VNum 7); ("name", VStr "Contact");
                     ("position", VNum 1); ("active", VBool true);
                     ("ticket_field_ids", VArr [VNum 11; VNum 12])]]);
        ("count", VNum 1)].

Definition one_form_view : value :=
  VObj [("forms",
         VArr [VObj [("id", VNum 7); ("name", VStr "Contact");
                     ("display_name", VUndefined); ("active", VBool true);
                     ("default", VUndefined);
                     ("ticket_field_ids", VArr [VNum 11; VNum 12])]])].

Definition contact_form : value :=
  VObj [("ticket_form",
         VObj [("id", VNum 7); ("name", VStr "Contact");
               ("display_name", VStr "Contact us");
               ("ticket_field_ids", VArr [VNum 11; VNum 12; VNum 13])])].

Definition all_fields : value :=
  VObj [("ticket_fields",
         VArr [VObj [("id", VNum 11); ("type", VStr "subject");
                     ("title", VStr "Subject");
                     ("visible_in_portal", VBool true);
                     ("required_in_portal", VBool true)];
               VObj [("id", VNum 12); ("type", VStr "tagger");
                     ("title", VStr "Internal");
                     ("visible_in_portal", VBool false)];
               VObj [("id", VNum 99); ("type", VStr "text");
                     ("title", VStr "Other form");
                     ("visible_in_portal", VBool true)];
               VObj [("id", VNum 13); ("type", VStr "tagger");
                     ("title", VStr "Topic");
                     ("visible_in_portal", VBool true);
                     ("custom_field_options", VArr []);
                     ("system_field_options", VArr [VStr "x"])]])].

(** The form is served; every other request gets [fields_status]. *)
Definition form_source (fields_status : nat) (fields : option value)
    : upstream :=
  fun r =>
    if String.eqb (url r) (url (form_request configured "7"))
    then Responds 200 (Some contact_form)
    else Responds fields_status fields.

Definition contact_request : value :=
  VObj [("email", VStr "ann@example.org"); ("subject", VStr "Help");
        ("message", VStr "It does not work"); ("category", VStr "billing")].

(** The POST that [contact_request] causes. *)
Definition contact_call : request :=
  mkRequest "POST" "https://acme.zendesk.com/api/v2/requests.json"
    (Some (getAuthHeader configured))
    (Some
       (VObj [("request",
               VObj [("requester",
                      VObj [("name", VStr "ann");
                            ("email", VStr "ann@example.org")]);
                     ("subject", VStr "Help");
                     ("comment", VObj [("body", VStr "It does not work")]);
                     ("tags",
                      VArr [VStr "support-widget"; VStr "billing"])])])).

End ApiExamples.

(* ================================================================= *)
(** ** Proofs *)

Import JsString Faq Spec.

(** *** Traversals *)

Lemma map_in_order_Forall2 :
  forall (A B : Type) (f : A -> completion B) xs ys,
    map_in_order f xs = Normal ys ->
    Forall2 (fun x y => f x = Normal y) xs ys.
Proof.
  intros A B f xs; induction xs as [|x xs IH]; simpl; intros ys H.
  - injection H as <-. constructor.
  - destruct (f x) as [y| |w] eqn:Hx; simpl in H; try discriminate.
    destruct (map_in_order f xs) as [ys'| |w] eqn:Hxs; simpl in H;
      try discriminate.
    injection H as <-. constructor; auto.
Qed.

Lemma Forall2_map_in_order :
  forall (A B : Type) (f : A -> completion B) xs ys,
    Forall2 (fun x y => f x = Normal y) xs ys ->
    map_in_order f xs = Normal ys.
Proof.
  induction 1 as [|x y xs ys Hx _ IH]; simpl; auto.
  rewrite Hx, IH. reflexivity.
Qed.

Lemma score_article_inv :
  forall terms a c,
    score_article terms a = Normal c ->
    item_article c = a
    /\ score_loop (lower_title a) (lower_body a) terms 0
       = Normal (score c, allTermsMatch c).
Proof.
  unfold score_article, lower_title, lower_body; intros terms a c H.
  destruct (score_loop _ _ terms 0%Z) as [[s m]| |w]; simpl in H;
    try discriminate.
  injection H as <-. simpl. auto.
Qed.

Lemma scored_items_articles :
  forall terms allArticles items,
    map_in_order (score_article terms) allArticles = Normal items ->
    map item_article items = allArticles.
Proof.
  intros terms allArticles items H.
  apply map_in_order_Forall2 in H.
  induction H as [|a c arts items Hc _ IH]; simpl; auto.
  apply score_article_inv in Hc. destruct Hc as [-> _]. now rewrite IH.
Qed.

(** *** The sort *)

Section SortFacts.
Variable A : Type.
Variable compareFn : A -> A -> Z.

Lemma insert_In :
  forall x y l, In y (insert compareFn x l) <-> y = x \/ In y l.
Proof.
  intros x y l; induction l as [|z l IH]; simpl.
  - intuition auto.
  - destruct (compareFn x z <=? 0)%Z; simpl; rewrite ?IH; intuition auto.
Qed.

Lemma sort_In : forall y l, In y (sort compareFn l) <-> In y l.
Proof.
  intros y l; induction l as [|x l IH]; simpl.
  - tauto.
  - rewrite insert_In, IH. intuition auto.
Qed.

Lemma insert_length :
  forall x l, List.length (insert compareFn x l) = S (List.length l).
Proof.
  intros x l; induction l as [|z l IH]; simpl; auto.
  destruct (compareFn x z <=? 0)%Z; simpl; auto.
Qed.

Lemma sort_length :
  forall l, List.length (sort compareFn l) = List.length l.
Proof.
  induction l as [|x l IH]; simpl; auto.
  now rewrite insert_length, IH.
Qed.

Lemma insert_Forall :
  forall (P : A -> Prop) x l,
    P x -> Forall P l -> Forall P (insert compareFn x l).
Proof.
  intros P x l Hx Hl. apply Forall_forall. intros y Hy.
  apply insert_In in Hy. destruct Hy as [->|Hy]; auto.
  rewrite Forall_forall in Hl. auto.
Qed.

(** Elements that all compare equal are left as they are. *)
Lemma sort_all_equal :
  forall l,
    (forall x y, In x l -> In y l -> compareFn x y = 0%Z) ->
    sort compareFn l = l.
Proof.
  induction l as [|x l IH]; simpl; intros H; auto.
  rewrite IH by (intros; apply H; auto).
  destruct l as [|y l]; simpl; auto.
  rewrite (H x y); simpl; auto.
Qed.
End SortFacts.

(** Sorting commutes with a map that respects the comparison. *)
Lemma sort_map :
  forall (A B : Type) (f : B -> A) (cmpA : A -> A -> Z) (cmpB : B -> B -> Z),
    (forall x y, cmpB x y = cmpA (f x) (f y)) ->
    forall l, map f (sort cmpB l) = sort cmpA (map f l).
Proof.
  intros A B f cmpA cmpB Hc.
  assert (Hins : forall x l,
             map f (insert cmpB x l) = insert cmpA (f x) (map f l)).
  { intros x l; induction l as [|y l IH]; simpl; auto.
    rewrite Hc. destruct (cmpA (f x) (f y) <=? 0)%Z; simpl; auto.
    now rewrite IH. }
  induction l as [|x l IH]; simpl; auto.
  now rewrite Hins, IH.
Qed.

(** *** What a successful response tells *)

Lemma In_firstn :
  forall (A : Type) n (l : list A) x, In x (firstn n l) -> In x l.
Proof.
  intros A n l x H. rewrite <- (firstn_skipn n l).
  apply in_or_app. now left.
Qed.

Lemma ranked_incl :
  forall items c,
    In c (ranked items) -> In c items /\ allTermsMatch c = true.
Proof.
  unfold ranked; intros items c H.
  apply In_firstn in H. apply sort_In in H. apply filter_In in H. exact H.
Qed.

Lemma faq_search_search_body :
  forall fuel env fetch q st results count,
    fst (faq_search fuel env fetch q)
    = Normal (mkResponse st (SearchBody results count)) ->
    exists query allArticles items,
      q = QString query /\ query <> ""
      /\ fst (load fuel fetch (Some (first_page env)) []) = Normal allArticles
      /\ map_in_order (score_article (searchTerms query)) allArticles
         = Normal items
      /\ results = map project (ranked items)
      /\ count = List.length results /\ st = 200.
Proof.
  intros fuel env fetch q st results count H.
  destruct q as [|[|c s]|]; try discriminate H.
  unfold faq_search in H.
  destruct (load fuel fetch (Some (first_page env)) []) as [loaded tr] eqn:Hl.
  destruct loaded as [allArticles| |w]; simpl in H; try discriminate H.
  unfold try_catch, search_articles, scoredResults in H.
  destruct (map_in_order _ allArticles) as [items| |w] eqn:Hs; simpl in H;
    try discriminate H.
  injection H as <- <- <-.
  exists (String c s), allArticles, items.
  repeat split; auto. discriminate.
Qed.

(** *** The scoring loop *)

Lemma score_loop_step :
  forall title body term rest s,
    hits title body term = true ->
    score_loop title body (term :: rest) s
    = match RegExp.test ("\b" ++ term ++ "\b") title with
      | RegExp.Match found =>
          score_loop title body rest
            (let s1 := if includes title term then (s + 10)%Z else s in
             let s2 := if includes body term then (s1 + 1)%Z else s1 in
             if found then (s2 + 5)%Z else s2)
      | RegExp.Throws => Throw
      | RegExp.Unmodelled => NoAnswer PatternOutsideFragment
      end.
Proof.
  unfold hits; intros title body term rest s H. simpl.
  destruct (includes title term), (includes body term); simpl in *;
    try discriminate; reflexivity.
Qed.

Lemma score_loop_miss :
  forall title body term rest s,
    hits title body term = false ->
    score_loop title body (term :: rest) s = Normal (s, false).
Proof.
  unfold hits; intros title body term rest s H. simpl.
  destruct (includes title term), (includes body term); simpl in *;
    try discriminate; reflexivity.
Qed.

(** A loop that ends with [allTermsMatch] still true has seen every token
    hit. *)
Lemma score_loop_true :
  forall title body terms s s',
    score_loop title body terms s = Normal (s', true) ->
    forall t, In t terms -> hits title body t = true.
Proof.
  intros title body terms; induction terms as [|u rest IH];
    intros s s' H t Ht.
  - destruct Ht.
  - destruct (hits title body u) eqn:Hu.
    + rewrite score_loop_step in H by assumption.
      destruct (RegExp.test _ title) as [found| |]; try discriminate.
      destruct Ht as [<-|Ht]; eauto.
    + rewrite score_loop_miss in H by assumption. discriminate.
Qed.

(** A loop that ends with [allTermsMatch] false stopped at the first token
    that does not hit, with the score of the tokens before it. *)
Lemma score_loop_false :
  forall title body terms s s',
    score_loop title body terms s = Normal (s', false) ->
    exists pre u post,
      terms = (pre ++ u :: post)%list
      /\ hits title body u = false
      /\ score_loop title body pre s = Normal (s', true).
Proof.
  intros title body terms; induction terms as [|u rest IH]; intros s s' H.
  - discriminate.
  - destruct (hits title body u) eqn:Hu.
    + rewrite score_loop_step in H by assumption.
      destruct (RegExp.test _ title) as [found| |] eqn:Ht; try discriminate.
      apply IH in H. destruct H as (pre & v & post & -> & Hv & Hpre).
      exists (u :: pre), v, post. repeat split; auto.
      rewrite score_loop_step, Ht by assumption. exact Hpre.
    + rewrite score_loop_miss in H by assumption. injection H as <-.
      exists [], u, rest. repeat split; auto.
Qed.

(** The tokens after a prefix that matched are scored from the total the
    prefix reached. *)
Lemma score_loop_app :
  forall title body pre rest s s',
    score_loop title body pre s = Normal (s', true) ->
    score_loop title body (pre ++ rest) s = score_loop title body rest s'.
Proof.
  intros title body pre; induction pre as [|u pre IH]; intros rest s s' H.
  - injection H as <-. reflexivity.
  - assert (Hu : hits title body u = true)
      by (eapply score_loop_true; [exact H | now left]).
    simpl app. rewrite score_loop_step in * by assumption.
    destruct (RegExp.test _ title) as [found| |]; try discriminate.
    now apply IH.
Qed.

Lemma score_article_matched :
  forall terms a c,
    score_article terms a = Normal c ->
    allTermsMatch c = true -> all_hit terms a.
Proof.
  intros terms a c H Hm. apply score_article_inv in H.
  destruct H as [_ H]. rewrite Hm in H.
  intros t Ht. eapply score_loop_true; eauto.
Qed.

Lemma ranked_none :
  forall items,
    (forall c, In c items -> allTermsMatch c = false) -> ranked items = [].
Proof.
  intros items H. unfold ranked.
  replace (filter allTermsMatch items) with (@nil scored); [reflexivity|].
  symmetry. induction items as [|c items IH]; simpl; auto.
  rewrite (H c) by now left. apply IH. intros; apply H; now right.
Qed.

Lemma In_items_article :
  forall terms allArticles items c,
    map_in_order (score_article terms) allArticles = Normal items ->
    In c items ->
    In (item_article c) allArticles
    /\ score_article terms (item_article c) = Normal c.
Proof.
  intros terms allArticles items c H Hc.
  apply map_in_order_Forall2 in H.
  induction H as [|a d arts items Hd _ IH]; simpl in *; [tauto|].
  destruct Hc as [->|Hc].
  - pose proof (score_article_inv _ _ _ Hd) as [Ha _].
    rewrite Ha. auto.
  - destruct (IH Hc); auto.
Qed.

(** *** Tokens without syntax characters *)

(** **** The pattern of a token without syntax characters *)

Lemma step_literal :
  forall done cur m c,
    RegExp.is_syntax_char c = false ->
    m <> RegExp.Escape ->
    RegExp.step done cur m c
    = RegExp.Continue done (RegExp.flush m cur)
        (RegExp.Pending (RegExp.CsChar c)).
Proof.
  intros done cur m c Hc Hm.
  destruct m; try congruence;
    destruct c as [[] [] [] [] [] [] [] []];
    try discriminate Hc; reflexivity.
Qed.

Lemma parse_from_literal :
  forall t done cur m rest,
    literal_token t = true ->
    m <> RegExp.Escape ->
    exists cur' m',
      m' <> RegExp.Escape
      /\ RegExp.flush m' cur'
         = (rev (map (fun c => RegExp.TAtom (RegExp.CsChar c) RegExp.QOne)
                     (list_ascii_of_string t))
            ++ RegExp.flush m cur)%list
      /\ RegExp.parse_from done cur m (t ++ rest)
         = RegExp.parse_from done cur' m' rest.
Proof.
  induction t as [|c t IH]; intros done cur m rest Ht Hm.
  - exists cur, m. auto.
  - unfold literal_token in Ht. simpl in Ht.
    apply andb_prop in Ht. destruct Ht as [Hc Ht].
    apply negb_true_iff in Hc.
    destruct (IH done (RegExp.flush m cur)
                (RegExp.Pending (RegExp.CsChar c)) rest Ht)
      as (cur' & m' & Hm' & Hflush & Hparse); [discriminate|].
    exists cur', m'. split; [exact Hm'|]. split.
    + rewrite Hflush. simpl. rewrite <- app_assoc. reflexivity.
    + simpl. rewrite step_literal by assumption. exact Hparse.
Qed.

Lemma parse_word_pattern :
  forall t,
    literal_token t = true ->
    RegExp.parse ("\b" ++ t ++ "\b") = RegExp.Parsed [word_pattern t].
Proof.
  intros t Ht. unfold RegExp.parse.
  change ("\b" ++ t ++ "\b") with (String "\" (String "b" (t ++ "\b"))).
  change (RegExp.parse_from [] [] RegExp.Fresh
            (String "\" (String "b" (t ++ "\b"))))
    with (RegExp.parse_from [] [RegExp.TAssert RegExp.AWordB] RegExp.Fresh
            (t ++ "\b")).
  destruct (parse_from_literal t [] [RegExp.TAssert RegExp.AWordB]
              RegExp.Fresh "\b" Ht)
    as (cur' & m' & Hm' & Hflush & ->); [discriminate|].
  assert (Hend : RegExp.parse_from [] cur' m' "\b"
                 = RegExp.Parsed
                     [rev (RegExp.TAssert RegExp.AWordB
                           :: RegExp.flush m' cur')]).
  { destruct m'; try congruence; reflexivity. }
  rewrite Hend, Hflush. unfold word_pattern. simpl.
  rewrite rev_app_distr, rev_involutive. reflexivity.
Qed.

(** **** Matching the pattern of a literal token *)

Lemma match_here_literal :
  forall t prev s,
    RegExp.match_here
      (map (fun c => RegExp.TAtom (RegExp.CsChar c) RegExp.QOne)
           (list_ascii_of_string t)
       ++ [RegExp.TAssert RegExp.AWordB])%list prev s = true
    <-> exists rest,
          s = t ++ rest
          /\ xorb (RegExp.word_before (last_char t prev))
                  (RegExp.word_after rest) = true.
Proof.
  induction t as [|c t IH]; intros prev s.
  - simpl. rewrite andb_true_r. split.
    + intros H. exists s. auto.
    + intros (rest & -> & H). exact H.
  - simpl. destruct s as [|d s]; simpl.
    + split; [discriminate|]. intros (rest & H & _). discriminate.
    + rewrite andb_true_iff, IH, Ascii.eqb_eq. split.
      * intros [-> (rest & -> & H)]. eauto.
      * intros (rest & Hs & H). injection Hs as -> ->. eauto.
Qed.

Lemma match_from_split :
  forall p s prev,
    RegExp.match_from p prev s = true
    <-> exists pre rest,
          s = pre ++ rest
          /\ existsb (fun ts => RegExp.match_here ts (last_char pre prev) rest)
                     p = true.
Proof.
  intros p s; induction s as [|c s IH]; intros prev; simpl.
  - rewrite orb_false_r. split.
    + intros H. exists "", "". auto.
    + intros (pre & rest & Hs & H).
      destruct pre; [|discriminate]. simpl in Hs. subst rest. exact H.
  - rewrite orb_true_iff, IH. split.
    + intros [H|(pre & rest & -> & H)].
      * exists "", (String c s). auto.
      * exists (String c pre), rest. auto.
    + intros (pre & rest & Hs & H). destruct pre as [|d pre]; simpl in *.
      * subst rest. now left.
      * injection Hs as -> ->. right. eauto.
Qed.

(** **** Positions in a string *)

Lemma word_at_after :
  forall pre rest,
    word_at (pre ++ rest) (String.length pre) = RegExp.word_after rest.
Proof.
  unfold word_at. induction pre as [|c pre IH]; intros rest; simpl; auto.
  destruct rest; reflexivity.
Qed.

Lemma last_char_app :
  forall pre t prev,
    last_char (pre ++ t) prev = last_char t (last_char pre prev).
Proof.
  induction pre as [|c pre IH]; intros t prev; simpl; auto.
Qed.

Lemma word_at_before :
  forall pre rest c,
    word_at (String c (pre ++ rest)) (String.length pre)
    = RegExp.word_before (last_char pre (Some c)).
Proof.
  induction pre as [|d pre IH]; intros rest c.
  - reflexivity.
  - specialize (IH rest d). unfold word_at in *. simpl in *. exact IH.
Qed.

Lemma word_boundary_split :
  forall pre rest,
    word_boundary (pre ++ rest) (String.length pre)
    = xorb (RegExp.word_before (last_char pre None))
           (RegExp.word_after rest).
Proof.
  intros pre rest. unfold word_boundary. rewrite word_at_after.
  f_equal. destruct pre as [|c pre]; simpl; auto.
  apply word_at_before.
Qed.

Lemma substring_prefix :
  forall t s,
    String.substring 0 (String.length t) s = t
    <-> exists rest, s = t ++ rest.
Proof.
  induction t as [|c t IH]; intros s; simpl.
  - split; [eauto|]. intros _. destruct s; reflexivity.
  - destruct s as [|d s]; simpl.
    + split; [discriminate|]. intros [rest H]. discriminate.
    + split.
      * intros H. injection H as -> H. apply IH in H.
        destruct H as [rest ->]. eauto.
      * intros [rest H]. injection H as -> ->. f_equal.
        apply IH. eauto.
Qed.

Lemma occurs_at_split :
  forall s t i,
    i <= String.length s ->
    (occurs_at s t i = true
     <-> exists pre rest, s = pre ++ t ++ rest /\ String.length pre = i).
Proof.
  unfold occurs_at. intros s t i; revert s.
  induction i as [|i IH]; intros s Hi; rewrite String.eqb_eq.
  - rewrite substring_prefix. split.
    + intros [rest ->]. exists "", rest. auto.
    + intros (pre & rest & -> & Hp). destruct pre; [|discriminate].
      exists rest. reflexivity.
  - destruct s as [|c s]; [simpl in Hi; lia|]. simpl.
    rewrite <- String.eqb_eq, IH by (simpl in Hi; lia). split.
    + intros (pre & rest & -> & <-). exists (String c pre), rest. auto.
    + intros (pre & rest & Hs & Hp). destruct pre as [|d pre];
        [discriminate|].
      injection Hs as -> ->. injection Hp as <-. eauto.
Qed.

Lemma length_append :
  forall s t, String.length (s ++ t) = String.length s + String.length t.
Proof.
  induction s as [|c s IH]; intros t; simpl; auto.
Qed.

Lemma append_assoc :
  forall s t u : string, (s ++ t) ++ u = s ++ t ++ u.
Proof.
  induction s as [|c s IH]; intros t u; simpl; auto. now rewrite IH.
Qed.

Lemma whole_word_in_split :
  forall s t,
    whole_word_in s t = true
    <-> exists pre rest,
          s = pre ++ t ++ rest
          /\ xorb (RegExp.word_before (last_char pre None))
                  (RegExp.word_after (t ++ rest)) = true
          /\ xorb (RegExp.word_before (last_char t (last_char pre None)))
                  (RegExp.word_after rest) = true.
Proof.
  intros s t. unfold whole_word_in. rewrite existsb_exists. split.
  - intros (i & Hi & H). apply in_seq in Hi.
    apply andb_prop in H. destruct H as [H H2].
    apply andb_prop in H. destruct H as [H0 H1].
    apply occurs_at_split in H0; [|lia].
    destruct H0 as (pre & rest & -> & <-).
    exists pre, rest. split; [reflexivity|].
    rewrite word_boundary_split in H1. split; [exact H1|].
    rewrite <- append_assoc, <- length_append, word_boundary_split in H2.
    rewrite last_char_app in H2. exact H2.
  - intros (pre & rest & -> & H1 & H2).
    exists (String.length pre). split.
    + apply in_seq. rewrite length_append. lia.
    + rewrite !andb_true_iff. repeat split.
      * apply occurs_at_split; [rewrite length_append; lia|]. eauto.
      * rewrite word_boundary_split. exact H1.
      * rewrite <- append_assoc, <- length_append, word_boundary_split.
        rewrite last_char_app. exact H2.
Qed.

(** For a token without syntax characters the test of the handler is the
    literal whole-word test. *)
Lemma literal_token_test :
  forall t title,
    literal_token t = true ->
    RegExp.test ("\b" ++ t ++ "\b") title
    = RegExp.Match (whole_word_in title t).
Proof.
  intros t title Ht. unfold RegExp.test.
  rewrite (parse_word_pattern t Ht). f_equal.
  apply Bool.eq_iff_eq_true.
  rewrite match_from_split, whole_word_in_split. split.
  - intros (pre & rest & -> & H). simpl in H. rewrite orb_false_r in H.
    apply andb_prop in H. destruct H as [H1 H2].
    apply match_here_literal in H2. destruct H2 as (rest' & -> & H2).
    exists pre, rest'. auto.
  - intros (pre & rest & -> & H1 & H2).
    exists pre, (t ++ rest). split; [reflexivity|].
    simpl. rewrite orb_false_r, andb_true_iff. split; [exact H1|].
    apply match_here_literal. eauto.
Qed.

(** **** The score of an article *)

Lemma score_loop_literal :
  forall title body terms s,
    Forall (fun t => literal_token t = true) terms ->
    (forall t, In t terms -> hits title body t = true) ->
    score_loop title body terms s
    = Normal (fold_left (fun acc t => (acc + term_points title body t)%Z)
                        terms s,
              true).
Proof.
  intros title body terms; induction terms as [|t terms IH];
    intros s Hlit Hhit.
  - reflexivity.
  - apply Forall_cons_iff in Hlit. destruct Hlit as [Ht Hlit].
    rewrite score_loop_step by (apply Hhit; now left).
    rewrite (literal_token_test t title Ht).
    rewrite IH by (auto; intros u Hu; apply Hhit; now right).
    simpl fold_left.
    assert (Hacc : forall x y : Z, x = y ->
               Normal (fold_left
                         (fun acc u => (acc + term_points title body u)%Z)
                         terms x, true)
               = Normal (fold_left
                           (fun acc u => (acc + term_points title body u)%Z)
                           terms y, true))
      by (intros x y ->; reflexivity).
    apply Hacc. unfold term_points.
    destruct (includes title t), (includes body t), (whole_word_in title t);
      lia.
Qed.

(** The score of C3 for tokens that are read literally. For every article
    that every token hits, when no token contains a syntax character of
    patterns, the scorer returns
    [allTermsMatch = true] and the score is the sum, over the tokens in
    order, of 10 if the token is a substring of the lowercased title, 1 if
    it is a substring of the lowercased body, and 5 if it occurs in the
    title as a whole word. *)
Theorem literal_tokens_score :
  forall terms a,
    Forall (fun t => literal_token t = true) terms ->
    all_hit terms a ->
    score_article terms a
    = Normal (mkScored a
                (claimed_score (lower_title a) (lower_body a) terms) true).
Proof.
  intros terms a Hlit Hhit. unfold score_article.
  fold (lower_title a). fold (lower_body a).
  rewrite (score_loop_literal _ _ terms 0%Z Hlit Hhit). reflexivity.
Qed.

Lemma literal_tokens_score_witness :
  all_hit ["password"; "reset"] Examples.reset_password
  /\ claimed_score (lower_title Examples.reset_password)
       (lower_body Examples.reset_password) ["password"; "reset"] = 30%Z
  /\ score_article ["password"; "reset"] Examples.reset_password
     = Normal (mkScored Examples.reset_password 30 true).
Proof.
  assert (Hhit : all_hit ["password"; "reset"] Examples.reset_password)
    by (intros t [<-|[<-|[]]]; reflexivity).
  assert (Hlit : Forall (fun t => literal_token t = true)
                   ["password"; "reset"])
    by (repeat constructor).
  split; [exact Hhit|]. split; [reflexivity|].
  rewrite (literal_tokens_score ["password"; "reset"]
             Examples.reset_password Hlit Hhit).
  reflexivity.
Defined.

(** With tokens that are read literally the scorer returns for every
    article: no pattern is invalid and none is outside the fragment. *)
Lemma score_loop_literal_returns :
  forall title body terms s,
    Forall (fun t => literal_token t = true) terms ->
    exists r, score_loop title body terms s = Normal r.
Proof.
  intros title body terms; induction terms as [|t terms IH]; intros s Hlit.
  - eexists. reflexivity.
  - apply Forall_cons_iff in Hlit. destruct Hlit as [Ht Hlit].
    destruct (hits title body t) eqn:Hh.
    + rewrite score_loop_step by assumption.
      rewrite (literal_token_test t title Ht). apply IH. exact Hlit.
    + rewrite score_loop_miss by assumption. eexists. reflexivity.
Qed.

Lemma literal_terms_always_scored :
  forall terms allArticles,
    Forall (fun t => literal_token t = true) terms ->
    exists items,
      map_in_order (score_article terms) allArticles = Normal items.
Proof.
  intros terms allArticles Hlit.
  induction allArticles as [|a arts [items IH]]; simpl.
  - eexists. reflexivity.
  - unfold score_article at 1.
    destruct (score_loop_literal_returns
                (toLowerCase (or_empty (title a)))
                (toLowerCase (or_empty (body a))) terms 0%Z Hlit)
      as [r ->].
    simpl. rewrite IH. simpl. eexists. reflexivity.
Qed.

(** The tokens are not empty. *)
Lemma searchTerms_not_empty :
  forall query t, In t (searchTerms query) -> t <> "".
Proof.
  unfold searchTerms. intros query t H. apply filter_In in H.
  destruct H as [_ H]. intros ->. discriminate H.
Qed.

(** *** C10 *)

(** C10. Whenever the handler answers with a search body, the status is 200
    and the [count] field is the length of the [results] array; when no
    article of the loaded corpus is hit by every token, [results] is empty
    and [count] is 0. *)
Theorem count_is_results_length :
  forall fuel env fetch q st results count,
    fst (faq_search fuel env fetch q)
    = Normal (mkResponse st (SearchBody results count)) ->
    st = 200
    /\ count = List.length results
    /\ exists query allArticles,
         q = QString query
         /\ fst (load fuel fetch (Some (first_page env)) [])
            = Normal allArticles
         /\ ((forall a, In a allArticles ->
                        ~ all_hit (searchTerms query) a) ->
             results = [] /\ count = 0).
Proof.
  intros fuel env fetch q st results count H.
  apply faq_search_search_body in H.
  destruct H as (query & allArticles & items & -> & _ & Hl & Hs & -> & -> & ->).
  repeat split; auto.
  exists query, allArticles. repeat split; auto.
  - rewrite ranked_none; auto.
    intros c Hc. destruct (allTermsMatch c) eqn:Hm; auto.
    destruct (In_items_article _ _ _ _ Hs Hc) as [Ha Hsc].
    exfalso. apply (H _ Ha). eapply score_article_matched; eauto.
  - rewrite ranked_none; auto.
    intros c Hc. destruct (allTermsMatch c) eqn:Hm; auto.
    destruct (In_items_article _ _ _ _ Hs Hc) as [Ha Hsc].
    exfalso. apply (H _ Ha). eapply score_article_matched; eauto.
Qed.

Lemma count_is_results_length_witness :
  fst (faq_search 5 None
         (Examples.one_page [Examples.reset_password; Examples.billing_faq])
         (QString "password reset"))
  = Normal (mkResponse 200 (SearchBody Examples.password_results 2))
  /\ 2 = List.length Examples.password_results.
Proof.
  assert (H : fst (faq_search 5 None
                     (Examples.one_page
                        [Examples.reset_password; Examples.billing_faq])
                     (QString "password reset"))
              = Normal (mkResponse 200
                          (SearchBody Examples.password_results 2)))
    by reflexivity.
  split; [exact H|].
  destruct (count_is_results_length _ _ _ _ _ _ _ H) as (_ & Hc & _).
  exact Hc.
Defined.

(** *** C6 *)

(** C6. Whenever the handler answers with a search body, [results] has at
    most 10 elements: it is the first 10 of the matching candidates after
    the sort, so its length is the smaller of 10 and the number of
    candidates that passed the filter. *)
Theorem at_most_ten_results :
  forall fuel env fetch q st results count,
    fst (faq_search fuel env fetch q)
    = Normal (mkResponse st (SearchBody results count)) ->
    List.length results <= 10
    /\ count <= 10
    /\ exists query allArticles items,
         q = QString query
         /\ fst (load fuel fetch (Some (first_page env)) [])
            = Normal allArticles
         /\ map_in_order (score_article (searchTerms query)) allArticles
            = Normal items
         /\ results
            = firstn 10
                (map project
                   (sort by_score_desc (filter allTermsMatch items)))
         /\ List.length results
            = Nat.min 10 (List.length (filter allTermsMatch items)).
Proof.
  intros fuel env fetch q st results count H.
  apply faq_search_search_body in H.
  destruct H as (query & allArticles & items & -> & _ & Hl & Hs & -> & -> & ->).
  assert (Hlen : List.length (map project (ranked items))
                 = Nat.min 10 (List.length (filter allTermsMatch items))).
  { unfold ranked. now rewrite length_map, length_firstn, sort_length. }
  repeat split; try (rewrite Hlen; apply Nat.le_min_l).
  exists query, allArticles, items. repeat split; auto.
  unfold ranked. now rewrite firstn_map.
Qed.

Lemma at_most_ten_results_witness :
  List.length (Examples.numbered 0 10) <= 10
  /\ fst (faq_search 5 None Examples.three_pages (QString "article"))
     = Normal (mkResponse 200
                 (SearchBody (map (fun a => project (mkScored a 15 true))
                                  (Examples.numbered 0 10)) 10)).
Proof.
  assert (H : fst (faq_search 5 None Examples.three_pages (QString "article"))
              = Normal (mkResponse 200
                          (SearchBody
                             (map (fun a => project (mkScored a 15 true))
                                  (Examples.numbered 0 10)) 10)))
    by (vm_compute; reflexivity).
  split; [|exact H].
  destruct (at_most_ten_results _ _ _ _ _ _ _ H) as (Hlen & _).
  rewrite length_map in Hlen. exact Hlen.
Defined.

(** *** C9 *)

Lemma Forall2_map_right :
  forall (A B : Type) (R : A -> B -> Prop) (f : A -> B) (l : list A),
    (forall x, In x l -> R x (f x)) -> Forall2 R l (map f l).
Proof.
  intros A B R f l; induction l as [|x l IH]; intros H; simpl.
  - constructor.
  - constructor; [apply H; now left|]. apply IH. intros y Hy. apply H.
    now right.
Qed.

(** C9. The documents that survive are the candidates that the filter on
    [allTermsMatch] keeps, in the order of the sort, cut at ten. Each of them
    is projected, at its place, and [results] holds nothing else: element by
    element, [id], [title] and [html_url] are those of the surviving
    article, and [body] is its body, or the empty string when the article
    has none; [body] is never [null] or missing. *)
Theorem projection_keeps_fields :
  forall fuel env fetch q st results count,
    fst (faq_search fuel env fetch q)
    = Normal (mkResponse st (SearchBody results count)) ->
    exists query allArticles items,
      q = QString query
      /\ fst (load fuel fetch (Some (first_page env)) []) = Normal allArticles
      /\ map_in_order (score_article (searchTerms query)) allArticles
         = Normal items
      /\ List.length results
         = Nat.min 10 (List.length (filter allTermsMatch items))
      /\ Forall2
           (fun c r =>
              In (item_article c) allArticles
              /\ allTermsMatch c = true
              /\ r_id r = id (item_article c)
              /\ r_title r = title (item_article c)
              /\ r_html_url r = html_url (item_article c)
              /\ r_body r = Some (or_empty (body (item_article c)))
              /\ r_body r <> None
              /\ (body (item_article c) = None -> r_body r = Some ""))
           (firstn 10 (sort by_score_desc (filter allTermsMatch items)))
           results.
Proof.
  intros fuel env fetch q st results count H.
  apply faq_search_search_body in H.
  destruct H as (query & allArticles & items & -> & _ & Hl & Hs & -> & -> & ->).
  exists query, allArticles, items.
  split; [reflexivity|]. split; [exact Hl|]. split; [exact Hs|]. split.
  - unfold ranked. now rewrite length_map, length_firstn, sort_length.
  - unfold ranked. apply Forall2_map_right. intros c Hc.
    apply (ranked_incl items c) in Hc. destruct Hc as [Hc Hm].
    destruct (In_items_article _ _ _ _ Hs Hc) as [Ha _].
    simpl. repeat split; auto.
    + discriminate.
    + intros ->. reflexivity.
Qed.

Lemma projection_keeps_fields_witness :
  fst (faq_search 5 None
         (Examples.one_page [Examples.billing_faq; Examples.cpp_tips])
         (QString "tips"))
  = Normal (mkResponse 200
              (SearchBody
                 [mkResult 3 (Some "C++ tips") (Some "") (Some "/articles/3")]
                 1))
  /\ Forall2
       (fun c r =>
          r_id r = id (item_article c)
          /\ r_title r = title (item_article c)
          /\ r_html_url r = html_url (item_article c)
          /\ r_body r = Some (or_empty (body (item_article c))))
       [mkScored Examples.cpp_tips 15 true]
       [mkResult 3 (Some "C++ tips") (Some "") (Some "/articles/3")].
Proof.
  assert (H : fst (faq_search 5 None
                     (Examples.one_page
                        [Examples.billing_faq; Examples.cpp_tips])
                     (QString "tips"))
              = Normal (mkResponse 200
                          (SearchBody
                             [mkResult 3 (Some "C++ tips") (Some "")
                                (Some "/articles/3")] 1)))
    by reflexivity.
  split; [exact H|].
  destruct (projection_keeps_fields _ _ _ _ _ _ _ H)
    as (query & arts & items & Hq & Hl & Hs & _ & HF).
  injection Hq as <-. injection Hl as <-.
  assert (Hi : map_in_order (score_article (searchTerms "tips"))
                 [Examples.billing_faq; Examples.cpp_tips]
               = Normal [mkScored Examples.billing_faq 0 false;
                         mkScored Examples.cpp_tips 15 true])
    by reflexivity.
  rewrite Hi in Hs. injection Hs as <-.
  change (firstn 10
            (sort by_score_desc
               (filter allTermsMatch
                  [mkScored Examples.billing_faq 0 false;
                   mkScored Examples.cpp_tips 15 true])))
    with [mkScored Examples.cpp_tips 15 true] in HF.
  eapply Forall2_impl; [|exact HF].
  intros c r (_ & _ & Hid & Ht & Hu & Hb & _). auto.
Defined.

(** *** The pagination loop *)

Lemma truthy_String :
  forall u, truthy (Some u) = true -> exists c u', u = String c u'.
Proof.
  intros [|c u'] H; [discriminate|eauto].
Qed.

Lemma load_stops :
  forall fuel fetch nextPage acc,
    truthy nextPage = false ->
    load fuel fetch nextPage acc = (Normal acc, []).
Proof.
  intros fuel fetch [[|c u]|] acc H; try discriminate H;
    destruct fuel; reflexivity.
Qed.

Lemma load_serves :
  forall pages fetch url acc fuel,
    serves fetch url pages ->
    truthy (Some url) = true ->
    List.length pages <= fuel ->
    load fuel fetch (Some url) acc
    = (Normal (acc ++ documents pages)%list,
       map Requested (locators url pages)).
Proof.
  induction pages as [|p rest IH]; intros fetch url acc fuel Hs Hu Hf.
  - destruct Hs.
  - destruct Hs as [[st Hfetch] Hnext].
    destruct (truthy_String _ Hu) as (c & u' & ->).
    destruct fuel as [|fuel]; [simpl in Hf; lia|].
    simpl load. rewrite Hfetch. simpl negb. cbv iota.
    unfold documents. simpl map. simpl List.concat.
    fold (documents rest).
    destruct rest as [|p' rest'].
    + rewrite Hnext, load_stops by reflexivity.
      simpl. rewrite app_nil_r. reflexivity.
    + destruct Hnext as (u & Hn & Hut & Hrest).
      rewrite Hn.
      rewrite (IH fetch u (acc ++ or_nil (articles p))%list fuel Hrest Hut)
        by (simpl in *; lia).
      rewrite <- app_assoc. simpl locators. rewrite ?Hn. reflexivity.
Qed.

Lemma load_serves_then_fails :
  forall pages fetch url acc fuel st,
    serves_then_fails fetch url pages st ->
    truthy (Some url) = true ->
    List.length pages < fuel ->
    load fuel fetch (Some url) acc
    = (Normal (acc ++ documents pages)%list,
       (map Requested (locators url pages)
        ++ [Requested (last_locator url pages);
            ConsoleError "Zendesk articles fetch error:" (Some st)])%list).
Proof.
  induction pages as [|p rest IH]; intros fetch url acc fuel st Hs Hu Hf;
    destruct (truthy_String _ Hu) as (c & u' & ->);
    (destruct fuel as [|fuel]; [simpl in Hf; lia|]).
  - destruct Hs as [d Hfetch].
    simpl load. rewrite Hfetch. simpl. rewrite app_nil_r. reflexivity.
  - destruct Hs as [[st' Hfetch] (u & Hn & Hut & Hrest)].
    simpl load. rewrite Hfetch. simpl negb. cbv iota.
    rewrite Hn.
    rewrite (IH fetch u (acc ++ or_nil (articles p))%list fuel st Hrest Hut)
      by (simpl in *; lia).
    unfold documents. simpl map. simpl List.concat.
    rewrite <- app_assoc. simpl locators. simpl last_locator.
    rewrite ?Hn. reflexivity.
Qed.

Lemma first_page_truthy : forall env, truthy (Some (first_page env)) = true.
Proof.
  intros env. reflexivity.
Qed.

Lemma documents_length_3 :
  forall p1 p2 p3,
    List.length (documents [p1; p2; p3])
    = List.length (or_nil (articles p1))
      + List.length (or_nil (articles p2))
      + List.length (or_nil (articles p3)).
Proof.
  intros. unfold documents. simpl.
  rewrite !length_app. simpl. lia.
Qed.

(** *** C7 *)

(** C7. The loader starts at the first-page address, which asks for pages
    of 100, requests the address each response names as the next page, in
    turn, appends the documents of every page in arrival order, and stops
    after the page that names no next address: the corpus is the
    concatenation of the pages and the requests are exactly the addresses of
    the chain. Pages of 100, 100 and 7 documents give 207 documents. *)
Theorem loader_follows_next_page :
  forall fuel env fetch pages,
    serves fetch (first_page env) pages ->
    List.length pages <= fuel ->
    first_page env
    = ZENDESK_B2B_URL env
      ++ "/api/v2/help_center/en-gb/articles.json?per_page=100"
    /\ load fuel fetch (Some (first_page env)) []
       = (Normal (documents pages),
          map Requested (locators (first_page env) pages))
    /\ List.length (locators (first_page env) pages) = List.length pages
    /\ (forall p1 p2 p3,
          pages = [p1; p2; p3] ->
          List.length (or_nil (articles p1)) = 100 ->
          List.length (or_nil (articles p2)) = 100 ->
          List.length (or_nil (articles p3)) = 7 ->
          List.length (documents pages) = 207).
Proof.
  intros fuel env fetch pages Hs Hf. split; [reflexivity|]. split.
  - rewrite (load_serves pages fetch (first_page env) [] fuel Hs
               (first_page_truthy env) Hf).
    reflexivity.
  - split.
    + generalize (first_page env). clear.
      induction pages as [|p rest IH]; intros url; simpl; auto.
    + intros p1 p2 p3 -> H1 H2 H3.
      rewrite documents_length_3, H1, H2, H3. reflexivity.
Qed.

Lemma loader_follows_next_page_witness :
  serves Examples.three_pages (first_page None)
    [Examples.page1; Examples.page2; Examples.page3]
  /\ fst (load 3 Examples.three_pages (Some (first_page None)) [])
     = Normal (Examples.numbered 0 207)
  /\ List.length (Examples.numbered 0 207) = 207.
Proof.
  assert (Hs : serves Examples.three_pages (first_page None)
                 [Examples.page1; Examples.page2; Examples.page3]).
  { simpl. split; [exists 200; reflexivity|].
    exists "page-2". repeat split; [exists 200; reflexivity|].
    exists "page-3". repeat split. exists 200; reflexivity. }
  destruct (loader_follows_next_page 3 None Examples.three_pages
              [Examples.page1; Examples.page2; Examples.page3] Hs
              (le_n 3)) as (_ & Hl & _ & H207).
  split; [exact Hs|]. split.
  - rewrite Hl. reflexivity.
  - reflexivity.
Defined.

(** *** C8 *)

Lemma faq_search_loaded :
  forall fuel env fetch query allArticles tr,
    query <> "" ->
    load fuel fetch (Some (first_page env)) [] = (Normal allArticles, tr) ->
    faq_search fuel env fetch (QString query)
    = try_catch (search_articles query allArticles) tr.
Proof.
  intros fuel env fetch [|c s] allArticles tr Hq Hl; [congruence|].
  unfold faq_search. rewrite Hl. reflexivity.
Qed.

Lemma try_catch_fst :
  forall r tr tr', fst (try_catch r tr) = fst (try_catch r tr').
Proof.
  intros [a| |w] tr tr'; reflexivity.
Qed.

(** The partial corpus. When the request after some pages is answered with
    a non-success status, the loop ends there: the corpus is the documents of
    the pages received, the status is written to the console, and the handler
    answers with the search over that corpus, which is the answer it gives
    when a source serves the same documents without a failure: 200 and the
    ranked projection whenever the scorer returns for every document, as it
    does when no token contains a syntax character of patterns. *)
Theorem failed_page_keeps_partial_corpus :
  forall fuel env fetch pages st query,
    serves_then_fails fetch (first_page env) pages st ->
    List.length pages < fuel ->
    query <> "" ->
    load fuel fetch (Some (first_page env)) []
    = (Normal (documents pages),
       (map Requested (locators (first_page env) pages)
        ++ [Requested (last_locator (first_page env) pages);
            ConsoleError "Zendesk articles fetch error:" (Some st)])%list)
    /\ faq_search fuel env fetch (QString query)
       = try_catch (search_articles query (documents pages))
           (snd (load fuel fetch (Some (first_page env)) []))
    /\ (forall items,
          map_in_order (score_article (searchTerms query)) (documents pages)
          = Normal items ->
          fst (faq_search fuel env fetch (QString query))
          = Normal (mkResponse 200
                      (SearchBody (map project (ranked items))
                         (List.length (map project (ranked items))))))
    /\ (Forall (fun t => literal_token t = true) (searchTerms query) ->
        exists items,
          fst (faq_search fuel env fetch (QString query))
          = Normal (mkResponse 200
                      (SearchBody (map project (ranked items))
                         (List.length (map project (ranked items))))))
    /\ (forall fuel' fetch' pages',
          serves fetch' (first_page env) pages' ->
          List.length pages' <= fuel' ->
          documents pages' = documents pages ->
          fst (faq_search fuel' env fetch' (QString query))
          = fst (faq_search fuel env fetch (QString query))).
Proof.
  intros fuel env fetch pages st query Hs Hf Hq.
  pose proof (load_serves_then_fails pages fetch (first_page env) [] fuel st
                Hs (first_page_truthy env) Hf) as Hl.
  simpl app in Hl at 1.
  assert (Hsearch : faq_search fuel env fetch (QString query)
                    = try_catch (search_articles query (documents pages))
                        (snd (load fuel fetch (Some (first_page env)) []))).
  { rewrite Hl. simpl snd. apply faq_search_loaded; assumption. }
  repeat split.
  - exact Hl.
  - exact Hsearch.
  - intros items Hi. rewrite Hsearch.
    unfold search_articles, scoredResults. rewrite Hi. reflexivity.
  - intros Hlit.
    destruct (literal_terms_always_scored _ (documents pages) Hlit)
      as [items Hi].
    exists items. rewrite Hsearch.
    unfold search_articles, scoredResults. rewrite Hi. reflexivity.
  - intros fuel' fetch' pages' Hs' Hf' Hd.
    pose proof (load_serves pages' fetch' (first_page env) [] fuel' Hs'
                  (first_page_truthy env) Hf') as Hl'.
    simpl app in Hl' at 1.
    rewrite (faq_search_loaded _ _ _ _ _ _ Hq Hl'), Hsearch, Hd.
    apply try_catch_fst.
Qed.

Lemma failed_page_keeps_partial_corpus_witness :
  serves_then_fails Examples.third_page_fails (first_page None)
    [Examples.page1; Examples.page2] 503
  /\ fst (load 3 Examples.third_page_fails (Some (first_page None)) [])
     = Normal (Examples.numbered 0 200)
  /\ In (ConsoleError "Zendesk articles fetch error:" (Some 503))
        (snd (faq_search 3 None Examples.third_page_fails
                (QString "article")))
  /\ fst (faq_search 3 None Examples.third_page_fails (QString "article"))
     = Normal (mkResponse 200
                 (SearchBody (map (fun a => project (mkScored a 15 true))
                                  (Examples.numbered 0 10)) 10)).
Proof.
  assert (Hs : serves_then_fails Examples.third_page_fails (first_page None)
                 [Examples.page1; Examples.page2] 503).
  { simpl. split; [exists 200; reflexivity|].
    exists "page-2". repeat split. exists 200; reflexivity.
    exists "page-3". repeat split. exists None. reflexivity. }
  assert (Hq : "article" <> "") by discriminate.
  destruct (failed_page_keeps_partial_corpus 3 None
              Examples.third_page_fails
              [Examples.page1; Examples.page2] 503 "article" Hs
              (le_n 3) Hq) as (Hl & Hsearch & _ & _ & _).
  split; [exact Hs|]. split; [rewrite Hl; reflexivity|]. split.
  - rewrite Hsearch, Hl. vm_compute. right. right. right. now left.
  - rewrite Hsearch. vm_compute. reflexivity.
Defined.

(** *** C1 *)

Lemma is_space_lower_char :
  forall c, is_space (lower_char c) = is_space c.
Proof.
  intros c.
  destruct c as [[] [] [] [] [] [] [] []]; reflexivity.
Qed.

Lemma split_go_blank :
  forall s in_run,
    forallb is_space (list_ascii_of_string s) = true ->
    Forall (fun piece => piece = "") (split_go (toLowerCase s) "" in_run).
Proof.
  induction s as [|c s IH]; intros in_run H; simpl in *.
  - repeat constructor.
  - apply andb_prop in H. destruct H as [Hc Hs].
    rewrite is_space_lower_char, Hc.
    destruct in_run; [|constructor]; auto.
Qed.

Lemma blank_query_no_terms :
  forall query, blank query = true -> searchTerms query = [].
Proof.
  intros query H. unfold searchTerms, split_ws.
  pose proof (split_go_blank query false H) as Hp.
  induction Hp as [|piece pieces -> _ IH]; simpl; auto.
Qed.

Lemma no_terms_scored :
  forall allArticles,
    map_in_order (score_article []) allArticles
    = Normal (map (fun a => mkScored a 0 true) allArticles).
Proof.
  induction allArticles as [|a arts IH]; simpl; auto.
  rewrite IH. reflexivity.
Qed.

Lemma no_terms_ranked :
  forall allArticles,
    ranked (map (fun a => mkScored a 0 true) allArticles)
    = map (fun a => mkScored a 0 true) (firstn 10 allArticles).
Proof.
  intros allArticles. unfold ranked.
  assert (Hf : forall l : list article,
             filter allTermsMatch (map (fun a => mkScored a 0 true) l)
             = map (fun a => mkScored a 0 true) l).
  { induction l as [|a l IH]; simpl; auto. now rewrite IH. }
  rewrite Hf, sort_all_equal, firstn_map; auto.
  intros x y Hx Hy. apply in_map_iff in Hx, Hy.
  destruct Hx as (a & <- & _), Hy as (b & <- & _). reflexivity.
Qed.


(** C1, at the input the handler gets wrong. A query that is not empty but
    consists of white space passes the guard: the corpus is requested, no
    token is left, every article matches with score 0, and the answer is
    200 with the first ten articles of the corpus, not a client error. *)
Theorem blank_query_is_searched :
  forall fuel env fetch query allArticles tr,
    query <> "" ->
    blank query = true ->
    load fuel fetch (Some (first_page env)) [] = (Normal allArticles, tr) ->
    searchTerms query = []
    /\ faq_search fuel env fetch (QString query)
       = (Normal (mkResponse 200
                    (SearchBody
                       (map (fun a => project (mkScored a 0 true))
                            (firstn 10 allArticles))
                       (Nat.min 10 (List.length allArticles)))),
          tr).
Proof.
  intros fuel env fetch query allArticles tr Hq Hb Hl.
  pose proof (blank_query_no_terms query Hb) as Ht.
  split; [exact Ht|].
  rewrite (faq_search_loaded _ _ _ _ _ _ Hq Hl).
  unfold search_articles, scoredResults.
  rewrite Ht, no_terms_scored. simpl bind.
  rewrite no_terms_ranked, map_map, length_map, length_firstn.
  reflexivity.
Qed.

Lemma blank_query_is_searched_witness :
  fst (faq_search 5 None
         (Examples.one_page [Examples.billing_faq; Examples.reset_password])
         (QString " "))
  = Normal (mkResponse 200
              (SearchBody
                 [ mkResult 2 (Some "Billing FAQ")
                     (Some "password reset instructions here") None;
                   mkResult 1 (Some "Reset your password") (Some "...")
                     (Some "/articles/1") ]
                 2)).
Proof.
  assert (Hq : " " <> "") by discriminate.
  destruct (blank_query_is_searched 5 None
              (Examples.one_page
                 [Examples.billing_faq; Examples.reset_password])
              " " [Examples.billing_faq; Examples.reset_password]
              [Requested (first_page None)] Hq eq_refl eq_refl)
    as [_ H].
  rewrite H. reflexivity.
Defined.

(** *** C2 *)

Lemma invalid_pattern_throws :
  forall terms term rest allArticles a,
    terms = term :: rest ->
    RegExp.parse ("\b" ++ term ++ "\b") = RegExp.SyntaxError ->
    In a allArticles ->
    hits (lower_title a) (lower_body a) term = true ->
    map_in_order (score_article terms) allArticles = Throw.
Proof.
  intros terms term rest allArticles a -> Hp Ha Hh.
  induction allArticles as [|b arts IH]; [destruct Ha|].
  simpl. unfold score_article at 1.
  fold (lower_title b). fold (lower_body b).
  destruct (hits (lower_title b) (lower_body b) term) eqn:Hb.
  - rewrite score_loop_step by assumption.
    unfold RegExp.test. rewrite Hp. reflexivity.
  - rewrite score_loop_miss by assumption. simpl.
    destruct Ha as [->|Ha]; [congruence|].
    rewrite (IH Ha). reflexivity.
Qed.

(** C2, at the input the handler gets wrong. The token is pasted into the
    pattern as it is. When the first token of the query makes the pattern
    invalid (as [c++] does) and some article contains it, building the
    pattern throws and the handler answers 500 instead of ranking by
    literal matches. *)
Theorem unescaped_token_throws :
  forall fuel env fetch query term rest allArticles tr a,
    searchTerms query = term :: rest ->
    RegExp.parse ("\b" ++ term ++ "\b") = RegExp.SyntaxError ->
    load fuel fetch (Some (first_page env)) [] = (Normal allArticles, tr) ->
    In a allArticles ->
    hits (lower_title a) (lower_body a) term = true ->
    faq_search fuel env fetch (QString query)
    = (Normal internal_error,
       (tr ++ [ConsoleError "FAQ search error:" None])%list).
Proof.
  intros fuel env fetch query term rest allArticles tr a Ht Hp Hl Ha Hh.
  assert (Hq : query <> "") by (intros ->; discriminate Ht).
  rewrite (faq_search_loaded _ _ _ _ _ _ Hq Hl).
  unfold search_articles, scoredResults.
  rewrite (invalid_pattern_throws _ _ _ _ _ Ht Hp Ha Hh). reflexivity.
Qed.

Lemma unescaped_token_throws_witness :
  RegExp.parse "\bc++\b" = RegExp.SyntaxError
  /\ includes (lower_title Examples.cpp_tips) "c++" = true
  /\ fst (faq_search 5 None
            (Examples.one_page [Examples.billing_faq; Examples.cpp_tips])
            (QString "c++"))
     = Normal internal_error.
Proof.
  split; [reflexivity|]. split; [reflexivity|].
  rewrite (unescaped_token_throws 5 None
             (Examples.one_page [Examples.billing_faq; Examples.cpp_tips])
             "c++" "c++" [] [Examples.billing_faq; Examples.cpp_tips]
             [Requested (first_page None)] Examples.cpp_tips
             eq_refl eq_refl eq_refl (or_intror (or_introl eq_refl))
             eq_refl).
  reflexivity.
Defined.

(** *** C4 *)

Lemma score_loop_prefix :
  forall title body pre rest s0 r,
    score_loop title body (pre ++ rest) s0 = Normal r ->
    (forall u, In u pre -> hits title body u = true) ->
    exists s, score_loop title body pre s0 = Normal (s, true).
Proof.
  intros title body pre; induction pre as [|u pre IH];
    intros rest s0 r H Hpre.
  - exists s0. reflexivity.
  - assert (Hu : hits title body u = true) by (apply Hpre; now left).
    simpl app in H. rewrite score_loop_step in * by assumption.
    destruct (RegExp.test _ title) as [found| |]; try discriminate.
    eapply IH; eauto. intros v Hv. apply Hpre. now right.
Qed.

Lemma In_article_items :
  forall terms allArticles items a,
    map_in_order (score_article terms) allArticles = Normal items ->
    In a allArticles ->
    exists c, In c items /\ score_article terms a = Normal c.
Proof.
  intros terms allArticles items a H Ha.
  apply map_in_order_Forall2 in H.
  induction H as [|b d arts items Hd _ IH]; simpl in *; [tauto|].
  destruct Ha as [->|Ha]; eauto.
  destruct (IH Ha) as (c & Hc & Hs). eauto.
Qed.

Lemma score_article_stops :
  forall a pre t post s,
    score_loop (lower_title a) (lower_body a) pre 0 = Normal (s, true) ->
    hits (lower_title a) (lower_body a) t = false ->
    score_article (pre ++ t :: post) a = Normal (mkScored a s false).
Proof.
  intros a pre t post s Hpre Ht. unfold score_article.
  fold (lower_title a). fold (lower_body a).
  rewrite (score_loop_app _ _ _ _ _ _ Hpre), score_loop_miss by assumption.
  reflexivity.
Qed.

(** The filter on matches. The scorer returns for every article when no
    token contains a syntax character of patterns; and whenever it returns
    for every article of the corpus: an article for which some token hits
    neither the title nor the body is marked [allTermsMatch = false] with the
    score reached before that token, whatever tokens follow it, and it is not
    among the ranked candidates; every ranked candidate is an article of the
    corpus that every token hits; and when no article is hit by every token
    the answer is 200 with no results and count 0. *)
Theorem unmatched_articles_are_dropped :
  forall query allArticles,
    (Forall (fun t => literal_token t = true) (searchTerms query) ->
     exists items,
       map_in_order (score_article (searchTerms query)) allArticles
       = Normal items)
    /\ forall items,
         map_in_order (score_article (searchTerms query)) allArticles
         = Normal items ->
         (forall a pre t post,
             In a allArticles ->
             searchTerms query = (pre ++ t :: post)%list ->
             all_hit pre a ->
             hits (lower_title a) (lower_body a) t = false ->
             exists s,
               score_loop (lower_title a) (lower_body a) pre 0
               = Normal (s, true)
               /\ In (mkScored a s false) items
               /\ (forall post',
                     score_article (pre ++ t :: post') a
                     = Normal (mkScored a s false))
               /\ (forall c, In c (ranked items) -> item_article c <> a))
         /\ search_articles query allArticles
            = Normal (mkResponse 200
                        (SearchBody (map project (ranked items))
                           (List.length (map project (ranked items)))))
         /\ (forall c,
               In c (ranked items) ->
               In (item_article c) allArticles
               /\ allTermsMatch c = true
               /\ all_hit (searchTerms query) (item_article c))
         /\ ((forall a, In a allArticles ->
                         ~ all_hit (searchTerms query) a) ->
             search_articles query allArticles
             = Normal (mkResponse 200 (SearchBody [] 0))).
Proof.
  intros query allArticles.
  split; [apply literal_terms_always_scored|].
  intros items Hs.
  assert (Hranked : forall c,
             In c (ranked items) ->
             In (item_article c) allArticles
             /\ allTermsMatch c = true
             /\ all_hit (searchTerms query) (item_article c)).
  { intros c Hc. apply ranked_incl in Hc. destruct Hc as [Hc Hm].
    destruct (In_items_article _ _ _ _ Hs Hc) as [Ha Hsc].
    repeat split; auto. eapply score_article_matched; eauto. }
  assert (Hresp : search_articles query allArticles
                  = Normal (mkResponse 200
                              (SearchBody (map project (ranked items))
                                 (List.length (map project (ranked items)))))).
  { unfold search_articles, scoredResults. rewrite Hs. reflexivity. }
  repeat split; try (apply Hranked; assumption); auto.
  - intros a pre t post Ha Hterms Hpre Ht.
    destruct (In_article_items _ _ _ _ Hs Ha) as (c & Hc & Hsc).
    pose proof (score_article_inv _ _ _ Hsc) as [Hca Hloop].
    rewrite Hterms in Hloop.
    destruct (score_loop_prefix _ _ _ _ _ _ Hloop Hpre) as [s Hs0].
    exists s. split; [exact Hs0|].
    pose proof (score_article_stops a pre t post s Hs0 Ht) as Hstop.
    rewrite <- Hterms, Hsc in Hstop. injection Hstop as ->.
    repeat split; auto.
    + intros post'. now apply score_article_stops.
    + intros d Hd Hda. destruct (Hranked d Hd) as (_ & _ & Hall).
      rewrite Hda in Hall. specialize (Hall t).
      rewrite Hterms in Hall. rewrite Hall in Ht; [discriminate|].
      apply in_or_app. right. now left.
  - intros Hnone. rewrite Hresp, ranked_none; [reflexivity|].
    intros c Hc. destruct (allTermsMatch c) eqn:Hm; auto.
    destruct (In_items_article _ _ _ _ Hs Hc) as [Ha Hsc].
    exfalso. apply (Hnone _ Ha). eapply score_article_matched; eauto.
Qed.

Lemma unmatched_articles_are_dropped_witness :
  score_article ["password"; "zzz"; "c++"] Examples.reset_password
  = Normal (mkScored Examples.reset_password 15 false)
  /\ search_articles "password zzz reset"
       [Examples.reset_password; Examples.billing_faq]
     = Normal (mkResponse 200 (SearchBody [] 0)).
Proof.
  destruct (unmatched_articles_are_dropped "password zzz reset"
              [Examples.reset_password; Examples.billing_faq])
    as [_ Hall].
  destruct (Hall [mkScored Examples.reset_password 15 false;
               mkScored Examples.billing_faq 1 false] eq_refl)
    as (Hstop & _ & _ & Hnone).
  split.
  - destruct (Hstop Examples.reset_password ["password"] "zzz" ["reset"])
      as (s & Hs & _ & Hpost & _).
    + now left.
    + reflexivity.
    + intros t [<-|[]]. reflexivity.
    + reflexivity.
    + injection Hs as <-. apply (Hpost ["c++"]).
  - apply Hnone. intros a [<-|[<-|[]]] H;
      specialize (H "zzz" (or_intror (or_introl eq_refl))); discriminate H.
Defined.

(** C4, at the input the handler gets wrong. No article of the corpus
    contains every token, so no article may survive and the answer should be
    200 with no results. But when the first token makes the pattern invalid
    (as [c++] does) and an article contains it, scoring that article throws
    at the first token: the tokens after it are never looked at, the article
    is never marked [allTermsMatch = false], no candidate list is built, and
    the handler answers 500. The defect is the one of C2: the token is
    pasted into the pattern as it is. *)
Theorem unmatched_article_is_never_marked :
  forall fuel env fetch query term rest allArticles tr a,
    searchTerms query = term :: rest ->
    RegExp.parse ("\b" ++ term ++ "\b") = RegExp.SyntaxError ->
    load fuel fetch (Some (first_page env)) [] = (Normal allArticles, tr) ->
    In a allArticles ->
    hits (lower_title a) (lower_body a) term = true ->
    (forall b, In b allArticles -> ~ all_hit (searchTerms query) b) ->
    score_article (searchTerms query) a = Throw
    /\ map_in_order (score_article (searchTerms query)) allArticles = Throw
    /\ search_articles query allArticles = Throw
    /\ faq_search fuel env fetch (QString query)
       = (Normal internal_error,
          (tr ++ [ConsoleError "FAQ search error:" None])%list).
Proof.
  intros fuel env fetch query term rest allArticles tr a Ht Hp Hl Ha Hh _.
  assert (Hq : query <> "") by (intros ->; discriminate Ht).
  pose proof (invalid_pattern_throws _ _ _ _ _ Ht Hp Ha Hh) as Hthrow.
  split; [|split; [exact Hthrow|split]].
  - rewrite Ht. unfold score_article.
    fold (lower_title a). fold (lower_body a).
    rewrite score_loop_step by assumption.
    unfold RegExp.test. rewrite Hp. reflexivity.
  - unfold search_articles, scoredResults. rewrite Hthrow. reflexivity.
  - rewrite (faq_search_loaded _ _ _ _ _ _ Hq Hl).
    unfold search_articles, scoredResults. rewrite Hthrow. reflexivity.
Qed.

Lemma unmatched_article_is_never_marked_witness :
  (forall b, In b [Examples.billing_faq; Examples.cpp_tips] ->
             ~ all_hit (searchTerms "c++ zzz") b)
  /\ score_article ["c++"; "zzz"] Examples.cpp_tips = Throw
  /\ fst (faq_search 5 None
            (Examples.one_page [Examples.billing_faq; Examples.cpp_tips])
            (QString "c++ zzz"))
     = Normal internal_error.
Proof.
  assert (Hnone : forall b, In b [Examples.billing_faq; Examples.cpp_tips] ->
                            ~ all_hit (searchTerms "c++ zzz") b).
  { intros b [<-|[<-|[]]] H;
      specialize (H "zzz" (or_intror (or_introl eq_refl))); discriminate H. }
  destruct (unmatched_article_is_never_marked 5 None
              (Examples.one_page [Examples.billing_faq; Examples.cpp_tips])
              "c++ zzz" "c++" ["zzz"]
              [Examples.billing_faq; Examples.cpp_tips]
              [Requested (first_page None)] Examples.cpp_tips
              eq_refl eq_refl eq_refl (or_intror (or_introl eq_refl))
              eq_refl Hnone) as (Hs & _ & _ & Hf).
  split; [exact Hnone|]. split; [exact Hs|].
  rewrite Hf. reflexivity.
Defined.

(** *** C8, with a token that is no pattern *)

(** C8, at the input the handler gets wrong. A later page is answered with
    a non-success status, so the loop ends with the documents of the pages
    received, and the search runs over them. When the first token of the
    query makes the pattern invalid (as [c++] does) and one of the documents
    received contains it, the search throws and the handler answers 500
    where a ranked list over the partial corpus is due. The defect is the
    one of C2: the token is pasted into the pattern as it is. *)
Theorem failed_page_then_invalid_pattern_is_500 :
  forall fuel env fetch pages st query term rest a,
    serves_then_fails fetch (first_page env) pages st ->
    List.length pages < fuel ->
    searchTerms query = term :: rest ->
    RegExp.parse ("\b" ++ term ++ "\b") = RegExp.SyntaxError ->
    In a (documents pages) ->
    hits (lower_title a) (lower_body a) term = true ->
    fst (load fuel fetch (Some (first_page env)) [])
    = Normal (documents pages)
    /\ search_articles query (documents pages) = Throw
    /\ faq_search fuel env fetch (QString query)
       = (Normal internal_error,
          (map Requested (locators (first_page env) pages)
           ++ [Requested (last_locator (first_page env) pages);
               ConsoleError "Zendesk articles fetch error:" (Some st);
               ConsoleError "FAQ search error:" None])%list).
Proof.
  intros fuel env fetch pages st query term rest a Hs Hf Ht Hp Ha Hh.
  assert (Hq : query <> "") by (intros ->; discriminate Ht).
  pose proof (load_serves_then_fails pages fetch (first_page env) [] fuel st
                Hs (first_page_truthy env) Hf) as Hl.
  simpl app in Hl at 1.
  pose proof (invalid_pattern_throws _ _ _ _ _ Ht Hp Ha Hh) as Hthrow.
  assert (Hsearch : search_articles query (documents pages) = Throw).
  { unfold search_articles, scoredResults. rewrite Hthrow. reflexivity. }
  split; [rewrite Hl; reflexivity|]. split; [exact Hsearch|].
  rewrite (faq_search_loaded _ _ _ _ _ _ Hq Hl), Hsearch.
  unfold try_catch. rewrite <- app_assoc. reflexivity.
Qed.

Lemma failed_page_then_invalid_pattern_is_500_witness :
  serves_then_fails MoreExamples.cpp_page_then_fails (first_page None)
    [MoreExamples.cpp_page] 503
  /\ fst (load 2 MoreExamples.cpp_page_then_fails (Some (first_page None)) [])
     = Normal [Examples.billing_faq; Examples.cpp_tips]
  /\ faq_search 2 None MoreExamples.cpp_page_then_fails (QString "c++")
     = (Normal internal_error,
        [Requested (first_page None); Requested "page-2";
         ConsoleError "Zendesk articles fetch error:" (Some 503);
         ConsoleError "FAQ search error:" None]).
Proof.
  assert (Hs : serves_then_fails MoreExamples.cpp_page_then_fails
                 (first_page None) [MoreExamples.cpp_page] 503).
  { simpl. split; [exists 200; reflexivity|].
    exists "page-2". repeat split. exists None. reflexivity. }
  destruct (failed_page_then_invalid_pattern_is_500 2 None
              MoreExamples.cpp_page_then_fails [MoreExamples.cpp_page] 503
              "c++" "c++" [] Examples.cpp_tips Hs (le_n 2) eq_refl eq_refl
              (or_intror (or_introl eq_refl)) eq_refl)
    as (Hl & _ & Hf).
  split; [exact Hs|]. split; [rewrite Hl; reflexivity|].
  rewrite Hf. reflexivity.
Defined.

(** *** C5 *)

(** The candidates are followed through the ranking together with their
    position in the corpus. *)

Lemma combine_seq_In :
  forall (A : Type) (l : list A) s n i c,
    In (i, c) (combine (seq s n) l) ->
    s <= i /\ nth_error l (i - s) = Some c.
Proof.
  intros A l; induction l as [|x l IH]; intros s n i c H.
  - destruct (seq s n); destruct H.
  - destruct n as [|n]; [destruct H|]. simpl in H.
    destruct H as [H|H].
    + injection H as <- <-. rewrite Nat.sub_diag. auto.
    + apply IH in H. destruct H as [Hle Hn]. split; [lia|].
      replace (i - s) with (S (i - S s)) by lia. exact Hn.
Qed.

Lemma combine_seq_tags :
  forall (A : Type) (l : list A) s n,
    StronglySorted (fun x y : nat * A => fst x < fst y)
                   (combine (seq s n) l).
Proof.
  intros A l; induction l as [|x l IH]; intros s n.
  - destruct (seq s n); constructor.
  - destruct n as [|n]; simpl; constructor; auto.
    apply Forall_forall. intros [i c] Hi.
    apply combine_seq_In in Hi. simpl. lia.
Qed.

Lemma map_snd_combine_seq :
  forall (A : Type) (l : list A) s,
    map snd (combine (seq s (List.length l)) l) = l.
Proof.
  intros A l; induction l as [|x l IH]; intros s; simpl; auto.
  now rewrite IH.
Qed.

Lemma StronglySorted_filter :
  forall (A : Type) (R : A -> A -> Prop) (f : A -> bool) l,
    StronglySorted R l -> StronglySorted R (filter f l).
Proof.
  intros A R f l H; induction H as [|x l Hs IH Hx]; simpl.
  - constructor.
  - destruct (f x); auto. constructor; auto.
    rewrite Forall_forall in *. intros y Hy.
    apply filter_In in Hy. apply Hx. tauto.
Qed.

Lemma StronglySorted_firstn :
  forall (A : Type) (R : A -> A -> Prop) n l,
    StronglySorted R l -> StronglySorted R (firstn n l).
Proof.
  intros A R n l H; revert n.
  induction H as [|x l Hs IH Hx]; intros [|n]; simpl; try constructor; auto.
  rewrite Forall_forall in *. intros y Hy. apply Hx.
  eapply In_firstn; eauto.
Qed.

Lemma precedes_score_ge :
  forall x y, precedes x y -> (score (snd x) >= score (snd y))%Z.
Proof.
  intros x y [H|[H _]]; lia.
Qed.

Lemma insert_tagged_sorted :
  forall x l,
    StronglySorted precedes l ->
    Forall (fun y => fst x < fst y) l ->
    StronglySorted precedes (insert by_score_desc_tagged x l).
Proof.
  intros x l Hs; induction Hs as [|y l Hs IH Hy]; intros Hx; simpl.
  - repeat constructor.
  - apply Forall_cons_iff in Hx. destruct Hx as [Hxy Hx].
    unfold by_score_desc_tagged at 1, by_score_desc.
    destruct (score (snd y) - score (snd x) <=? 0)%Z eqn:Hc.
    + apply Z.leb_le in Hc.
      assert (Hpxy : precedes x y) by (unfold precedes; lia).
      constructor; [constructor; auto|].
      constructor; auto.
      rewrite Forall_forall in *. intros z Hz.
      pose proof (precedes_score_ge _ _ (Hy z Hz)).
      specialize (Hx z Hz). unfold precedes. lia.
    + apply Z.leb_gt in Hc.
      constructor; auto.
      apply insert_Forall; auto. unfold precedes. lia.
Qed.

Lemma sort_tagged_sorted :
  forall l,
    StronglySorted (fun x y : nat * scored => fst x < fst y) l ->
    StronglySorted precedes (sort by_score_desc_tagged l).
Proof.
  intros l H; induction H as [|x l Hs IH Hx]; simpl.
  - constructor.
  - apply insert_tagged_sorted; auto.
    rewrite Forall_forall in *. intros y Hy.
    apply sort_In in Hy. auto.
Qed.

Lemma Forall2_nth_error :
  forall (A B : Type) (R : A -> B -> Prop) xs ys i y,
    Forall2 R xs ys ->
    nth_error ys i = Some y ->
    exists x, nth_error xs i = Some x /\ R x y.
Proof.
  intros A B R xs ys i y H; revert i.
  induction H as [|x0 y0 xs ys Hxy _ IH]; intros [|i] Hi; simpl in *;
    try discriminate.
  - injection Hi as <-. eauto.
  - auto.
Qed.

Lemma nth_error_combine_seq :
  forall (A : Type) (l : list A) s i c,
    nth_error l i = Some c ->
    In (s + i, c) (combine (seq s (List.length l)) l).
Proof.
  intros A l; induction l as [|x l IH]; intros s [|i] c H; simpl in *;
    try discriminate.
  - injection H as <-. rewrite Nat.add_0_r. now left.
  - right. replace (s + S i) with (S s + i) by lia. now apply IH.
Qed.

Lemma nth_error_Forall2 :
  forall (A B : Type) (R : A -> B -> Prop) xs ys i x,
    Forall2 R xs ys ->
    nth_error xs i = Some x ->
    exists y, nth_error ys i = Some y /\ R x y.
Proof.
  intros A B R xs ys i x H; revert i.
  induction H as [|x0 y0 xs ys Hxy _ IH]; intros [|i] Hi; simpl in *;
    try discriminate.
  - injection Hi as <-. eauto.
  - auto.
Qed.

(** All the matching candidates, each with its position in the corpus, in
    the order of the sort; the ranked ones are the first ten. *)
Lemma ranked_tagged :
  forall items,
    exists full : list (nat * scored),
      ranked items = map snd (firstn 10 full)
      /\ (forall i c, In (i, c) full <->
                      nth_error items i = Some c /\ allTermsMatch c = true)
      /\ StronglySorted precedes full.
Proof.
  intros items.
  set (E := combine (seq 0 (List.length items)) items).
  set (F := filter (fun x : nat * scored => allTermsMatch (snd x)) E).
  exists (sort by_score_desc_tagged F).
  split; [|split].
  - unfold ranked.
    rewrite <- firstn_map.
    rewrite (sort_map _ _ snd by_score_desc by_score_desc_tagged)
      by reflexivity.
    unfold F. rewrite <- filter_map_swap.
    unfold E. now rewrite map_snd_combine_seq.
  - intros i c. rewrite sort_In. unfold F. rewrite filter_In. simpl.
    split; intros [H Hm]; split; auto.
    + unfold E in H. apply combine_seq_In in H. destruct H as [_ H].
      rewrite Nat.sub_0_r in H. exact H.
    + apply (nth_error_combine_seq _ items 0 i c H).
  - apply sort_tagged_sorted.
    apply StronglySorted_filter, combine_seq_tags.
Qed.

(** C5. The matching candidates can be listed with their positions in the
    corpus, all of them and only them, so that each candidate stands before
    every later one either by a strictly higher score or, at equal score,
    by an earlier position in the corpus; the results are the projections
    of the first ten of that list. *)
Theorem ranking_is_stable :
  forall terms allArticles results,
    scoredResults terms allArticles = Normal results ->
    exists full : list (nat * scored),
      results = map (fun x => project (snd x)) (firstn 10 full)
      /\ (forall i c, In (i, c) full <->
                      scored_at terms allArticles i c
                      /\ allTermsMatch c = true)
      /\ StronglySorted precedes full.
Proof.
  intros terms allArticles results H. unfold scoredResults in H.
  destruct (map_in_order (score_article terms) allArticles)
    as [items| |w] eqn:Hs; simpl in H; try discriminate.
  injection H as <-.
  destruct (ranked_tagged items) as (full & Hr & Hin & Hsorted).
  exists full. split; [|split]; auto.
  - rewrite Hr, map_map. reflexivity.
  - apply map_in_order_Forall2 in Hs.
    intros i c. rewrite Hin. unfold scored_at.
    split; intros [H Hm]; split; auto.
    + destruct (Forall2_nth_error _ _ _ _ _ _ _ Hs H) as (a & Ha & Hsc).
      pose proof (score_article_inv _ _ _ Hsc) as [<- _].
      split; assumption.
    + destruct H as [Ha Hsc].
      destruct (nth_error_Forall2 _ _ _ _ _ _ _ Hs Ha) as (d & Hd & Hsd).
      congruence.
Qed.

Lemma ranking_is_stable_witness :
  scoredResults ["password"]
    [Examples.billing_faq; Examples.reset_password; Examples.billing_copy]
  = Normal (map project
              [mkScored Examples.reset_password 15 true;
               mkScored Examples.billing_faq 1 true;
               mkScored Examples.billing_copy 1 true])
  /\ exists full : list (nat * scored),
       map project
         [mkScored Examples.reset_password 15 true;
          mkScored Examples.billing_faq 1 true;
          mkScored Examples.billing_copy 1 true]
       = map (fun x => project (snd x)) (firstn 10 full)
       /\ StronglySorted precedes full.
Proof.
  split; [reflexivity|].
  destruct (ranking_is_stable ["password"]
              [Examples.billing_faq; Examples.reset_password;
               Examples.billing_copy]
              (map project
                 [mkScored Examples.reset_password 15 true;
                  mkScored Examples.billing_faq 1 true;
                  mkScored Examples.billing_copy 1 true]) eq_refl)
    as (full & Hr & _ & Hsorted).
  exists full. split; assumption.
Defined.

(** *** C3 *)

(** C3, at an input the scorer gets wrong. The token [.] hits the article (it
    is in the body) and does not occur in the title [a]; the sum of the
    claim is 1. The scorer still adds the whole-word bonus, because the
    token is pasted into the pattern as it is and [\b.\b] matches the
    title: the score is 6. *)
Theorem syntax_token_gets_bonus :
  all_hit ["."] Examples.dot_article
  /\ whole_word_in (lower_title Examples.dot_article) "." = false
  /\ claimed_score (lower_title Examples.dot_article)
       (lower_body Examples.dot_article) ["."] = 1%Z
  /\ score_article ["."] Examples.dot_article
     = Normal (mkScored Examples.dot_article 6 true)
  /\ score_article ["."] Examples.dot_article
     <> Normal (mkScored Examples.dot_article
                  (claimed_score (lower_title Examples.dot_article)
                     (lower_body Examples.dot_article) ["."]) true).
Proof.
  split; [intros t [<-|[]]; reflexivity|].
  repeat split; try reflexivity.
  discriminate.
Qed.

(* ================================================================= *)
(** ** Further properties of the search *)

From Stdlib Require Import Permutation.
Import Behaviour.

(** *** The tokens *)

Lemma lower_char_not_upper : forall c, is_upper (lower_char c) = false.
Proof.
  intros c. destruct c as [[] [] [] [] [] [] [] []]; reflexivity.
Qed.

Lemma lower_char_fixed : forall c, is_upper c = false -> lower_char c = c.
Proof.
  intros c H. unfold lower_char. now rewrite H.
Qed.

Lemma toLowerCase_idempotent :
  forall s, toLowerCase (toLowerCase s) = toLowerCase s.
Proof.
  induction s as [|c s IH]; simpl; auto.
  rewrite IH, (lower_char_fixed _ (lower_char_not_upper c)). reflexivity.
Qed.

Lemma forallb_rev_append :
  forall (P : ascii -> bool) cur s,
    forallb P (list_ascii_of_string (rev_append cur s))
    = forallb P (list_ascii_of_string cur)
      && forallb P (list_ascii_of_string s).
Proof.
  intros P cur; induction cur as [|c cur IH]; intros s; simpl; auto.
  rewrite IH. simpl. destruct (P c); simpl; auto.
  now rewrite andb_false_r.
Qed.

(** Every piece of the split is made of characters of the string that are
    not white space. *)
Lemma split_go_pieces :
  forall (P : ascii -> bool) s cur in_run,
    forallb P (list_ascii_of_string s) = true ->
    forallb (fun c => negb (is_space c) && P c)
            (list_ascii_of_string cur) = true ->
    Forall (fun piece =>
              forallb (fun c => negb (is_space c) && P c)
                      (list_ascii_of_string piece) = true)
           (split_go s cur in_run).
Proof.
  intros P s; induction s as [|c s IH]; intros cur in_run Hs Hcur; simpl.
  - constructor; [|constructor].
    rewrite forallb_rev_append, Hcur. reflexivity.
  - simpl in Hs. apply andb_prop in Hs. destruct Hs as [Hc Hs].
    destruct (is_space c) eqn:Hsp.
    + destruct in_run; [apply IH; auto|].
      constructor; [|apply IH; auto].
      rewrite forallb_rev_append, Hcur. reflexivity.
    + apply IH; auto. simpl. now rewrite Hsp, Hc, Hcur.
Qed.

Lemma append_empty_r : forall s : string, s ++ "" = s.
Proof.
  induction s as [|c s IH]; simpl; auto. now rewrite IH.
Qed.

Lemma rev_append_append :
  forall cur s t, rev_append cur s ++ t = rev_append cur (s ++ t).
Proof.
  induction cur as [|c cur IH]; intros s t; simpl; auto.
Qed.

Lemma concat_cons :
  forall piece pieces,
    String.concat "" (piece :: pieces) = piece ++ String.concat "" pieces.
Proof.
  intros piece [|p ps]; simpl; auto. now rewrite append_empty_r.
Qed.

(** The pieces, put together again, are the string without its white
    space. *)
Lemma split_go_concat :
  forall s cur in_run,
    (in_run = true -> cur = "") ->
    String.concat "" (split_go s cur in_run)
    = rev_append cur "" ++ without_spaces s.
Proof.
  induction s as [|c s IH]; intros cur in_run Hrun.
  - simpl. now rewrite append_empty_r.
  - simpl split_go. simpl without_spaces. destruct (is_space c).
    + destruct in_run.
      * rewrite (Hrun eq_refl). apply IH. reflexivity.
      * rewrite concat_cons, IH by reflexivity. reflexivity.
    + rewrite IH by discriminate. simpl rev_append.
      rewrite !rev_append_append. reflexivity.
Qed.

Lemma concat_nonempty :
  forall pieces,
    String.concat ""
      (filter (fun term => (0 <? String.length term)%nat) pieces)
    = String.concat "" pieces.
Proof.
  induction pieces as [|p ps IH]; auto.
  simpl filter. destruct (0 <? String.length p)%nat eqn:E.
  - rewrite !concat_cons, IH. reflexivity.
  - destruct p; [|discriminate E]. rewrite concat_cons. exact IH.
Qed.

(** X2. Every token is non-empty, contains no white space and is in lower
    case, and the tokens in order spell the lowercased query without its
    white space: the tokenizer drops white space and nothing else. *)
Theorem tokens_are_normalized :
  forall query,
    (forall t, In t (searchTerms query) ->
       t <> ""
       /\ forallb (fun c => negb (is_space c)) (list_ascii_of_string t) = true
       /\ toLowerCase t = t)
    /\ String.concat "" (searchTerms query)
       = without_spaces (toLowerCase query).
Proof.
  intros query. split.
  - intros t Ht. split; [eapply searchTerms_not_empty; eauto|].
    unfold searchTerms in Ht. apply filter_In in Ht. destruct Ht as [Ht _].
    assert (Hlow : forallb (fun c => negb (is_upper c))
                     (list_ascii_of_string (toLowerCase query)) = true).
    { clear. induction query as [|c q IH]; simpl; auto.
      now rewrite lower_char_not_upper, IH. }
    pose proof (split_go_pieces _ _ "" false Hlow eq_refl) as Hp.
    rewrite Forall_forall in Hp. specialize (Hp t Ht).
    clear Ht Hlow. induction t as [|c t IH]; simpl in *; auto.
    apply andb_prop in Hp. destruct Hp as [Hc Hp].
    apply andb_prop in Hc. destruct Hc as [Hsp Hup].
    destruct (IH Hp) as [Hs Hl]. rewrite Hsp, Hs, Hl.
    apply negb_true_iff in Hup. rewrite (lower_char_fixed _ Hup). auto.
  - unfold searchTerms, split_ws.
    rewrite concat_nonempty, split_go_concat by discriminate. reflexivity.
Qed.

Lemma tokens_are_normalized_witness :
  searchTerms "  Reset   MY password " = ["reset"; "my"; "password"]
  /\ String.concat "" (searchTerms "  Reset   MY password ")
     = "resetmypassword".
Proof.
  destruct (tokens_are_normalized "  Reset   MY password ") as [_ H].
  split; [reflexivity|]. rewrite H. reflexivity.
Defined.

(** X3. Two queries that differ only in the case of their letters get the
    same answer and cause the same requests. *)
Theorem query_case_is_ignored :
  forall fuel env fetch q1 q2,
    toLowerCase q1 = toLowerCase q2 ->
    faq_search fuel env fetch (QString q1)
    = faq_search fuel env fetch (QString q2).
Proof.
  intros fuel env fetch q1 q2 H.
  assert (Ht : searchTerms q1 = searchTerms q2)
    by (unfold searchTerms; now rewrite H).
  destruct q1 as [|c1 q1], q2 as [|c2 q2]; try discriminate H; auto.
  unfold faq_search.
  destruct (load fuel fetch (Some (first_page env)) []) as [loaded tr].
  destruct loaded as [allArticles| |w]; simpl; auto.
  unfold search_articles. rewrite Ht. reflexivity.
Qed.

Lemma query_case_is_ignored_witness :
  faq_search 5 None
    (Examples.one_page [Examples.reset_password; Examples.billing_faq])
    (QString "PassWord RESET")
  = faq_search 5 None
      (Examples.one_page [Examples.reset_password; Examples.billing_faq])
      (QString "password reset").
Proof.
  apply (query_case_is_ignored 5 None
           (Examples.one_page [Examples.reset_password; Examples.billing_faq])
           "PassWord RESET" "password reset" eq_refl).
Defined.

(** *** Scores *)

Lemma score_loop_bounds :
  forall title body terms s s' m,
    score_loop title body terms s = Normal (s', m) ->
    (s <= s' <= s + 16 * Z.of_nat (List.length terms))%Z
    /\ (m = true -> (s + Z.of_nat (List.length terms) <= s')%Z).
Proof.
  intros title body terms; induction terms as [|t terms IH];
    intros s s' m H.
  - injection H as <- <-. simpl. lia.
  - destruct (hits title body t) eqn:Hh.
    + rewrite score_loop_step in H by assumption.
      destruct (RegExp.test _ title) as [found| |]; try discriminate.
      apply IH in H. destruct H as [Hb Hm].
      assert (Hstep : forall x : Z,
                 (s + 1 <= (let s1 := if includes title t then s + 10 else s in
                            let s2 := if includes body t then s1 + 1 else s1 in
                            if found then s2 + 5 else s2) <= s + 16)%Z).
      { intros _. unfold hits in Hh.
        destruct (includes title t), (includes body t), found;
          simpl in *; try discriminate; lia. }
      specialize (Hstep 0%Z). cbv zeta in *.
      rewrite length_cons, Nat2Z.inj_succ. split; [lia|].
      intros Hmt. specialize (Hm Hmt). lia.
    + rewrite score_loop_miss in H by assumption.
      injection H as <- <-. rewrite length_cons, Nat2Z.inj_succ.
      split; [lia|discriminate].
Qed.

(** X4. A score is never negative and never more than 16 for each token;
    an article that matched every token scores at least 1 for each
    token. *)
Theorem score_is_bounded :
  forall terms a c,
    score_article terms a = Normal c ->
    (0 <= score c <= 16 * Z.of_nat (List.length terms))%Z
    /\ (allTermsMatch c = true ->
        (Z.of_nat (List.length terms) <= score c)%Z).
Proof.
  intros terms a c H. apply score_article_inv in H. destruct H as [_ H].
  apply score_loop_bounds in H. simpl in H. exact H.
Qed.

Lemma score_is_bounded_witness :
  (0 <= 30 <= 16 * Z.of_nat (List.length ["password"; "reset"]))%Z
  /\ (Z.of_nat (List.length ["password"; "reset"]) <= 30)%Z.
Proof.
  destruct (score_is_bounded ["password"; "reset"] Examples.reset_password
              (mkScored Examples.reset_password 30 true) eq_refl)
    as [Hb Hm].
  split; [exact Hb|]. exact (Hm eq_refl).
Defined.

(** *** The order of the tokens *)

Lemma literal_score_article :
  forall terms a,
    Forall (fun t => literal_token t = true) terms ->
    exists c,
      score_article terms a = Normal c
      /\ (allTermsMatch c = true -> all_hit terms a)
      /\ (all_hit terms a ->
          c = mkScored a
                (claimed_score (lower_title a) (lower_body a) terms) true).
Proof.
  intros terms a Hlit.
  destruct (score_loop_literal_returns (lower_title a) (lower_body a)
              terms 0%Z Hlit) as [r Hr].
  exists (mkScored a (fst r) (snd r)).
  assert (Hs : score_article terms a = Normal (mkScored a (fst r) (snd r))).
  { unfold score_article. fold (lower_title a). fold (lower_body a).
    rewrite Hr. reflexivity. }
  split; [exact Hs|]. split.
  - intros Hm. eapply score_article_matched; eauto.
  - intros Hall. rewrite (literal_tokens_score terms a Hlit Hall) in Hs.
    congruence.
Qed.

Lemma claimed_score_permutation :
  forall title body terms terms',
    Permutation terms terms' ->
    claimed_score title body terms = claimed_score title body terms'.
Proof.
  intros title body terms terms' H. unfold claimed_score.
  generalize 0%Z.
  induction H as [|t l l' _ IH|t u l|l l' l'' _ IH1 _ IH2];
    intros s; simpl; auto.
  - f_equal. lia.
  - now rewrite IH1, IH2.
Qed.

Lemma all_hit_permutation :
  forall terms terms' a,
    Permutation terms terms' -> all_hit terms a -> all_hit terms' a.
Proof.
  intros terms terms' a H Hall t Ht. apply Hall.
  eapply Permutation_in; [apply Permutation_sym|]; eauto.
Qed.

Lemma matching_items_permutation :
  forall terms terms' allArticles,
    Forall (fun t => literal_token t = true) terms ->
    Permutation terms terms' ->
    exists items items',
      map_in_order (score_article terms) allArticles = Normal items
      /\ map_in_order (score_article terms') allArticles = Normal items'
      /\ filter allTermsMatch items = filter allTermsMatch items'.
Proof.
  intros terms terms' allArticles Hlit Hperm.
  assert (Hlit' : Forall (fun t => literal_token t = true) terms')
    by (eapply Permutation_Forall; eauto).
  induction allArticles as [|a arts (items & items' & H1 & H2 & Hf)].
  - exists [], []. auto.
  - destruct (literal_score_article terms a Hlit) as (c & Hc & Hm & Hall).
    destruct (literal_score_article terms' a Hlit')
      as (c' & Hc' & Hm' & Hall').
    exists (c :: items), (c' :: items'). simpl.
    rewrite Hc, Hc', H1, H2. simpl. repeat split.
    destruct (allTermsMatch c) eqn:Ec, (allTermsMatch c') eqn:Ec'.
    + pose proof (Hm eq_refl) as Ha.
      rewrite (Hall Ha).
      rewrite (Hall' (all_hit_permutation _ _ _ Hperm Ha)).
      rewrite (claimed_score_permutation _ _ _ _ Hperm), Hf. reflexivity.
    + pose proof (Hm eq_refl) as Ha.
      rewrite (Hall' (all_hit_permutation _ _ _ Hperm Ha)) in Ec'.
      discriminate.
    + pose proof (Hm' eq_refl) as Ha.
      rewrite (Hall (all_hit_permutation _ _ _ (Permutation_sym Hperm) Ha))
        in Ec.
      discriminate.
    + exact Hf.
Qed.

(** X5. When no token contains a syntax character of patterns, the order of
    the tokens in the query does not change the results. *)
Theorem token_order_is_irrelevant :
  forall terms terms' allArticles,
    Forall (fun t => literal_token t = true) terms ->
    Permutation terms terms' ->
    scoredResults terms allArticles = scoredResults terms' allArticles.
Proof.
  intros terms terms' allArticles Hlit Hperm.
  destruct (matching_items_permutation terms terms' allArticles Hlit Hperm)
    as (items & items' & H1 & H2 & Hf).
  unfold scoredResults, ranked. rewrite H1, H2. simpl. now rewrite Hf.
Qed.

Lemma token_order_is_irrelevant_witness :
  scoredResults ["password"; "reset"]
    [Examples.billing_faq; Examples.reset_password]
  = scoredResults ["reset"; "password"]
      [Examples.billing_faq; Examples.reset_password].
Proof.
  apply (token_order_is_irrelevant ["password"; "reset"]
           ["reset"; "password"]
           [Examples.billing_faq; Examples.reset_password]).
  - repeat constructor.
  - apply perm_swap.
Defined.

(** *** Titles before bodies *)

Lemma startsWith_append : forall t rest, startsWith (t ++ rest) t = true.
Proof.
  induction t as [|c t IH]; intros rest; simpl.
  - destruct rest; reflexivity.
  - now rewrite Ascii.eqb_refl, IH.
Qed.

Lemma includes_append :
  forall pre t rest, includes (pre ++ t ++ rest) t = true.
Proof.
  assert (Hunfold : forall s t,
             includes s t
             = startsWith s t
               || match s with
                  | EmptyString => false
                  | String _ s' => includes s' t
                  end)
    by (intros [|c s] t; reflexivity).
  induction pre as [|c pre IH]; intros t rest.
  - simpl append. now rewrite Hunfold, startsWith_append.
  - simpl. rewrite IH. apply orb_true_r.
Qed.

(** A whole-word occurrence is an occurrence. *)
Lemma whole_word_in_includes :
  forall s t, whole_word_in s t = true -> includes s t = true.
Proof.
  intros s t H. apply whole_word_in_split in H.
  destruct H as (pre & rest & -> & _). apply includes_append.
Qed.

Lemma fold_points_at_least :
  forall (g : string -> Z) (k : Z) terms s,
    (forall t, In t terms -> (k <= g t)%Z) ->
    (s + k * Z.of_nat (List.length terms)
     <= fold_left (fun acc t => (acc + g t)%Z) terms s)%Z.
Proof.
  intros g k terms; induction terms as [|t terms IH]; intros s H.
  - simpl. lia.
  - simpl fold_left. rewrite length_cons, Nat2Z.inj_succ.
    specialize (IH (s + g t)%Z (fun u Hu => H u (or_intror Hu))).
    specialize (H t (or_introl eq_refl)). lia.
Qed.

Lemma fold_points_exactly :
  forall (g : string -> Z) (k : Z) terms s,
    (forall t, In t terms -> g t = k) ->
    fold_left (fun acc t => (acc + g t)%Z) terms s
    = (s + k * Z.of_nat (List.length terms))%Z.
Proof.
  intros g k terms; induction terms as [|t terms IH]; intros s H.
  - simpl. lia.
  - simpl fold_left. rewrite length_cons, Nat2Z.inj_succ.
    rewrite (IH (s + g t)%Z (fun u Hu => H u (or_intror Hu))).
    rewrite (H t (or_introl eq_refl)). lia.
Qed.

(** X6. When no token contains a syntax character of patterns, an article
    whose title contains every token scores at least 10 for each token,
    an article that matches through its body alone scores exactly 1 for
    each token, and so the first scores strictly more than the second. *)
Theorem title_matches_outscore_body_matches :
  forall terms a b,
    terms <> [] ->
    Forall (fun t => literal_token t = true) terms ->
    title_has_all terms a ->
    all_hit terms b ->
    title_has_none terms b ->
    exists sa sb,
      score_article terms a = Normal (mkScored a sa true)
      /\ score_article terms b = Normal (mkScored b sb true)
      /\ (10 * Z.of_nat (List.length terms) <= sa)%Z
      /\ sb = Z.of_nat (List.length terms)
      /\ (sb < sa)%Z.
Proof.
  intros terms a b Hne Hlit Ha Hb Hnone.
  assert (Hall : all_hit terms a).
  { intros t Ht. unfold hits, lower_title. now rewrite (Ha t Ht). }
  exists (claimed_score (lower_title a) (lower_body a) terms),
         (claimed_score (lower_title b) (lower_body b) terms).
  split; [now apply literal_tokens_score|].
  split; [now apply literal_tokens_score|].
  assert (Hsa : (10 * Z.of_nat (List.length terms)
                 <= claimed_score (lower_title a) (lower_body a) terms)%Z).
  { unfold claimed_score.
    pose proof (fold_points_at_least
                  (term_points (lower_title a) (lower_body a)) 10 terms 0)
      as H.
    simpl in H. apply H. intros t Ht. unfold term_points, lower_title.
    rewrite (Ha t Ht).
    destruct (includes _ t), (whole_word_in _ t); lia. }
  assert (Hsb : claimed_score (lower_title b) (lower_body b) terms
                = Z.of_nat (List.length terms)).
  { unfold claimed_score.
    rewrite (fold_points_exactly
               (term_points (lower_title b) (lower_body b)) 1); [lia|].
    intros t Ht. unfold term_points.
    pose proof (Hb t Ht) as Hh. unfold hits in Hh.
    pose proof (Hnone t Ht) as Hn. fold (lower_title b) in Hn.
    rewrite Hn in *. simpl in Hh. rewrite Hh.
    destruct (whole_word_in (lower_title b) t) eqn:Hw; [|reflexivity].
    apply whole_word_in_includes in Hw. congruence. }
  repeat split; auto.
  rewrite Hsb. destruct terms as [|t terms]; [congruence|].
  rewrite length_cons, Nat2Z.inj_succ in *. lia.
Qed.

Lemma title_matches_outscore_body_matches_witness :
  exists sa sb,
    score_article ["password"; "reset"] Examples.reset_password
    = Normal (mkScored Examples.reset_password sa true)
    /\ score_article ["password"; "reset"] Examples.billing_faq
       = Normal (mkScored Examples.billing_faq sb true)
    /\ (sb < sa)%Z.
Proof.
  destruct (title_matches_outscore_body_matches ["password"; "reset"]
              Examples.reset_password Examples.billing_faq)
    as (sa & sb & Ha & Hb & _ & _ & Hlt).
  - discriminate.
  - repeat constructor.
  - intros t [<-|[<-|[]]]; reflexivity.
  - intros t [<-|[<-|[]]]; reflexivity.
  - intros t [<-|[<-|[]]]; reflexivity.
  - exists sa, sb. auto.
Defined.

(** *** Answers *)

(** X7. Whatever the content source does, an answer of the handler is the
    400 of the guard, the 500 of the catch block, or 200 with a results
    array and its length; no upstream status is passed on, and no
    exception leaves the handler. *)
Theorem answer_is_400_500_or_results :
  forall fuel env fetch q,
    fst (faq_search fuel env fetch q) <> Throw
    /\ forall r,
         fst (faq_search fuel env fetch q) = Normal r ->
         r = bad_request
         \/ r = internal_error
         \/ exists results,
              r = mkResponse 200 (SearchBody results (List.length results))
              /\ List.length results <= 10.
Proof.
  intros fuel env fetch q.
  destruct q as [|[|c s]|]; simpl;
    try solve [split; [discriminate|intros r H; injection H as <-; auto]].
  destruct (load fuel fetch (Some (first_page env)) []) as [loaded tr].
  destruct loaded as [allArticles| |w]; simpl;
    try solve [split; [discriminate|
                       intros r H; first [discriminate H|
                                          injection H as <-; auto]]].
  unfold search_articles, scoredResults.
  destruct (map_in_order _ allArticles) as [items| |w]; simpl;
    try solve [split; [discriminate|
                       intros r H; first [discriminate H|
                                          injection H as <-; auto]]].
  split; [discriminate|]. intros r H. injection H as <-.
  right. right. eexists. split; [reflexivity|].
  unfold ranked. rewrite length_map. apply firstn_le_length.
Qed.

(** X8. When the first token occurs in no article, the answer is 200 with no
    results, whatever characters the tokens contain: a pattern is only
    built for a token that hits. *)
Theorem absent_first_token_gives_no_results :
  forall query t rest allArticles,
    searchTerms query = t :: rest ->
    (forall a, In a allArticles ->
               hits (lower_title a) (lower_body a) t = false) ->
    search_articles query allArticles
    = Normal (mkResponse 200 (SearchBody [] 0)).
Proof.
  intros query t rest allArticles Ht Hmiss.
  unfold search_articles, scoredResults. rewrite Ht.
  assert (Hs : map_in_order (score_article (t :: rest)) allArticles
               = Normal (map (fun a => mkScored a 0 false) allArticles)).
  { induction allArticles as [|a arts IH]; simpl; auto.
    unfold score_article at 1. fold (lower_title a). fold (lower_body a).
    rewrite score_loop_miss by (apply Hmiss; now left). simpl.
    rewrite IH by (intros b Hb; apply Hmiss; now right). reflexivity. }
  rewrite Hs. simpl. rewrite ranked_none; [reflexivity|].
  intros c Hc. apply in_map_iff in Hc. destruct Hc as (a & <- & _).
  reflexivity.
Qed.

Lemma absent_first_token_gives_no_results_witness :
  search_articles "c++ (templates"
    [Examples.reset_password; Examples.billing_faq]
  = Normal (mkResponse 200 (SearchBody [] 0)).
Proof.
  apply (absent_first_token_gives_no_results "c++ (templates" "c++"
           ["(templates"] [Examples.reset_password; Examples.billing_faq]
           eq_refl).
  intros a [<-|[<-|[]]]; reflexivity.
Defined.

(** X9. A query in which no token contains a syntax character of patterns is
    always answered with 200 and a results array once the corpus is
    loaded. *)
Theorem plain_query_is_answered :
  forall fuel env fetch query allArticles tr,
    query <> "" ->
    Forall (fun t => literal_token t = true) (searchTerms query) ->
    load fuel fetch (Some (first_page env)) [] = (Normal allArticles, tr) ->
    exists results,
      faq_search fuel env fetch (QString query)
      = (Normal (mkResponse 200 (SearchBody results (List.length results))),
         tr).
Proof.
  intros fuel env fetch query allArticles tr Hq Hlit Hl.
  destruct (literal_terms_always_scored _ allArticles Hlit) as [items Hi].
  exists (map project (ranked items)).
  rewrite (faq_search_loaded _ _ _ _ _ _ Hq Hl).
  unfold search_articles, scoredResults. rewrite Hi. reflexivity.
Qed.

Lemma plain_query_is_answered_witness :
  exists results,
    faq_search 5 None
      (Examples.one_page [Examples.reset_password; Examples.cpp_tips])
      (QString "c-- tips")
    = (Normal (mkResponse 200 (SearchBody results (List.length results))),
       [Requested (first_page None)]).
Proof.
  apply (plain_query_is_answered 5 None
           (Examples.one_page [Examples.reset_password; Examples.cpp_tips])
           "c-- tips" [Examples.reset_password; Examples.cpp_tips]
           [Requested (first_page None)]).
  - discriminate.
  - repeat constructor.
  - reflexivity.
Defined.

(** *** Exceptions while loading *)

Lemma load_serves_then_throws :
  forall pages fetch url acc fuel,
    serves_then_throws fetch url pages ->
    truthy (Some url) = true ->
    List.length pages < fuel ->
    load fuel fetch (Some url) acc
    = (Throw,
       (map Requested (locators url pages)
        ++ [Requested (last_locator url pages)])%list).
Proof.
  induction pages as [|p rest IH]; intros fetch url acc fuel Hs Hu Hf;
    destruct (truthy_String _ Hu) as (c & u' & ->);
    (destruct fuel as [|fuel]; [simpl in Hf; lia|]).
  - simpl load. destruct Hs as [Hfetch|[st Hfetch]]; rewrite Hfetch;
      reflexivity.
  - destruct Hs as [[st' Hfetch] (u & Hn & Hut & Hrest)].
    simpl load. rewrite Hfetch. simpl negb. cbv iota.
    rewrite Hn.
    rewrite (IH fetch u (acc ++ or_nil (articles p))%list fuel Hrest Hut)
      by (simpl in *; lia).
    simpl locators. simpl last_locator. rewrite ?Hn. reflexivity.
Qed.

(** X10. When a page request rejects, or a page with a success status has a
    body that is not JSON, the documents of the pages received before it
    are dropped: the exception is written to the console and the answer is
    500. *)
Theorem page_exception_is_500 :
  forall fuel env fetch pages query,
    serves_then_throws fetch (first_page env) pages ->
    List.length pages < fuel ->
    query <> "" ->
    faq_search fuel env fetch (QString query)
    = (Normal internal_error,
       (map Requested (locators (first_page env) pages)
        ++ [Requested (last_locator (first_page env) pages);
            ConsoleError "FAQ search error:" None])%list).
Proof.
  intros fuel env fetch pages [|c s] Hs Hf Hq; [congruence|].
  unfold faq_search.
  rewrite (load_serves_then_throws pages fetch (first_page env) [] fuel Hs
             (first_page_truthy env) Hf).
  simpl. rewrite <- app_assoc. reflexivity.
Qed.

Lemma page_exception_is_500_witness :
  fst (faq_search 3 None MoreExamples.second_page_rejects
         (QString "article"))
  = Normal internal_error.
Proof.
  assert (Hs : serves_then_throws MoreExamples.second_page_rejects
                 (first_page None) [Examples.page1]).
  { simpl. split; [exists 200; reflexivity|].
    exists "page-2". repeat split. now left. }
  assert (Hq : "article" <> "") by discriminate.
  rewrite (page_exception_is_500 3 None MoreExamples.second_page_rejects
             [Examples.page1] "article" Hs (le_S _ _ (le_n 2)) Hq).
  reflexivity.
Defined.

(* ================================================================= *)
(** ** The pass-through handlers *)

Import Json Api ApiSpec.

(** *** Reading properties *)

Lemma get_not_nullish :
  forall v key, nullish v = false -> get v key = Ok (property v key).
Proof.
  intros [| | | | | |] key H; try discriminate H; reflexivity.
Qed.

Lemma truthy_not_nullish : forall v, truthy v = true -> nullish v = false.
Proof.
  intros [| | | | | |] H; try discriminate H; reflexivity.
Qed.

Lemma pick_restrict :
  forall names v, nullish v = false -> pick names v = Ok (restrict names v).
Proof.
  intros names v H. unfold pick, restrict.
  assert (Ht : traverse (fun k => x <~ get v k ;; Ok (k, x)) names
               = Ok (map (fun k => (k, property v k)) names)).
  { induction names as [|k names IH]; simpl; auto.
    rewrite (get_not_nullish v k H). simpl. rewrite IH. reflexivity. }
  rewrite Ht. reflexivity.
Qed.

Lemma traverse_all :
  forall (f : value -> outcome value) (g : value -> value) items,
    (forall v, In v items -> f v = Ok (g v)) ->
    traverse f items = Ok (map g items).
Proof.
  intros f g items; induction items as [|v items IH]; intros H; simpl; auto.
  rewrite (H v) by now left. simpl.
  rewrite IH by (intros w Hw; apply H; now right). reflexivity.
Qed.

(** *** One request, and its failure *)

Lemma listing_failure :
  forall label r key name view failure up st data,
    up r = Responds st data ->
    ok st = false ->
    run (listing label r key name view failure up)
    = (Ok (mkReply st (error failure)), [Fetched r]).
Proof.
  intros label r key name view failure up st data Hup Hok.
  unfold run, listing, try_catch, seq_io, fetch. rewrite Hup. simpl.
  rewrite Hok. reflexivity.
Qed.

Lemma single_failure :
  forall label r key names failure up st data,
    up r = Responds st data ->
    ok st = false ->
    run (single label r key names failure up)
    = (Ok (mkReply st (error failure)), [Fetched r]).
Proof.
  intros label r key names failure up st data Hup Hok.
  unfold run, single, try_catch, seq_io, fetch. rewrite Hup. simpl.
  rewrite Hok. reflexivity.
Qed.

Lemma ticket_form_failure :
  forall e formId up st data,
    up (form_request e formId) = Responds st data ->
    ok st = false ->
    run (ticket_form e formId up)
    = (Ok (mkReply st (error "Could not fetch ticket form")),
       [Fetched (form_request e formId)]).
Proof.
  intros e formId up st data Hup Hok.
  unfold run, ticket_form, try_catch, seq_io, fetch. rewrite Hup. simpl.
  rewrite Hok. reflexivity.
Qed.

(** X11. When Zendesk answers the (first) request of a reading handler with a
    status outside 200..299, the handler answers with that same status and
    its own fixed message, makes no further request and logs nothing; the
    body of the Zendesk response is not passed on. *)
Theorem failure_status_is_passed_on :
  forall e id r failure h up st data,
    In (r, failure, h) (public_handlers e id ++ form_handlers e id) ->
    up r = Responds st data ->
    ok st = false ->
    run (h up) = (Ok (mkReply st (error failure)), [Fetched r]).
Proof.
  intros e id r failure h up st data Hin Hup Hok.
  simpl in Hin.
  repeat (destruct Hin as [Hin|Hin];
          [injection Hin as <- <- <-;
           first [eapply listing_failure; eassumption
                 |eapply single_failure; eassumption
                 |eapply ticket_form_failure; eassumption]|]).
  destruct Hin.
Qed.

Lemma failure_status_is_passed_on_witness :
  run (article ApiExamples.configured "42"
         (ApiExamples.always 404 (Some (VStr "upstream says no"))))
  = (Ok (mkReply 404 (error "Could not fetch article")),
     [Fetched
        (get_public
           "https://pdi-happibean-b2b.zendesk.com/api/v2/help_center/en-gb/articles/42.json")]).
Proof.
  apply (failure_status_is_passed_on ApiExamples.configured "42"
           (get_public (ZENDESK_B2B_URL ApiExamples.configured
                        ++ "/api/v2/help_center/en-gb/articles/"
                        ++ "42" ++ ".json"))
           "Could not fetch article" (article ApiExamples.configured "42")
           (ApiExamples.always 404 (Some (VStr "upstream says no")))
           404 (Some (VStr "upstream says no"))).
  - simpl. do 5 right. left. reflexivity.
  - reflexivity.
  - reflexivity.
Defined.

(** *** Who gets the credentials *)

Lemma listing_trace :
  forall label r key name view failure up,
    snd (run (listing label r key name view failure up)) = [Fetched r]
    \/ snd (run (listing label r key name view failure up))
       = [Fetched r; Logged label].
Proof.
  intros label r key name view failure up.
  unfold run, listing, try_catch, seq_io, fetch, json, lift, ret.
  destruct (up r) as [|st data]; simpl; auto.
  destruct (ok st); simpl; auto.
  destruct data as [data|]; simpl; auto.
  destruct (get data key) as [listed| |]; simpl; auto.
  destruct (opt_map view listed); simpl; auto.
Qed.

Lemma single_trace :
  forall label r key names failure up,
    snd (run (single label r key names failure up)) = [Fetched r]
    \/ snd (run (single label r key names failure up))
       = [Fetched r; Logged label].
Proof.
  intros label r key names failure up.
  unfold run, single, try_catch, seq_io, fetch, json, lift, ret.
  destruct (up r) as [|st data]; simpl; auto.
  destruct (ok st); simpl; auto.
  destruct data as [data|]; simpl; auto.
  destruct (get data key) as [item| |]; simpl; auto.
  destruct (truthy item); simpl; auto.
  destruct (pick names item); simpl; auto.
Qed.

Lemma listing_one_request :
  forall label r key name view failure up,
    snd (run (listing label r key name view failure up)) = [Fetched r]
    \/ exists l,
         snd (run (listing label r key name view failure up))
         = [Fetched r; Logged l].
Proof.
  intros. destruct (listing_trace label r key name view failure up) as [H|H];
    [left|right; eexists]; exact H.
Qed.

Lemma single_one_request :
  forall label r key names failure up,
    snd (run (single label r key names failure up)) = [Fetched r]
    \/ exists l,
         snd (run (single label r key names failure up))
         = [Fetched r; Logged l].
Proof.
  intros. destruct (single_trace label r key names failure up) as [H|H];
    [left|right; eexists]; exact H.
Qed.

(** X12. A handler of the public help center makes exactly one request, a GET
    to the help-center host without an Authorization header and without a
    body, whatever Zendesk answers; the only other effect it can have is
    one line on the console. *)
Theorem help_center_requests_are_anonymous :
  forall e id r failure h up,
    In (r, failure, h) (public_handlers e id) ->
    (snd (run (h up)) = [Fetched r]
     \/ exists label, snd (run (h up)) = [Fetched r; Logged label])
    /\ method r = "GET"
    /\ headers r = None
    /\ body r = None
    /\ JsString.startsWith (url r) (ZENDESK_B2B_URL e) = true.
Proof.
  intros e id r failure h up Hin. simpl in Hin.
  repeat (destruct Hin as [Hin|Hin];
          [injection Hin as <- <- <-;
           split;
           [first [apply listing_one_request|apply single_one_request]
           |repeat split; apply startsWith_append]|]).
  destruct Hin.
Qed.

Lemma help_center_requests_are_anonymous_witness :
  snd (run (sections ApiExamples.configured "9"
              (ApiExamples.always 200 None)))
  = [Fetched
       (get_public
          "https://pdi-happibean-b2b.zendesk.com/api/v2/help_center/en-gb/categories/9/sections.json");
     Logged "Sections fetch error:"].
Proof.
  destruct (help_center_requests_are_anonymous ApiExamples.configured "9"
              (get_public
                 (ZENDESK_B2B_URL ApiExamples.configured
                  ++ "/api/v2/help_center/en-gb/categories/"
                  ++ "9" ++ "/sections.json"))
              "Could not fetch sections"
              (sections ApiExamples.configured "9")
              (ApiExamples.always 200 None))
    as [[H|[l H]] _].
  - simpl. right. left. reflexivity.
  - discriminate H.
  - reflexivity.
Defined.

(** *** What is passed through *)

Lemma listing_ok :
  forall label r key name names failure up st data,
    up r = Responds st (Some data) ->
    ok st = true ->
    nullish data = false ->
    (forall items,
        property data key = VArr items ->
        (forall v, In v items -> nullish v = false) ->
        run (listing label r key name (pick names) failure up)
        = (Ok (mkReply 200
                 (VObj [(name, VArr (map (restrict names) items))])),
           [Fetched r]))
    /\ (nullish (property data key) = true ->
        run (listing label r key name (pick names) failure up)
        = (Ok (mkReply 200 (VObj [(name, VArr [])])), [Fetched r])).
Proof.
  intros label r key name names failure up st data Hup Hok Hdata.
  unfold run, listing, try_catch, seq_io, fetch, json, lift, ret.
  rewrite Hup. simpl. rewrite Hok. simpl.
  rewrite (get_not_nullish data key Hdata). split.
  - intros items Hitems Hall. rewrite Hitems. simpl.
    rewrite (traverse_all (pick names) (restrict names) items)
      by (intros v Hv; apply pick_restrict; auto).
    reflexivity.
  - intros Hnull. destruct (property data key); try discriminate Hnull;
      reflexivity.
Qed.

(** X13. A listing handler answers a successful Zendesk response with 200 and
    one array: each element of the Zendesk array, in order, reduced to the
    property names of the handler, so that no other property of the Zendesk
    object reaches the client; when the Zendesk document has no such array
    (missing or [null]), the array is empty. The array is sent under the
    key it is read from, except that of [ticket_forms], which is sent as
    [forms]. *)
Theorem listing_keeps_named_properties :
  forall e id r key name names h up st data,
    In (r, key, name, names, h) (listing_replies e id) ->
    up r = Responds st (Some data) ->
    ok st = true ->
    nullish data = false ->
    (forall items,
        property data key = VArr items ->
        (forall v, In v items -> nullish v = false) ->
        run (h up)
        = (Ok (mkReply 200
                 (VObj [(name, VArr (map (restrict names) items))])),
           [Fetched r]))
    /\ (nullish (property data key) = true ->
        run (h up)
        = (Ok (mkReply 200 (VObj [(name, VArr [])])), [Fetched r]))
    /\ (name = key \/ (key = "ticket_forms" /\ name = "forms")).
Proof.
  intros e id r key name names h up st data Hin Hup Hok Hdata.
  simpl in Hin.
  repeat (destruct Hin as [Hin|Hin];
          [injection Hin as <- <- <- <- <-;
           apply (proj1 (and_assoc _ _ _)); split;
           [eapply listing_ok; eassumption|auto]|]).
  destruct Hin.
Qed.

Lemma listing_keeps_named_properties_witness :
  run (ticket_forms ApiExamples.configured
         (ApiExamples.always 200 (Some ApiExamples.one_form)))
  = (Ok (mkReply 200 ApiExamples.one_form_view),
     [Fetched
        (get_private ApiExamples.configured
           "https://acme.zendesk.com/api/v2/ticket_forms.json?active=true&end_user_visible=true")]).
Proof.
  assert (Hin : In (get_private ApiExamples.configured
                      (ZENDESK_BASE_URL ApiExamples.configured
                       ++ "/api/v2/ticket_forms.json?active=true&end_user_visible=true"),
                    "ticket_forms", "forms",
                    ["id"; "name"; "display_name"; "active"; "default";
                     "ticket_field_ids"],
                    ticket_forms ApiExamples.configured)
                   (listing_replies ApiExamples.configured ""))
    by (simpl; do 3 right; left; reflexivity).
  destruct (listing_keeps_named_properties ApiExamples.configured ""
              _ _ _ _ _
              (ApiExamples.always 200 (Some ApiExamples.one_form))
              200 ApiExamples.one_form Hin eq_refl eq_refl eq_refl)
    as (H & _ & _).
  rewrite (H _ eq_refl).
  - reflexivity.
  - intros v [<-|[]]; reflexivity.
Defined.

Lemma traverse_pick_null :
  forall names items,
    names <> [] ->
    (exists v, In v items /\ nullish v = true) ->
    traverse (pick names) items = Raise.
Proof.
  intros names items Hnames; induction items as [|w items IH];
    intros (v & Hv & Hn).
  - destruct Hv.
  - simpl. destruct (nullish w) eqn:Hw.
    + destruct names as [|k names]; [congruence|].
      destruct w; try discriminate Hw; reflexivity.
    + rewrite (pick_restrict names w Hw). simpl.
      destruct Hv as [->|Hv]; [congruence|].
      rewrite IH by eauto. reflexivity.
Qed.

Lemma listing_malformed :
  forall label r key name names failure up,
    names <> [] ->
    up r = Rejects
    \/ (exists st, ok st = true /\ up r = Responds st None)
    \/ (exists st data,
          ok st = true /\ up r = Responds st (Some data)
          /\ (nullish data = true
              \/ (exists items v,
                    property data key = VArr items
                    /\ In v items /\ nullish v = true)
              \/ (nullish (property data key) = false
                  /\ is_array (property data key) = false))) ->
    run (listing label r key name (pick names) failure up)
    = (Ok (mkReply 500 (error "Internal server error")),
       [Fetched r; Logged label]).
Proof.
  intros label r key name names failure up Hnames H.
  unfold run, listing, try_catch, seq_io, fetch, json, lift, ret.
  destruct H as [Hup|[(st & Hok & Hup)|(st & data & Hok & Hup & H)]];
    rewrite Hup; simpl; rewrite ?Hok; simpl; auto.
  destruct H as [Hn|[(items & v & Hitems & Hv & Hn)|[Hn Ha]]].
  - destruct data; try discriminate Hn; reflexivity.
  - destruct (nullish data) eqn:Hd.
    + destruct data; try discriminate Hd; reflexivity.
    + rewrite (get_not_nullish data key Hd), Hitems. simpl.
      rewrite (traverse_pick_null names items) by eauto. reflexivity.
  - destruct (nullish data) eqn:Hd.
    + destruct data; try discriminate Hd; reflexivity.
    + rewrite (get_not_nullish data key Hd).
      destruct (property data key); try discriminate Hn;
        try discriminate Ha; reflexivity.
Qed.

(** X14. A listing handler answers 500 with the fixed message and writes one
    line to the console when the request rejects, when a successful
    response has a body that is not JSON or is [null], when the value under
    the key is neither an array nor missing, or when a single element of
    the array is [null]: nothing of the other elements is sent. *)
Theorem malformed_listing_is_500 :
  forall e id r key names h up,
    In (r, key, names, h) (listings e id) ->
    up r = Rejects
    \/ (exists st, ok st = true /\ up r = Responds st None)
    \/ (exists st data,
          ok st = true /\ up r = Responds st (Some data)
          /\ (nullish data = true
              \/ (exists items v,
                    property data key = VArr items
                    /\ In v items /\ nullish v = true)
              \/ (nullish (property data key) = false
                  /\ is_array (property data key) = false))) ->
    exists label,
      run (h up)
      = (Ok (mkReply 500 (error "Internal server error")),
         [Fetched r; Logged label]).
Proof.
  intros e id r key names h up Hin H. simpl in Hin.
  repeat (destruct Hin as [Hin|Hin];
          [injection Hin as <- <- <- <-;
           eexists; eapply listing_malformed;
           [discriminate|eassumption]|]).
  destruct Hin.
Qed.

Lemma malformed_listing_is_500_witness :
  run (articles ApiExamples.configured "5"
         (ApiExamples.always 200
            (Some (VObj [("articles",
                          VArr [VObj [("id", VNum 1)]; VNull])]))))
  = (Ok (mkReply 500 (error "Internal server error")),
     [Fetched
        (get_public
           "https://pdi-happibean-b2b.zendesk.com/api/v2/help_center/en-gb/sections/5/articles.json");
      Logged "Articles fetch error:"]).
Proof.
  assert (Hin : In (get_public
                      (ZENDESK_B2B_URL ApiExamples.configured
                       ++ "/api/v2/help_center/en-gb/sections/"
                       ++ "5" ++ "/articles.json"),
                    "articles",
                    ["id"; "title"; "body"; "html_url"; "section_id"],
                    articles ApiExamples.configured "5")
                   (listings ApiExamples.configured "5"))
    by (simpl; do 2 right; left; reflexivity).
  destruct (malformed_listing_is_500 ApiExamples.configured "5" _ _ _ _
              (ApiExamples.always 200
                 (Some (VObj [("articles",
                               VArr [VObj [("id", VNum 1)]; VNull])])))
              Hin)
    as [label H].
  - right. right. exists 200. eexists. split; [reflexivity|].
    split; [reflexivity|]. right. left.
    exists [VObj [("id", VNum 1)]; VNull], VNull.
    repeat split. right. now left.
  - rewrite H. f_equal. f_equal.
    assert (Hl : snd (run (articles ApiExamples.configured "5"
                        (ApiExamples.always 200
                           (Some (VObj [("articles",
                                         VArr [VObj [("id", VNum 1)];
                                               VNull])])))))
                 = [Fetched
                      (get_public
                         (ZENDESK_B2B_URL ApiExamples.configured
                          ++ "/api/v2/help_center/en-gb/sections/"
                          ++ "5" ++ "/articles.json"));
                    Logged "Articles fetch error:"]) by reflexivity.
    rewrite H in Hl. simpl in Hl. injection Hl as <-. reflexivity.
Defined.

Lemma single_ok :
  forall label r key names failure up st data,
    up r = Responds st (Some data) ->
    ok st = true ->
    nullish data = false ->
    (truthy (property data key) = true ->
     run (single label r key names failure up)
     = (Ok (mkReply 200
              (VObj [(key, restrict names (property data key))])),
        [Fetched r]))
    /\ (truthy (property data key) = false ->
        run (single label r key names failure up)
        = (Ok (mkReply 200 (VObj [(key, VNull)])), [Fetched r])).
Proof.
  intros label r key names failure up st data Hup Hok Hdata.
  unfold run, single, try_catch, seq_io, fetch, json, lift, ret.
  rewrite Hup. simpl. rewrite Hok. simpl.
  rewrite (get_not_nullish data key Hdata). split; intros Ht; rewrite Ht.
  - rewrite (pick_restrict names _ (truthy_not_nullish _ Ht)). reflexivity.
  - reflexivity.
Qed.

(** X15. A single-item handler answers a successful Zendesk response with 200
    and the item reduced to the property names of the handler; when the
    document has no item under the key, or a falsy one, the item in the
    answer is [null]. *)
Theorem single_item_is_reduced_or_null :
  forall e id r key names h up st data,
    In (r, key, names, h) (singles e id) ->
    up r = Responds st (Some data) ->
    ok st = true ->
    nullish data = false ->
    (truthy (property data key) = true ->
     run (h up)
     = (Ok (mkReply 200
              (VObj [(key, restrict names (property data key))])),
        [Fetched r]))
    /\ (truthy (property data key) = false ->
        run (h up)
        = (Ok (mkReply 200 (VObj [(key, VNull)])), [Fetched r])).
Proof.
  intros e id r key names h up st data Hin Hup Hok Hdata. simpl in Hin.
  repeat (destruct Hin as [Hin|Hin];
          [injection Hin as <- <- <- <-;
           eapply single_ok; eassumption|]).
  destruct Hin.
Qed.

Lemma single_item_is_reduced_or_null_witness :
  run (category ApiExamples.configured "3"
         (ApiExamples.always 200
            (Some (VObj [("category",
                          VObj [("name", VStr "Billing");
                                ("locale", VStr "en-gb")])]))))
  = (Ok (mkReply 200
           (VObj [("category",
                   VObj [("id", VUndefined); ("name", VStr "Billing");
                         ("description", VUndefined);
                         ("html_url", VUndefined)])])),
     [Fetched
        (get_public
           "https://pdi-happibean-b2b.zendesk.com/api/v2/help_center/en-gb/categories/3.json")])
  /\ fst (run (category ApiExamples.configured "3"
                 (ApiExamples.always 200 (Some (VObj [])))))
     = Ok (mkReply 200 (VObj [("category", VNull)])).
Proof.
  assert (Hin : In (get_public
                      (ZENDESK_B2B_URL ApiExamples.configured
                       ++ "/api/v2/help_center/en-gb/categories/"
                       ++ "3" ++ ".json"),
                    "category", ["id"; "name"; "description"; "html_url"],
                    category ApiExamples.configured "3")
                   (singles ApiExamples.configured "3"))
    by (simpl; right; left; reflexivity).
  split.
  - destruct (single_item_is_reduced_or_null ApiExamples.configured "3"
                _ _ _ _
                (ApiExamples.always 200
                   (Some (VObj [("category",
                                 VObj [("name", VStr "Billing");
                                       ("locale", VStr "en-gb")])])))
                200 _ Hin eq_refl eq_refl eq_refl) as [H _].
    rewrite (H eq_refl). reflexivity.
  - destruct (single_item_is_reduced_or_null ApiExamples.configured "3"
                _ _ _ _ (ApiExamples.always 200 (Some (VObj [])))
                200 _ Hin eq_refl eq_refl eq_refl) as [_ H].
    rewrite (H eq_refl). reflexivity.
Defined.

(** *** A ticket form and its fields *)

Lemma selected_shown :
  forall form ids f,
    nullish form = false ->
    property form "ticket_field_ids" = VArr ids ->
    nullish f = false ->
    selected form f = Ok (shown ids f).
Proof.
  intros form ids f Hform Hids Hf. unfold selected, shown.
  rewrite (get_not_nullish form _ Hform), Hids. simpl.
  rewrite (get_not_nullish f "id" Hf). simpl.
  destruct (existsb _ ids); simpl; auto.
  rewrite (get_not_nullish f _ Hf). reflexivity.
Qed.

Lemma select_filter :
  forall (p : value -> outcome bool) (q : value -> bool) items,
    (forall v, In v items -> p v = Ok (q v)) ->
    select p items = Ok (filter q items).
Proof.
  intros p q items; induction items as [|v items IH]; intros H; simpl; auto.
  rewrite (H v) by now left. simpl.
  rewrite IH by (intros w Hw; apply H; now right). reflexivity.
Qed.

Lemma field_view_shown :
  forall f, nullish f = false -> field_view f = Ok (shown_field f).
Proof.
  intros f Hf. unfold field_view, shown_field, options_of.
  rewrite !(get_not_nullish f _ Hf). simpl.
  destruct (truthy (property f "custom_field_options")); simpl.
  - reflexivity.
  - unfold or_else.
    destruct (truthy (property f "system_field_options")); reflexivity.
Qed.

(** X16. For a form that Zendesk serves, the handler answers 200 with the
    form's id, name and display name, its conditions (or none), and the
    fields: when the fields request succeeds, exactly the Zendesk fields
    whose id is among the form's field ids and that are visible in the
    portal, in Zendesk's order, each reduced to id, type, title,
    description, required and options; when the fields request is answered
    with a failure status, no fields, and still 200. *)
Theorem form_fields_are_selected :
  forall e formId up st formData,
    up (form_request e formId) = Responds st (Some formData) ->
    ok st = true ->
    nullish formData = false ->
    nullish (property formData "ticket_form") = false ->
    let form := property formData "ticket_form" in
    let view fields :=
      mkReply 200
        (VObj [("form", VObj [("id", property form "id");
                              ("name", property form "name");
                              ("display_name",
                               property form "display_name")]);
               ("fields", VArr fields);
               ("conditions",
                or_else (property form "end_user_conditions") (VArr []))])
    in
    (forall st' fieldsData fs ids,
        up (fields_request e) = Responds st' (Some fieldsData) ->
        ok st' = true ->
        nullish fieldsData = false ->
        property fieldsData "ticket_fields" = VArr fs ->
        (forall f, In f fs -> nullish f = false) ->
        property form "ticket_field_ids" = VArr ids ->
        run (ticket_form e formId up)
        = (Ok (view (map shown_field (filter (shown ids) fs))),
           [Fetched (form_request e formId); Fetched (fields_request e)]))
    /\ (forall st' data,
          up (fields_request e) = Responds st' data ->
          ok st' = false ->
          run (ticket_form e formId up)
          = (Ok (view []),
             [Fetched (form_request e formId);
              Fetched (fields_request e)])).
Proof.
  intros e formId up st formData Hup Hok Hdata Hform form view.
  split.
  - intros st' fieldsData fs ids Hup' Hok' Hfd Hfs Hall Hids.
    unfold run, ticket_form, try_catch, seq_io, fetch, json, lift, ret.
    rewrite Hup. simpl. rewrite Hok. simpl.
    rewrite (get_not_nullish formData _ Hdata). rewrite Hup'. simpl.
    rewrite Hok'. simpl.
    rewrite (get_not_nullish fieldsData _ Hfd), Hfs. simpl.
    rewrite (select_filter (selected (property formData "ticket_form"))
               (shown ids) fs)
      by (intros f Hf; apply selected_shown; auto).
    simpl.
    rewrite (traverse_all field_view shown_field)
      by (intros f Hf; apply field_view_shown, Hall;
          apply filter_In in Hf; tauto).
    simpl. rewrite !(get_not_nullish _ _ Hform). reflexivity.
  - intros st' data Hup' Hok'.
    unfold run, ticket_form, try_catch, seq_io, fetch, json, lift, ret.
    rewrite Hup. simpl. rewrite Hok. simpl.
    rewrite (get_not_nullish formData _ Hdata). rewrite Hup'. simpl.
    rewrite Hok'. simpl.
    rewrite !(get_not_nullish _ _ Hform). reflexivity.
Qed.

Lemma form_fields_are_selected_witness :
  fst (run (ticket_form ApiExamples.configured "7"
              (ApiExamples.form_source 200 (Some ApiExamples.all_fields))))
  = Ok (mkReply 200
          (VObj [("form", VObj [("id", VNum 7); ("name", VStr "Contact");
                                ("display_name", VStr "Contact us")]);
                 ("fields",
                  VArr [VObj [("id", VNum 11); ("type", VStr "subject");
                              ("title", VStr "Subject");
                              ("description", VUndefined);
                              ("required", VBool true);
                              ("options", VArr [])];
                        VObj [("id", VNum 13); ("type", VStr "tagger");
                              ("title", VStr "Topic");
                              ("description", VUndefined);
                              ("required", VUndefined);
                              ("options", VArr [])]]);
                 ("conditions", VArr [])]))
  /\ fst (run (ticket_form ApiExamples.configured "7"
                 (ApiExamples.form_source 503 None)))
     = Ok (mkReply 200
             (VObj [("form", VObj [("id", VNum 7); ("name", VStr "Contact");
                                   ("display_name", VStr "Contact us")]);
                    ("fields", VArr []);
                    ("conditions", VArr [])])).
Proof.
  split.
  - destruct (form_fields_are_selected ApiExamples.configured "7"
                (ApiExamples.form_source 200 (Some ApiExamples.all_fields))
                200 ApiExamples.contact_form eq_refl eq_refl eq_refl
                eq_refl) as [H _].
    rewrite (H 200 ApiExamples.all_fields _ [VNum 11; VNum 12; VNum 13]
               eq_refl eq_refl eq_refl eq_refl).
    + reflexivity.
    + intros f [<-|[<-|[<-|[<-|[]]]]]; reflexivity.
    + reflexivity.
  - destruct (form_fields_are_selected ApiExamples.configured "7"
                (ApiExamples.form_source 503 None)
                200 ApiExamples.contact_form eq_refl eq_refl eq_refl
                eq_refl) as [_ H].
    rewrite (H 503 None eq_refl eq_refl). reflexivity.
Defined.

(** *** Creating a support request *)

Lemma get_opt_property :
  forall v key, get_opt v key = Ok (property v key).
Proof.
  intros [| | | | | |] key; reflexivity.
Qed.

(** X17. A request body in which email, subject or message is missing or
    falsy is answered with 400; one that has all three, on a server without
    subdomain or API token, with 500 "Zendesk not configured". In both
    cases nothing is sent to Zendesk and nothing is logged. *)
Theorem request_is_checked_before_sending :
  forall e req_body up,
    nullish req_body = false ->
    let present :=
      truthy (property req_body "email")
      && truthy (property req_body "subject")
      && truthy (property req_body "message") in
    (present = false ->
     run (create_request e req_body up)
     = (Ok (mkReply 400
              (error "Missing required fields: email, subject, message")),
        []))
    /\ (present = true ->
        Faq.truthy (env_ZENDESK_SUBDOMAIN e)
        && Faq.truthy (env_ZENDESK_API_TOKEN e) = false ->
        run (create_request e req_body up)
        = (Ok (mkReply 500 (error "Zendesk not configured")), [])).
Proof.
  intros e req_body up Hb present. subst present.
  unfold run, create_request, try_catch, seq_io, lift, ret.
  rewrite !(get_not_nullish req_body _ Hb). simpl.
  destruct (truthy (property req_body "email")),
           (truthy (property req_body "subject")),
           (truthy (property req_body "message")); simpl;
    split; intros H; try discriminate H; try reflexivity.
  intros Hc.
  destruct (Faq.truthy (env_ZENDESK_SUBDOMAIN e)),
           (Faq.truthy (env_ZENDESK_API_TOKEN e)); simpl in *;
    try discriminate Hc; reflexivity.
Qed.

Lemma request_is_checked_before_sending_witness :
  run (create_request ApiExamples.configured
         (VObj [("email", VStr "ann@example.org"); ("subject", VStr "");
                ("message", VStr "Hello")])
         (ApiExamples.always 200 None))
  = (Ok (mkReply 400
           (error "Missing required fields: email, subject, message")),
     [])
  /\ run (create_request ApiExamples.unconfigured
            ApiExamples.contact_request (ApiExamples.always 200 None))
     = (Ok (mkReply 500 (error "Zendesk not configured")), []).
Proof.
  split.
  - destruct (request_is_checked_before_sending ApiExamples.configured
                (VObj [("email", VStr "ann@example.org");
                       ("subject", VStr ""); ("message", VStr "Hello")])
                (ApiExamples.always 200 None) eq_refl) as [H _].
    exact (H eq_refl).
  - destruct (request_is_checked_before_sending ApiExamples.unconfigured
                ApiExamples.contact_request
                (ApiExamples.always 200 None) eq_refl) as [_ H].
    exact (H eq_refl eq_refl).
Defined.

(** What the handler does with the answer to its POST. *)
Lemma create_request_after_post :
  forall e req_body up s,
    nullish req_body = false ->
    property req_body "email" = VStr s ->
    s <> "" ->
    truthy (property req_body "subject") = true ->
    truthy (property req_body "message") = true ->
    Faq.truthy (env_ZENDESK_SUBDOMAIN e) = true ->
    Faq.truthy (env_ZENDESK_API_TOKEN e) = true ->
    let requester :=
      if truthy (property req_body "name") then property req_body "name"
      else VStr (before_at s) in
    let call :=
      create_call e
        (zendeskPayload requester (VStr s)
           (property req_body "subject") (property req_body "message")
           (property req_body "category")
           (property req_body "ticket_form_id")
           (property req_body "custom_fields")) in
    let thrown :=
      (Ok (mkReply 500 (error "Internal server error")),
       [Fetched call; Logged "Request creation error:"]) in
    run (create_request e req_body up)
    = match up call with
      | Rejects => thrown
      | Responds st data =>
          if ok st then
            match data with
            | None => thrown
            | Some d =>
                if nullish d then thrown
                else
                  (Ok (mkReply 201
                         (VObj [("success", VBool true);
                                ("request_id",
                                 property (property d "request") "id");
                                ("message",
                                 VStr "Request created successfully")])),
                   [Fetched call])
            end
          else
            (Ok (mkReply st
                   (error (if (st =? 422)%nat then "Invalid request data"
                           else "Could not create request"))),
             [Fetched call; Logged "Zendesk request creation error:"])
      end.
Proof.
  intros e req_body up s Hb He Hs Hsub Hmsg Hdom Htok requester call thrown.
  assert (Hemail : truthy (VStr s) = true)
    by (destruct s; [congruence|reflexivity]).
  assert (Hr : (if truthy (property req_body "name")
                then Ok (property req_body "name")
                else local_part (VStr s)) = Ok requester).
  { subst requester. destruct (truthy (property req_body "name"));
      reflexivity. }
  unfold run, create_request, try_catch, seq_io, lift, ret, fetch, json, log.
  rewrite !(get_not_nullish req_body _ Hb). cbv beta iota.
  rewrite He, Hemail, Hsub, Hmsg, Hdom, Htok. cbn [negb orb].
  cbv beta iota. rewrite Hr. cbv beta iota. fold call.
  destruct (up call) as [|st data]; [reflexivity|].
  cbn [fst snd]. destruct (ok st); cbn [negb].
  - destruct data as [d|]; [|reflexivity].
    destruct (nullish d) eqn:Hd.
    + destruct d; try discriminate Hd; reflexivity.
    + unfold lift. rewrite (get_not_nullish d _ Hd), get_opt_property.
      reflexivity.
  - destruct (st =? 422)%nat eqn:E; [|reflexivity].
    apply Nat.eqb_eq in E. subst st. reflexivity.
Qed.

(** X18. A request with a string email, a subject and a message, on a
    configured server, causes exactly one POST to the requests endpoint of
    the account, with the credentials, carrying requester email, subject,
    message, the tags and the optional properties; the requester's name is
    the given name or, without one, the part of the email before the first
    [@]. No other request is made, whatever Zendesk answers. A success
    status with a JSON document other than [null] is answered with 201 and
    the id of the created request; a failure status is logged and answered
    with 422 and "Invalid request data" when it is 422, and passed on with
    "Could not create request" otherwise. A success status whose body is
    not JSON or is [null], and a POST that rejects, are logged and answered
    with 500 "Internal server error": the POST has been sent by then. *)
Theorem request_is_forwarded :
  forall e req_body up s,
    nullish req_body = false ->
    property req_body "email" = VStr s ->
    s <> "" ->
    truthy (property req_body "subject") = true ->
    truthy (property req_body "message") = true ->
    Faq.truthy (env_ZENDESK_SUBDOMAIN e) = true ->
    Faq.truthy (env_ZENDESK_API_TOKEN e) = true ->
    let requester :=
      if truthy (property req_body "name") then property req_body "name"
      else VStr (before_at s) in
    let call :=
      create_call e
        (zendeskPayload requester (VStr s)
           (property req_body "subject") (property req_body "message")
           (property req_body "category")
           (property req_body "ticket_form_id")
           (property req_body "custom_fields")) in
    (forall st data,
        up call = Responds st (Some data) ->
        ok st = true ->
        nullish data = false ->
        run (create_request e req_body up)
        = (Ok (mkReply 201
                 (VObj [("success", VBool true);
                        ("request_id",
                         property (property data "request") "id");
                        ("message", VStr "Request created successfully")])),
           [Fetched call]))
    /\ (forall st data,
          up call = Responds st data ->
          ok st = false ->
          run (create_request e req_body up)
          = (Ok (mkReply st
                   (error (if (st =? 422)%nat then "Invalid request data"
                           else "Could not create request"))),
             [Fetched call; Logged "Zendesk request creation error:"]))
    /\ (forall st data,
          up call = Responds st data ->
          ok st = true ->
          data = None \/ (exists d, data = Some d /\ nullish d = true) ->
          run (create_request e req_body up)
          = (Ok (mkReply 500 (error "Internal server error")),
             [Fetched call; Logged "Request creation error:"]))
    /\ (up call = Rejects ->
        run (create_request e req_body up)
        = (Ok (mkReply 500 (error "Internal server error")),
           [Fetched call; Logged "Request creation error:"]))
    /\ (exists logs,
          snd (run (create_request e req_body up)) = Fetched call :: logs
          /\ forall r, ~ In (Fetched r) logs).
Proof.
  intros e req_body up s Hb He Hs Hsub Hmsg Hdom Htok requester call.
  pose proof (create_request_after_post e req_body up s Hb He Hs Hsub Hmsg
                Hdom Htok) as H.
  cbv zeta in H. fold requester in H. fold call in H.
  split; [|split; [|split; [|split]]].
  - intros st data Hup Hok Hd. rewrite H, Hup, Hok, Hd. reflexivity.
  - intros st data Hup Hok. rewrite H, Hup, Hok. reflexivity.
  - intros st data Hup Hok [->|(d & -> & Hd)]; rewrite H, Hup, Hok;
      [|rewrite Hd]; reflexivity.
  - intros Hup. rewrite H, Hup. reflexivity.
  - rewrite H.
    assert (Hlog : forall l r, ~ In (Fetched r) [Logged l])
      by (intros l r [E|[]]; discriminate E).
    destruct (up call) as [|st data]; [eexists; split; [reflexivity|]; auto|].
    destruct (ok st); [|eexists; split; [reflexivity|]; auto].
    destruct data as [d|]; [|eexists; split; [reflexivity|]; auto].
    destruct (nullish d); eexists; (split; [reflexivity|]); auto.
Qed.

Lemma request_is_forwarded_witness :
  run (create_request ApiExamples.configured ApiExamples.contact_request
         (ApiExamples.always 201
            (Some (VObj [("request", VObj [("id", VNum 4711)])]))))
  = (Ok (mkReply 201
           (VObj [("success", VBool true); ("request_id", VNum 4711);
                  ("message", VStr "Request created successfully")])),
     [Fetched ApiExamples.contact_call])
  /\ run (create_request ApiExamples.configured ApiExamples.contact_request
            (ApiExamples.always 204 None))
     = (Ok (mkReply 500 (error "Internal server error")),
        [Fetched ApiExamples.contact_call;
         Logged "Request creation error:"])
  /\ run (create_request ApiExamples.configured ApiExamples.contact_request
            (fun _ => Rejects))
     = (Ok (mkReply 500 (error "Internal server error")),
        [Fetched ApiExamples.contact_call;
         Logged "Request creation error:"]).
Proof.
  assert (Hs : "ann@example.org" <> "") by discriminate.
  split; [|split].
  - destruct (request_is_forwarded ApiExamples.configured
                ApiExamples.contact_request
                (ApiExamples.always 201
                   (Some (VObj [("request", VObj [("id", VNum 4711)])])))
                "ann@example.org" eq_refl eq_refl Hs eq_refl eq_refl eq_refl
                eq_refl) as [H _].
    rewrite (H 201 _ eq_refl eq_refl eq_refl). reflexivity.
  - destruct (request_is_forwarded ApiExamples.configured
                ApiExamples.contact_request (ApiExamples.always 204 None)
                "ann@example.org" eq_refl eq_refl Hs eq_refl eq_refl eq_refl
                eq_refl) as (_ & _ & H & _).
    rewrite (H 204 None eq_refl eq_refl (or_introl eq_refl)). reflexivity.
  - destruct (request_is_forwarded ApiExamples.configured
                ApiExamples.contact_request (fun _ => Rejects)
                "ann@example.org" eq_refl eq_refl Hs eq_refl eq_refl eq_refl
                eq_refl) as (_ & _ & _ & H & _).
    rewrite (H eq_refl). reflexivity.
Defined.

(** X19. The default name of the requester is the beginning of the email up
    to its first [@]: it contains no [@], the email continues after it with
    [@] or ends, and an email without [@] is taken whole. *)
Theorem local_part_is_the_text_before_the_at :
  forall s,
    no_at (before_at s) = true
    /\ (exists rest,
          s = before_at s ++ rest
          /\ (rest = "" \/ exists rest', rest = String "@" rest'))
    /\ (no_at s = true -> before_at s = s).
Proof.
  unfold no_at. induction s as [|c s (IH1 & (rest & IH2 & IH3) & IH4)].
  - repeat split; auto. exists "". auto.
  - simpl. destruct (Ascii.eqb c "@") eqn:E.
    + apply Ascii.eqb_eq in E. subst c. repeat split; auto.
      * exists (String "@" s). split; [reflexivity|]. right. eauto.
      * discriminate.
    + simpl. rewrite E. simpl. repeat split; auto.
      * exists rest. split; [|exact IH3]. simpl. now rewrite <- IH2.
      * intros H. now rewrite IH4.
Qed.

(** *** Requests that carry the credentials *)

Section OnlyFetches.
Variable P : request -> Prop.

Lemma only_ret : forall (A : Type) (a : A), only_fetches P (ret a).
Proof.
  intros A a tr. exists []. simpl. rewrite app_nil_r. split; [auto|].
  intros r [].
Qed.

Lemma only_lift :
  forall (A : Type) (o : outcome A), only_fetches P (lift o).
Proof.
  intros A o tr. exists []. simpl. rewrite app_nil_r. split; [auto|].
  intros r [].
Qed.

Lemma only_json : forall data, only_fetches P (json data).
Proof.
  intros data. apply only_lift.
Qed.

Lemma only_log : forall message, only_fetches P (log message).
Proof.
  intros message tr. exists [Logged message]. split; [reflexivity|].
  intros r [H|[]]. discriminate H.
Qed.

Lemma only_fetch :
  forall up r, P r -> only_fetches P (fetch up r).
Proof.
  intros up r Hr tr. exists [Fetched r]. unfold fetch.
  split; [destruct (up r); reflexivity|].
  intros r' [H|[]]. injection H as <-. exact Hr.
Qed.

Lemma only_seq :
  forall (A B : Type) (m : io A) (k : A -> io B),
    only_fetches P m ->
    (forall a, only_fetches P (k a)) ->
    only_fetches P (seq_io m k).
Proof.
  intros A B m k Hm Hk tr. unfold seq_io.
  destruct (Hm tr) as (added & Htr & Hadded).
  destruct (m tr) as [[a| |] tr']; simpl in Htr; subst tr'.
  - destruct (Hk a (tr ++ added)%list) as (added' & Htr' & Hadded').
    exists (added ++ added')%list. rewrite Htr', app_assoc.
    split; [reflexivity|]. intros r Hr. apply in_app_or in Hr.
    destruct Hr; auto.
  - exists added. auto.
  - exists added. auto.
Qed.

Lemma only_try_catch :
  forall label m, only_fetches P m -> only_fetches P (try_catch label m).
Proof.
  intros label m Hm tr. unfold try_catch.
  destruct (Hm tr) as (added & Htr & Hadded).
  destruct (m tr) as [[a| |] tr']; simpl in Htr; subst tr'.
  - exists added. auto.
  - exists (added ++ [Logged label])%list. simpl. rewrite app_assoc.
    split; [reflexivity|]. intros r Hr. apply in_app_or in Hr.
    destruct Hr as [Hr|[Hr|[]]]; [auto|discriminate Hr].
  - exists added. auto.
Qed.
End OnlyFetches.

Ltac only_fetches_steps :=
  repeat first
    [ apply only_try_catch
    | apply only_seq; [|intros ?]
    | apply only_ret
    | apply only_lift
    | apply only_json
    | apply only_log
    | apply only_fetch
    | match goal with
      | |- only_fetches _ (if ?c then _ else _) => destruct c
      end ].

Lemma to_account_private :
  forall e path, to_account e (get_private e (ZENDESK_BASE_URL e ++ path)).
Proof.
  intros e path. split; [reflexivity|].
  unfold get_private. cbn [url]. apply startsWith_append.
Qed.

Lemma ticket_forms_only_account :
  forall e up, only_fetches (to_account e) (ticket_forms e up).
Proof.
  intros e up. unfold ticket_forms, listing. only_fetches_steps.
  apply to_account_private.
Qed.

Lemma ticket_form_only_account :
  forall e formId up, only_fetches (to_account e) (ticket_form e formId up).
Proof.
  intros e formId up. unfold ticket_form. only_fetches_steps.
  - unfold form_request. apply to_account_private.
  - unfold fields_request. apply to_account_private.
Qed.

Lemma create_request_only_account :
  forall e req_body up,
    only_fetches (to_account e) (create_request e req_body up).
Proof.
  intros e req_body up. unfold create_request. only_fetches_steps.
  split; [reflexivity|].
  unfold create_call. cbn [url]. apply startsWith_append.
Qed.

(** X20. Every request made by the two ticket-form handlers and by the
    request submission carries the Authorization header of the server and
    goes to the host of the account: the credentials are sent nowhere
    else. *)
Theorem account_requests_carry_credentials :
  forall e formId req_body up r,
    In (Fetched r) (snd (run (ticket_forms e up)))
    \/ In (Fetched r) (snd (run (ticket_form e formId up)))
    \/ In (Fetched r) (snd (run (create_request e req_body up))) ->
    headers r = Some (getAuthHeader e)
    /\ JsString.startsWith (url r) (ZENDESK_BASE_URL e) = true.
Proof.
  intros e formId req_body up r H. unfold run in H.
  destruct H as [H|[H|H]].
  - destruct (ticket_forms_only_account e up []) as (added & Htr & Hall).
    rewrite Htr in H. apply (Hall r H).
  - destruct (ticket_form_only_account e formId up [])
      as (added & Htr & Hall).
    rewrite Htr in H. apply (Hall r H).
  - destruct (create_request_only_account e req_body up [])
      as (added & Htr & Hall).
    rewrite Htr in H. apply (Hall r H).
Qed.

Lemma account_requests_carry_credentials_witness :
  headers (fields_request ApiExamples.configured)
  = Some (getAuthHeader ApiExamples.configured)
  /\ JsString.startsWith (url (fields_request ApiExamples.configured))
       "https://acme.zendesk.com" = true.
Proof.
  apply (account_requests_carry_credentials ApiExamples.configured "7"
           VNull (ApiExamples.form_source 503 None)
           (fields_request ApiExamples.configured)).
  right. left. simpl. right. left. reflexivity.
Defined.

(** *** The Authorization header *)

From Stdlib Require Import ZifyNat.

Ltac Zify.zify_post_hook ::= Z.to_euclidean_division_equations.



Lemma digit_value_digit :
  forall n, n < 64 -> Base64.digit_value (Base64.digit n) = Some n.
Proof.
  intros n H.
  do 64 (destruct n as [|n]; [reflexivity|]). lia.
Qed.

Lemma digit_not_pad :
  forall n, n < 64 -> Ascii.eqb (Base64.digit n) "=" = false.
Proof.
  intros n H.
  do 64 (destruct n as [|n]; [reflexivity|]). lia.
Qed.

Lemma decode_encode_upto :
  forall n bs,
    List.length bs <= n ->
    bytes bs ->
    Base64.decode (Base64.encode bs) = Some bs.
Proof.
  induction n as [|n IH]; intros bs Hn Hb.
  - destruct bs; [reflexivity|simpl in Hn; lia].
  - destruct bs as [|a [|b [|c rest]]]; [reflexivity| | |].
    + apply Forall_cons_iff in Hb. destruct Hb as [Ha _].
      cbn [Base64.encode Base64.decode].
      rewrite !digit_value_digit by lia. rewrite !Ascii.eqb_refl.
      do 2 f_equal. lia.
    + apply Forall_cons_iff in Hb. destruct Hb as [Ha Hb].
      apply Forall_cons_iff in Hb. destruct Hb as [Hb _].
      cbn [Base64.encode Base64.decode].
      rewrite !digit_value_digit by lia.
      rewrite digit_not_pad by lia. rewrite !Ascii.eqb_refl.
      do 2 f_equal; [lia|]. f_equal. lia.
    + apply Forall_cons_iff in Hb. destruct Hb as [Ha Hb].
      apply Forall_cons_iff in Hb. destruct Hb as [Hb Hc].
      apply Forall_cons_iff in Hc. destruct Hc as [Hc Hrest].
      cbn [Base64.encode Base64.decode].
      rewrite !digit_value_digit by lia.
      rewrite !digit_not_pad by lia.
      rewrite (IH rest) by (simpl in Hn; auto; lia).
      do 2 f_equal; [lia|]. f_equal; [lia|]. f_equal. lia.
Qed.

Lemma utf8_bytes : forall s, bytes (Base64.utf8 s).
Proof.
  unfold bytes. induction s as [|c s IH]; [constructor|].
  pose proof (nat_ascii_bounded c) as Hc.
  cbn [Base64.utf8]. unfold JsString.code.
  destruct (nat_of_ascii c <? 128)%nat;
    repeat (constructor; [lia|]); exact IH.
Qed.

Lemma utf8_decode_utf8 :
  forall s, Base64.utf8_decode (Base64.utf8 s) = Some s.
Proof.
  induction s as [|c s IH]; [reflexivity|].
  pose proof (nat_ascii_bounded c) as Hc.
  cbn [Base64.utf8]. unfold JsString.code.
  destruct (nat_of_ascii c <? 128)%nat eqn:E.
  - cbn [Base64.utf8_decode]. rewrite E, IH. cbn [option_map].
    now rewrite ascii_nat_embedding.
  - apply Nat.ltb_ge in E. cbn [Base64.utf8_decode].
    replace (192 + nat_of_ascii c / 64 <? 128)%nat with false
      by (symmetry; apply Nat.ltb_ge; lia).
    replace (between 194 195 (192 + nat_of_ascii c / 64)
             && between 128 191 (128 + nat_of_ascii c mod 64))
      with true.
    + rewrite IH. cbn [option_map].
      replace ((192 + nat_of_ascii c / 64 - 192) * 64
               + (128 + nat_of_ascii c mod 64 - 128))
        with (nat_of_ascii c) by lia.
      now rewrite ascii_nat_embedding.
    + symmetry. unfold between. rewrite !andb_true_iff, !Nat.leb_le. lia.
Qed.

Lemma encode_length :
  forall n bs,
    List.length bs <= n ->
    String.length (Base64.encode bs) = 4 * ((List.length bs + 2) / 3).
Proof.
  induction n as [|n IH]; intros bs Hn.
  - destruct bs; [reflexivity|simpl in Hn; lia].
  - destruct bs as [|a [|b [|c rest]]]; try reflexivity.
    cbn [Base64.encode String.length List.length].
    rewrite (IH rest) by (simpl in Hn; lia). lia.
Qed.

(** X21. The Authorization header is [Basic] followed by a base64 text whose
    length is a multiple of four and that decodes to the UTF-8 bytes of
    email, [/token:], API token, from which that text is read back; a
    variable that is not set contributes the text [undefined]. *)
Theorem auth_header_decodes_to_credentials :
  forall e,
    exists text,
      getAuthHeader e = "Basic " ++ text
      /\ String.length text
         = 4 * ((List.length (Base64.utf8 (credentials e)) + 2) / 3)
      /\ Base64.decode text = Some (Base64.utf8 (credentials e))
      /\ Base64.utf8_decode (Base64.utf8 (credentials e))
         = Some (template (env_ZENDESK_EMAIL e) ++ "/token:"
                 ++ template (env_ZENDESK_API_TOKEN e)).
Proof.
  intros e. exists (Base64.encode (Base64.utf8 (credentials e))).
  split; [reflexivity|]. split; [|split].
  - eapply encode_length. apply le_n.
  - eapply decode_encode_upto; [apply le_n|apply utf8_bytes].
  - apply utf8_decode_utf8.
Qed.

(** *** Documents and bodies the handlers cannot use *)

Lemma select_nullish_form :
  forall form items,
    nullish form = true ->
    select (selected form) items
    = match items with
      | [] => Ok []
      | _ :: _ => Raise
      end.
Proof.
  intros form [|f items] H; [reflexivity|].
  destruct form; try discriminate H; reflexivity.
Qed.

(** X22. When Zendesk serves a form document that has no [ticket_form], the
    handler still requests the fields and then answers 500 with the fixed
    message, whatever the answer to the fields request is. *)
Theorem form_without_ticket_form_is_500 :
  forall e formId up st formData,
    up (form_request e formId) = Responds st (Some formData) ->
    ok st = true ->
    nullish formData = false ->
    nullish (property formData "ticket_form") = true ->
    run (ticket_form e formId up)
    = (Ok (mkReply 500 (error "Internal server error")),
       [Fetched (form_request e formId); Fetched (fields_request e);
        Logged "Ticket form fetch error:"]).
Proof.
  intros e formId up st formData Hup Hok Hdata Hform.
  assert (Hget : forall key,
             get (property formData "ticket_form") key = Raise)
    by (intros key; destruct (property formData "ticket_form");
        try discriminate Hform; reflexivity).
  unfold run, ticket_form, try_catch, seq_io, fetch, json, lift, ret.
  rewrite Hup. cbn [fst snd app]. rewrite Hok. cbn [negb].
  rewrite (get_not_nullish formData _ Hdata).
  destruct (up (fields_request e)) as [|st' data]; [reflexivity|].
  cbn [fst snd]. destruct (ok st'); [|rewrite Hget; reflexivity].
  destruct data as [fieldsData|]; [|reflexivity].
  destruct (get fieldsData "ticket_fields") as [listed| |] eqn:Hl;
    [|reflexivity|].
  - unfold opt_filter.
    destruct listed as [| | | | |items|];
      try (cbn; rewrite ?Hget; reflexivity).
    rewrite (select_nullish_form _ items Hform).
    destruct items; cbn; rewrite ?Hget; reflexivity.
  - destruct fieldsData; discriminate Hl.
Qed.

Lemma form_without_ticket_form_is_500_witness :
  fst (run (ticket_form ApiExamples.configured "7"
              (ApiExamples.always 200 (Some (VObj [("error", VNull)])))))
  = Ok (mkReply 500 (error "Internal server error")).
Proof.
  rewrite (form_without_ticket_form_is_500 ApiExamples.configured "7"
             (ApiExamples.always 200 (Some (VObj [("error", VNull)])))
             200 (VObj [("error", VNull)]) eq_refl eq_refl eq_refl eq_refl).
  reflexivity.
Defined.

(** X23. Without a request body, or with a complete request on a configured
    server whose email is not a string while no name is given, the
    submission is answered with 500 and the fixed message; the exception is
    logged and nothing is sent to Zendesk. *)
Theorem unusable_request_is_500_unsent :
  forall e req_body up,
    nullish req_body = true
    \/ (nullish req_body = false
        /\ truthy (property req_body "email") = true
        /\ truthy (property req_body "subject") = true
        /\ truthy (property req_body "message") = true
        /\ Faq.truthy (env_ZENDESK_SUBDOMAIN e) = true
        /\ Faq.truthy (env_ZENDESK_API_TOKEN e) = true
        /\ truthy (property req_body "name") = false
        /\ (forall s, property req_body "email" <> VStr s)) ->
    run (create_request e req_body up)
    = (Ok (mkReply 500 (error "Internal server error")),
       [Logged "Request creation error:"]).
Proof.
  intros e req_body up [Hb|(Hb & He & Hsub & Hmsg & Hdom & Htok & Hn & Hs)].
  - destruct req_body; try discriminate Hb; reflexivity.
  - unfold run, create_request, try_catch, seq_io, lift, ret.
    rewrite !(get_not_nullish req_body _ Hb). cbv beta iota.
    rewrite He, Hsub, Hmsg, Hdom, Htok, Hn. cbn [negb orb].
    cbv beta iota.
    destruct (property req_body "email") as [| | | |s| |];
      try reflexivity.
    destruct (Hs s eq_refl).
Qed.

Lemma unusable_request_is_500_unsent_witness :
  run (create_request ApiExamples.configured
         (VObj [("email", VNum 5); ("subject", VStr "Help");
                ("message", VStr "Hello")])
         (ApiExamples.always 201 None))
  = (Ok (mkReply 500 (error "Internal server error")),
     [Logged "Request creation error:"]).
Proof.
  apply (unusable_request_is_500_unsent ApiExamples.configured
           (VObj [("email", VNum 5); ("subject", VStr "Help");
                  ("message", VStr "Hello")])
           (ApiExamples.always 201 None)).
  right. repeat split; try reflexivity. intros s H. discriminate H.
Defined.
